(** * A shallow embedding of the signals facade (src/wip/signals.ts)

    The facade functions [createSignal], [createMemo] and [createEffect] are
    translated from the TypeScript source as programs over the operations
    they import from "./core".  The core itself and the keyed array mapper
    are not part of the sources at hand; they are modelled from the
    specification, and the test file tests/mapArray.test.ts is translated as
    a client program of both. *)

From Stdlib Require Import ZArith Lia String List Bool Permutation.
From stdpp Require Import base option list numbers.
Import ListNotations.
Local Open Scope Z_scope.
Local Open Scope nat_scope.
Local Open Scope string_scope.
Local Open Scope list_scope.
Set Warnings "-register-all".

(** ** JavaScript values *)

(** Objects and arrays carry the address they were allocated at: strict
    equality [===] on them is equality of addresses.  Function values are
    closures in defunctionalised form: the code they run together with the
    variables they captured. *)
Inductive Val : Type :=
| VUndef
| VNull
| VBool (b : bool)
| VNum (z : Z)
| VStr (s : string)
| VObj (addr : nat) (fields : list (string * Slot))
| VArr (addr : nat) (elems : list Val)
| VFun (f : Fn)
with Slot : Type :=
| SData (v : Val)
| SGetter (f : Fn)
with Fn : Type :=
| FUser (code : nat) (env : list Val)
    (* a function of the client program: entry [code] of its code table *)
| FRead (node : nat)                       (* read.bind(node) *)
| FWrite (node : nat)                      (* write.bind(node) *)
| FDispose (node : nat) (children : bool)  (* dispose.bind(node, children) *)
| FStopEffect (node : nat)                 (* function stopEffect() {...} *)
| FRunEffect (effect : Fn)                 (* function runEffect() {...} *)
| FMapper (byAccessor : bool) (source : Val) (mapFn : Val)
          (key : option Fn) (table : nat)  (* the compute function of mapArray's memo *)
| FMapChild (mapFn : Val) (item : Val) (index : nat).
                                           (* the body of one child computation *)

(** [isFunction] of "./core": [typeof v === "function"]. *)
Definition isFunction (v : Val) : bool :=
  match v with VFun _ => true | _ => false end.

(** Equality of values is decidable. *)
Fixpoint same_val (a b : Val) : {a = b} + {a <> b}
with same_slot (a b : Slot) : {a = b} + {a <> b}
with same_fn (a b : Fn) : {a = b} + {a <> b}.
Proof.
  - decide equality;
      [apply Bool.bool_dec | apply Z.eq_dec | apply string_dec
      | apply List.list_eq_dec; decide equality; apply string_dec
      | apply Nat.eq_dec | apply List.list_eq_dec, same_val | apply Nat.eq_dec].
  - decide equality.
  - decide equality; try apply Nat.eq_dec; try apply Bool.bool_dec.
    + apply List.list_eq_dec, same_val.
    + decide equality.
Defined.

(** Strict equality [===].  Objects and arrays are compared by address.
    Two function values are the same reference when they are the same
    closure, the same code with the same captured variables: a function is
    strictly equal to itself. *)
Definition js_eq (a b : Val) : bool :=
  match a, b with
  | VUndef, VUndef => true
  | VNull, VNull => true
  | VBool x, VBool y => Bool.eqb x y
  | VNum x, VNum y => Z.eqb x y
  | VStr x, VStr y => String.eqb x y
  | VObj x _, VObj y _ => Nat.eqb x y
  | VArr x _, VArr y _ => Nat.eqb x y
  | VFun f, VFun g => if same_fn f g then true else false
  | _, _ => false
  end.

Definition truthy (v : Val) : bool :=
  match v with
  | VUndef | VNull => false
  | VBool b => b
  | VNum z => negb (Z.eqb z 0)
  | VStr s => negb (String.eqb s "")
  | _ => true
  end.

(** ** Options of a computation (types.ts is not at hand: the fields the
    facade and the specification mention) *)
Record Options : Type := mkOptions {
  opt_id : option string;        (* options.id *)
  opt_initial : Val;             (* options.initial, [VUndef] when absent *)
  opt_equals : option Fn         (* the custom equality check, if configured *)
}.

Definition no_options : Options :=
  {| opt_id := None; opt_initial := VUndef; opt_equals := None |}.

(** ** Nodes and the graph *)

Record Node : Type := mkNode {
  value : Val;
  stale : bool;
  compute : option Fn;
  sources : list nat;
  observers : list nat;
  disposed : bool;
  cleanups : list Val;     (* in registration order *)
  isEffect : bool;         (* the [_effect] field *)
  children : list nat;     (* computations created while this one was executing *)
  equals : option Fn;
  label : option string;
  runs : nat               (* ghost: how often [compute] has been invoked *)
}.

(** One entry of the mapper's [keyToChild] table. *)
Record Entry : Type := mkEntry {
  e_child : nat;
  e_index : nat;
  e_item : option nat      (* the internal item signal, when the item is passed by accessor *)
}.

Abbreviation Table := (list (Val * Entry)).

Record State : Type := mkState {
  nodes : list Node;             (* the arena: a node is its position *)
  active : list nat;             (* the active-computation stack, top first *)
  pending : list nat;            (* effects scheduled to re-run, oldest first *)
  flushing : bool;               (* a flush pass is in progress *)
  tables : list Table;           (* the key tables of the mappers *)
  next_addr : nat;               (* next free object address *)
  calls : list (Fn * list Val)   (* ghost: the calls of function values, oldest first *)
}.

(** How often the client function [code] has been called. *)
Definition is_code (code : nat) (c : Fn * list Val) : bool :=
  match fst c with FUser c' _ => Nat.eqb c' code | _ => false end.

Definition count_calls (code : nat) (l : list (Fn * list Val)) : nat :=
  length (List.filter (is_code code) l).

Definition called_times (code : nat) (st : State) : nat :=
  count_calls code (calls st).

Definition empty_state : State :=
  {| nodes := []; active := []; pending := []; flushing := false;
     tables := []; next_addr := 0; calls := [] |}.

Definition set_nodes (f : list Node -> list Node) (st : State) : State :=
  {| nodes := f (nodes st); active := active st; pending := pending st;
     flushing := flushing st; tables := tables st; next_addr := next_addr st;
     calls := calls st |}.

Definition set_active (a : list nat) (st : State) : State :=
  {| nodes := nodes st; active := a; pending := pending st;
     flushing := flushing st; tables := tables st; next_addr := next_addr st;
     calls := calls st |}.

Definition set_pending (p : list nat) (st : State) : State :=
  {| nodes := nodes st; active := active st; pending := p;
     flushing := flushing st; tables := tables st; next_addr := next_addr st;
     calls := calls st |}.

Definition set_flushing (b : bool) (st : State) : State :=
  {| nodes := nodes st; active := active st; pending := pending st;
     flushing := b; tables := tables st; next_addr := next_addr st;
     calls := calls st |}.

Definition set_tables (f : list Table -> list Table) (st : State) : State :=
  {| nodes := nodes st; active := active st; pending := pending st;
     flushing := flushing st; tables := f (tables st); next_addr := next_addr st;
     calls := calls st |}.

Definition bump_addr (st : State) : State :=
  {| nodes := nodes st; active := active st; pending := pending st;
     flushing := flushing st; tables := tables st; next_addr := S (next_addr st);
     calls := calls st |}.

Definition log_call (f : Fn) (args : list Val) (st : State) : State :=
  {| nodes := nodes st; active := active st; pending := pending st;
     flushing := flushing st; tables := tables st; next_addr := next_addr st;
     calls := calls st ++ [(f, args)] |}.

(** Node field updates. *)
Definition with_value (v : Val) (nd : Node) : Node :=
  {| value := v; stale := stale nd; compute := compute nd; sources := sources nd;
     observers := observers nd; disposed := disposed nd; cleanups := cleanups nd;
     isEffect := isEffect nd; children := children nd; equals := equals nd;
     label := label nd; runs := runs nd |}.

Definition with_stale (b : bool) (nd : Node) : Node :=
  {| value := value nd; stale := b; compute := compute nd; sources := sources nd;
     observers := observers nd; disposed := disposed nd; cleanups := cleanups nd;
     isEffect := isEffect nd; children := children nd; equals := equals nd;
     label := label nd; runs := runs nd |}.

Definition with_sources (l : list nat) (nd : Node) : Node :=
  {| value := value nd; stale := stale nd; compute := compute nd; sources := l;
     observers := observers nd; disposed := disposed nd; cleanups := cleanups nd;
     isEffect := isEffect nd; children := children nd; equals := equals nd;
     label := label nd; runs := runs nd |}.

Definition with_observers (l : list nat) (nd : Node) : Node :=
  {| value := value nd; stale := stale nd; compute := compute nd; sources := sources nd;
     observers := l; disposed := disposed nd; cleanups := cleanups nd;
     isEffect := isEffect nd; children := children nd; equals := equals nd;
     label := label nd; runs := runs nd |}.

Definition with_disposed (b : bool) (nd : Node) : Node :=
  {| value := value nd; stale := stale nd; compute := compute nd; sources := sources nd;
     observers := observers nd; disposed := b; cleanups := cleanups nd;
     isEffect := isEffect nd; children := children nd; equals := equals nd;
     label := label nd; runs := runs nd |}.

Definition with_cleanups (l : list Val) (nd : Node) : Node :=
  {| value := value nd; stale := stale nd; compute := compute nd; sources := sources nd;
     observers := observers nd; disposed := disposed nd; cleanups := l;
     isEffect := isEffect nd; children := children nd; equals := equals nd;
     label := label nd; runs := runs nd |}.

Definition with_isEffect (b : bool) (nd : Node) : Node :=
  {| value := value nd; stale := stale nd; compute := compute nd; sources := sources nd;
     observers := observers nd; disposed := disposed nd; cleanups := cleanups nd;
     isEffect := b; children := children nd; equals := equals nd;
     label := label nd; runs := runs nd |}.

Definition with_children (l : list nat) (nd : Node) : Node :=
  {| value := value nd; stale := stale nd; compute := compute nd; sources := sources nd;
     observers := observers nd; disposed := disposed nd; cleanups := cleanups nd;
     isEffect := isEffect nd; children := l; equals := equals nd;
     label := label nd; runs := runs nd |}.

Definition with_run (nd : Node) : Node :=
  {| value := value nd; stale := stale nd; compute := compute nd; sources := sources nd;
     observers := observers nd; disposed := disposed nd; cleanups := cleanups nd;
     isEffect := isEffect nd; children := children nd; equals := equals nd;
     label := label nd; runs := S (runs nd) |}.

(** [upd n f st]: apply [f] to node [n]; nothing happens when [n] is not a
    node of the arena. *)
Definition upd (n : nat) (f : Node -> Node) (st : State) : State :=
  set_nodes (alter f n) st.

Definition node (n : nat) (st : State) : option Node := nodes st !! n.

(** Sets kept as duplicate-free lists in insertion order (the iteration
    order of a JavaScript [Set]). *)
Definition set_add (x : nat) (l : list nat) : list nat :=
  if bool_decide (x ∈ l) then l else l ++ [x].

Definition set_remove (x : nat) (l : list nat) : list nat :=
  filter (fun y => y ≠ x) l.

(** ** Programs over the core

    A program is a tree of calls of core operations.  The facade and the
    client code are programs; what an operation does is decided by the
    engine further down. *)

Inductive Error : Type :=
| DisposedAccessError
| CyclicDependencyError
| TypeError
| AssertionError.              (* a failed expectation of a test *)

Inductive Op : Type -> Type :=
(* the exports of "./core" the facade uses *)
| OCreateComputation (initial : Val) (compute : option Fn)
                     (options : option Options) : Op nat
| OSetEffect (n : nat) : Op unit              (* node._effect = true *)
| ORead (n : nat) : Op Val                    (* read.call(node) *)
| OWrite (n : nat) (v : Val) : Op unit        (* write.call(node, v) *)
| ODispose (n : nat) (children : bool) : Op unit
| OOnDispose (cleanup : Val) : Op unit
| OFlushSync : Op unit
(* the language of the client *)
| OCall (f : Val) (args : list Val) : Op Val
| OThrow (e : Error) : Op Val
| ONewObject (fields : list (string * Slot)) : Op Val
| ONewArray (elems : list Val) : Op Val
| OCalledTimes (code : nat) : Op nat          (* the call count of a mock *)
(* internal to the mapper *)
| OCreateDetached (initial : Val) (compute : option Fn) : Op nat
| OUpdate (n : nat) : Op unit
| OPeek (n : nat) : Op Val
| ONewTable : Op nat
| OGetTable (t : nat) : Op Table
| OPutTable (t : nat) (T : Table) : Op unit.

Inductive Prog (A : Type) : Type :=
| Ret (a : A)
| Vis {X : Type} (op : Op X) (k : X -> Prog A).
Arguments Ret {A} a.
Arguments Vis {A X} op k.

Fixpoint bind {A B : Type} (p : Prog A) (f : A -> Prog B) : Prog B :=
  match p with
  | Ret a => f a
  | Vis op k => Vis op (fun x => bind (k x) f)
  end.

Definition perform {X : Type} (op : Op X) : Prog X := Vis op Ret.

Declare Scope prog_scope.
Delimit Scope prog_scope with prog.
Notation "x <- p ;; q" := (bind p (fun x => q))
  (at level 100, p at next level, right associativity) : prog_scope.
Notation "p ;;; q" := (bind p (fun _ => q))
  (at level 100, right associativity) : prog_scope.
Local Open Scope prog_scope.

Definition createComputation (initial : Val) (compute : option Fn)
    (options : option Options) : Prog nat :=
  perform (OCreateComputation initial compute options).
Definition setEffect (n : nat) : Prog unit := perform (OSetEffect n).
Definition read (n : nat) : Prog Val := perform (ORead n).
Definition write (n : nat) (v : Val) : Prog unit := perform (OWrite n v).
Definition dispose (n : nat) (children : bool) : Prog unit :=
  perform (ODispose n children).
Definition onDispose (cleanup : Val) : Prog unit := perform (OOnDispose cleanup).
Definition flushSync : Prog unit := perform OFlushSync.
Definition call (f : Val) (args : list Val) : Prog Val := perform (OCall f args).
Definition throw (e : Error) : Prog Val := perform (OThrow e).
Definition newObject (fields : list (string * Slot)) : Prog Val :=
  perform (ONewObject fields).
Definition newArray (elems : list Val) : Prog Val := perform (ONewArray elems).
Definition calledTimes (code : nat) : Prog nat := perform (OCalledTimes code).

(** Property access [o.name]. *)
Fixpoint field (name : string) (fields : list (string * Slot)) : option Slot :=
  match fields with
  | [] => None
  | (n, s) :: rest => if String.eqb name n then Some s else field name rest
  end.

(** Own properties of function objects ([name], [length]) are not modelled:
    a property of a function value reads as [undefined], like any missing
    property. *)
Definition get (o : Val) (name : string) : Prog Val :=
  match o with
  | VObj _ fields =>
      match field name fields with
      | Some (SData v) => Ret v
      | Some (SGetter g) => call (VFun g) []
      | None => Ret VUndef
      end
  | VUndef | VNull => throw TypeError
  | _ => Ret VUndef
  end.

(** ** The facade: src/wip/signals.ts *)

Section Facade.

  (** The build flag [__DEV__]. *)
Variable DEV : bool.

Definition createSignal (initialValue : Val) (options : option Options)
    : Prog (Fn * Fn) :=
    node <- createComputation initialValue None options ;;
    Ret (FRead node, FWrite node).

Definition createMemo (compute : Fn) (options : option Options) : Prog Fn :=
    node <- createComputation
              (match options with Some o => opt_initial o | None => VUndef end)
              (Some compute) options ;;
    Ret (FRead node).

  (** The function [runEffect] that [createEffect] hands to
      [createComputation]. *)
Definition runEffect (effect : Fn) : Prog Val :=
    effectResult <- call (VFun effect) [] ;;
    (if isFunction effectResult then onDispose effectResult else Ret tt) ;;;
    Ret VNull.

Definition effect_options (options : option Options) : option Options :=
    if DEV
    then Some {| opt_id := Some (default "effect" (options ≫= opt_id));
                 opt_initial := VUndef; opt_equals := None |}
    else None.

Definition createEffect (effect : Fn) (options : option Options) : Prog Fn :=
    signal <- createComputation VNull (Some (FRunEffect effect))
                (effect_options options) ;;
    setEffect signal ;;;
    read signal ;;;
    Ret (if DEV then FStopEffect signal else FDispose signal true).

End Facade.

(** ** The keyed array mapper *)

Definition createDetached (initial : Val) (compute : option Fn) : Prog nat :=
  perform (OCreateDetached initial compute).
Definition update (n : nat) : Prog unit := perform (OUpdate n).
Definition peek (n : nat) : Prog Val := perform (OPeek n).
Definition newTable : Prog nat := perform ONewTable.
Definition getTable (t : nat) : Prog Table := perform (OGetTable t).
Definition putTable (t : nat) (T : Table) : Prog unit := perform (OPutTable t T).

Fixpoint table_get (k : Val) (T : Table) : option Entry :=
  match T with
  | [] => None
  | (k', e) :: rest => if js_eq k k' then Some e else table_get k rest
  end.

Definition table_remove (k : Val) (T : Table) : Table :=
  List.filter (fun p => negb (js_eq k (fst p))) T.

Definition has_key (k : Val) (keys : list Val) : bool := existsb (js_eq k) keys.

Section Mapper.

  (** How the item reaches [mapFn]: through an accessor of an internal item
      signal ([true], the words of the specification) or as the item itself
      ([false], what the client in tests/mapArray.test.ts relies on when it
      evaluates [value.id]). *)
Variable byAccessor : bool.
Variable mapFn : Val.
Variable key : option Fn.   (* options.key *)
Variable t : nat.           (* the keyToChild table of this mapper *)

Definition key_of (item : Val) : Prog Val :=
    match key with
    | None => Ret item
    | Some f => call (VFun f) [item]
    end.

Fixpoint keys_of (items : list Val) : Prog (list Val) :=
    match items with
    | [] => Ret []
    | item :: rest =>
        k <- key_of item ;; ks <- keys_of rest ;; Ret (k :: ks)
    end.

  (** Step 2, a key that is new: the index signal, the item signal where
      there is one, and the child computation, run at once. *)
Definition add_child (i : nat) (k item : Val) : Prog unit :=
    idx <- createDetached (VNum (Z.of_nat i)) None ;;
    itm <- (if byAccessor
            then (s <- createDetached item None ;; Ret (Some s))
            else Ret None) ;;
    child <- createDetached VUndef
               (Some (FMapChild mapFn
                        (match itm with Some s => VFun (FRead s) | None => item end)
                        idx)) ;;
    update child ;;;
    T <- getTable t ;;
    putTable t (T ++ [(k, {| e_child := child; e_index := idx; e_item := itm |})]).

  (** Step 3, a key that persists: the item signal is written when the
      item's reference changed, the index signal when the position did. *)
Definition move_child (i : nat) (e : Entry) (item : Val) : Prog unit :=
    (match e_item e with
     | Some s => cur <- peek s ;;
                 if js_eq cur item then Ret tt else write s item
     | None => Ret tt
     end) ;;;
    cur <- peek (e_index e) ;;
    if js_eq cur (VNum (Z.of_nat i)) then Ret tt
    else write (e_index e) (VNum (Z.of_nat i)).

Fixpoint reconcile (i : nat) (kis : list (Val * Val)) : Prog unit :=
    match kis with
    | [] => Ret tt
    | (k, item) :: rest =>
        T <- getTable t ;;
        (match table_get k T with
         | None => add_child i k item
         | Some e => move_child i e item
         end) ;;;
        reconcile (S i) rest
    end.

  (** Step 4: the keys of the old table that the new sequence lacks. *)
Fixpoint drop_missing (keys : list Val) (old : Table) : Prog unit :=
    match old with
    | [] => Ret tt
    | (k, e) :: rest =>
        (if has_key k keys then Ret tt
         else (dispose (e_child e) true ;;;
               T <- getTable t ;; putTable t (table_remove k T))) ;;;
        drop_missing keys rest
    end.

  (** Step 5: each child's current value, in the order of the new sequence. *)
Fixpoint collect (T : Table) (keys : list Val) : Prog (list Val) :=
    match keys with
    | [] => Ret []
    | k :: rest =>
        v <- (match table_get k T with
              | Some e => peek (e_child e)
              | None => Ret VUndef
              end) ;;
        vs <- collect T rest ;;
        Ret (v :: vs)
    end.

Variable source : Val.

Definition mapper : Prog Val :=
    s' <- call source [] ;;
    match s' with
    | VArr _ items =>
        keys <- keys_of items ;;
        reconcile 0 (combine keys items) ;;;
        old <- getTable t ;;
        drop_missing keys old ;;;
        T <- getTable t ;;
        out <- collect T keys ;;
        newArray out
    | _ => throw TypeError
    end.

End Mapper.

(** Modelled from the spec: [mapArray] is not in the sources at hand (only
    its test is).  Section 4.3 of the specification: a memo over the source
    signal that keeps one child computation and one index signal per key.
    The child computations are created outside the ownership tree, run once
    when created, and step 5 collects their [value] fields: the memo's sole
    dependency is the source signal.  The item is passed as the test uses
    it, by value. *)
Definition mapArray_with (byAccessor : bool) (source : Fn) (mapFn : Fn)
    (key : option Fn) : Prog Fn :=
  t <- newTable ;;
  createMemo (FMapper byAccessor (VFun source) (VFun mapFn) key t) None.

Definition mapArray : Fn -> Fn -> option Fn -> Prog Fn := mapArray_with false.

(** The mapper in the words of the specification, section 4.3 step 2:
    [mapFn] receives an accessor of the item. *)
Definition mapArray_by_accessor : Fn -> Fn -> option Fn -> Prog Fn :=
  mapArray_with true.

(** ** The code of function values *)

Section Code.

  (** The code table of the client program: entry, captured variables,
      arguments. *)
Variable user : nat -> list Val -> list Val -> Prog Val.

Definition fn_body (f : Fn) (args : list Val) : Prog Val :=
    match f with
    | FUser c env => user c env args
    | FRead n => read n
    | FWrite n => write n (hd VUndef args) ;;; Ret VUndef
    | FDispose n b => dispose n b ;;; Ret VUndef
    | FStopEffect n => dispose n true ;;; Ret VUndef
    | FRunEffect effect => runEffect effect
    | FMapper acc source mapFn key t => mapper acc mapFn key t source
    | FMapChild mapFn item idx => call mapFn [item; VFun (FRead idx)]
    end.

End Code.

(** ** The engine

    Modelled from the spec: "./core" is not in the sources at hand.  Section
    4.1 of the specification: reads that record dependencies and recompute
    stale computations, writes that mark the observers stale breadth first
    and flush the scheduled effects, disposal along the ownership tree.

    An operation either returns, or throws and leaves the state it reached,
    or runs out of fuel. *)

Inductive Res (A : Type) : Type :=
| Ok (a : A) (st : State)
| Throw (e : Error) (st : State)
| OutOfFuel.
Arguments Ok {A} a st.
Arguments Throw {A} e st.
Arguments OutOfFuel {A}.

Definition M (A : Type) : Type := State -> Res A.

Definition mret {A : Type} (a : A) : M A := fun st => Ok a st.

Definition mbind {A B : Type} (m : M A) (f : A -> M B) : M B :=
  fun st => match m st with
            | Ok a st' => f a st'
            | Throw e st' => Throw e st'
            | OutOfFuel => OutOfFuel
            end.

Definition mthrow {A : Type} (e : Error) : M A := fun st => Throw e st.

Definition modify (f : State -> State) : M unit := fun st => Ok tt (f st).

Arguments mret {A} a st /.
Arguments mthrow {A} e st /.
Arguments modify f st /.

(** The calls that nest are made through the engine one unit of fuel
    below. *)
Record Engine : Type := mkEngine {
  e_call : Val -> list Val -> M Val;   (* call a function value *)
  e_flush : M unit;                    (* run the scheduled effects *)
  e_dispose : nat -> M unit            (* dispose an owned computation *)
}.

Definition no_fuel : Engine :=
  {| e_call := fun _ _ _ => OutOfFuel;
     e_flush := fun _ => OutOfFuel;
     e_dispose := fun _ _ => OutOfFuel |}.

(** Marking: one level of the breadth-first walk.  A plain signal, a
    disposed node and a node that is stale already are passed by; a
    computation that is marked joins the queue if it is an effect, and its
    observers make up the next level. *)
Definition mark_one (acc : list nat * State) (n : nat) : list nat * State :=
  let '(next, st) := acc in
  match node n st with
  | Some nd =>
      if stale nd || disposed nd || negb (bool_decide (is_Some (compute nd)))
      then (next, st)
      else (next ++ observers nd,
            (if isEffect nd then set_pending (pending st ++ [n]) else id)
              (upd n (with_stale true) st))
  | None => (next, st)
  end.

Fixpoint mark_levels (fuel : nat) (frontier : list nat) (st : State) : State :=
  match fuel, frontier with
  | 0, _ => st
  | _, [] => st
  | S fuel', _ =>
      let '(next, st') := fold_left mark_one frontier ([], st) in
      mark_levels fuel' next st'
  end.

(** Every level but the last marks a node, so the arena's size bounds the
    depth of the walk. *)
Definition notify (n : nat) (st : State) : State :=
  match node n st with
  | Some nd => mark_levels (S (length (nodes st))) (observers nd) st
  | None => st
  end.

Definition detach_sources (n : nat) (st : State) : State :=
  match node n st with
  | Some nd =>
      upd n (with_sources [])
        (fold_left (fun s src =>
                      upd src (fun x => with_observers (set_remove n (observers x)) x) s)
                   (sources nd) st)
  | None => st
  end.

Definition detach_observers (n : nat) (st : State) : State :=
  match node n st with
  | Some nd =>
      upd n (with_observers [])
        (fold_left (fun s obs =>
                      upd obs (fun x => with_sources (set_remove n (sources x)) x) s)
                   (observers nd) st)
  | None => st
  end.

(** [track n]: the computation on top of the stack, if there is one, has
    read [n]. *)
Definition track (n : nat) (st : State) : State :=
  match active st with
  | top :: _ =>
      upd top (fun x => with_sources (set_add n (sources x)) x)
        (upd n (fun x => with_observers (set_add top (observers x)) x) st)
  | [] => st
  end.

Definition new_node (initial : Val) (compute : option Fn)
    (options : option Options) : Node :=
  {| value := initial;
     stale := bool_decide (is_Some compute);
     compute := compute;
     sources := []; observers := []; disposed := false; cleanups := [];
     isEffect := false; children := [];
     equals := options ≫= opt_equals;
     label := options ≫= opt_id;
     runs := 0 |}.

(** A computation created while another one executes is owned by it. *)
Definition create_node (owned : bool) (initial : Val) (compute : option Fn)
    (options : option Options) : M nat :=
  fun st =>
    let n := length (nodes st) in
    let st1 := set_nodes (fun ns => ns ++ [new_node initial compute options]) st in
    Ok n (match owned, active st with
          | true, top :: _ => upd top (fun x => with_children (children x ++ [n]) x) st1
          | _, _ => st1
          end).

Definition on_dispose (cleanup : Val) : M unit :=
  fun st =>
    match active st with
    | top :: _ => Ok tt (upd top (fun x => with_cleanups (cleanups x ++ [cleanup]) x) st)
    | [] => Ok tt st
    end.

(** Entering and leaving an execution of [n]. *)
Definition enter (n : nat) (st : State) : State :=
  set_active (n :: active st) (upd n with_run (detach_sources n st)).

Definition leave (n : nat) (v : Val) (saved : list nat) (st : State) : State :=
  upd n (fun x => with_stale false (with_value v x)) (set_active saved st).

Definition current_value (n : nat) (st : State) : Val :=
  match node n st with Some nd => value nd | None => VUndef end.

Section Operations.

Variable user : nat -> list Val -> list Val -> Prog Val.
Variable rec : Engine.

Fixpoint call_all (fs : list Val) : M unit :=
  match fs with
  | [] => mret tt
  | f :: rest => mbind (e_call rec f []) (fun _ => call_all rest)
  end.

(** The cleanups of [n], latest registration first. *)
Definition run_cleanups (n : nat) : M unit :=
  fun st =>
    match node n st with
    | Some nd => call_all (rev (cleanups nd)) (upd n (with_cleanups []) st)
    | None => Ok tt st
    end.

Fixpoint dispose_all (cs : list nat) : M unit :=
  match cs with
  | [] => mret tt
  | c :: rest => mbind (e_dispose rec c) (fun _ => dispose_all rest)
  end.

Definition dispose_children (n : nat) : M unit :=
  fun st =>
    match node n st with
    | Some nd => dispose_all (children nd) (upd n (with_children []) st)
    | None => Ok tt st
    end.

Definition retire (n : nat) (st : State) : State :=
  set_pending (set_remove n (pending st))
    (upd n (with_disposed true) (detach_observers n (detach_sources n st))).

Definition dispose_node (n : nat) (disposeChildrenToo : bool) : M unit :=
  mbind (run_cleanups n) (fun _ =>
  mbind (modify (retire n)) (fun _ =>
  if disposeChildrenToo then dispose_children n else mret tt)).

(** What [e_dispose] does one level up: an owned computation that was
    disposed already is passed by. *)
Definition dispose_owned (n : nat) : M unit :=
  fun st =>
    match node n st with
    | Some nd => if disposed nd then Ok tt st else dispose_node n true st
    | None => Ok tt st
    end.

Definition dispose_op (n : nat) (disposeChildrenToo : bool) : M unit :=
  fun st =>
    match node n st with
    | Some nd =>
        if disposed nd then Throw DisposedAccessError st
        else dispose_node n disposeChildrenToo st
    | None => Throw TypeError st
    end.

(** Re-execution: the cleanups and the owned computations of the previous
    run go, the node leaves its sources, and [compute] runs with the node
    on top of the stack.  When [compute] throws, the value and the stale
    flag stay as they were. *)
Definition execute (n : nat) : M unit :=
  fun st =>
    let st1 := enter n st in
    match node n st1 ≫= compute with
    | Some f =>
        match e_call rec (VFun f) [] st1 with
        | Ok v st2 => Ok tt (leave n v (active st) st2)
        | Throw e st2 => Throw e (set_active (active st) st2)
        | OutOfFuel => OutOfFuel
        end
    | None => Ok tt st
    end.

Definition recompute (n : nat) : M unit :=
  mbind (run_cleanups n) (fun _ =>
  mbind (dispose_children n) (fun _ =>
  execute n)).

(** Bring [n] up to date without recording a dependency. *)
Definition update_node (n : nat) : M unit :=
  fun st =>
    match node n st with
    | Some nd =>
        if bool_decide (n ∈ active st) then Throw CyclicDependencyError st
        else if stale nd then recompute n st
        else Ok tt st
    | None => Throw TypeError st
    end.

Definition read_node (n : nat) : M Val :=
  fun st =>
    match node n st with
    | Some nd =>
        if disposed nd then Throw DisposedAccessError st
        else mbind (update_node n)
               (fun _ st1 => Ok (current_value n st1) (track n st1)) st
    | None => Throw TypeError st
    end.

(** One flush pass, unless one is in progress already. *)
Definition flush_pass : M unit :=
  fun st =>
    if flushing st then Ok tt st
    else match e_flush rec (set_flushing true st) with
         | Ok _ st' => Ok tt (set_flushing false st')
         | Throw e st' => Throw e (set_flushing false st')
         | OutOfFuel => OutOfFuel
         end.

(** A function is an updater and receives the previous value. *)
Definition new_value (n : nat) (v : Val) : M Val :=
  fun st =>
    if isFunction v then e_call rec v [current_value n st] st else Ok v st.

Definition changed (n : nat) (v : Val) : M bool :=
  fun st =>
    match node n st ≫= equals with
    | Some eq =>
        mbind (e_call rec (VFun eq) [current_value n st; v])
              (fun r => mret (negb (truthy r))) st
    | None => Ok (negb (js_eq v (current_value n st))) st
    end.

Definition write_node (n : nat) (v : Val) : M unit :=
  fun st =>
    match node n st with
    | Some nd =>
        if disposed nd then Throw DisposedAccessError st
        else
          mbind (new_value n v) (fun v' =>
          mbind (changed n v') (fun c =>
          if c
          then mbind (modify (fun s => notify n (upd n (with_value v') s)))
                     (fun _ => flush_pass)
          else mret tt)) st
    | None => Throw TypeError st
    end.

(** The scheduled effects, oldest first.  An effect that was disposed in
    the meantime is passed by; when one throws, the rest of the pass still
    runs and the first error is thrown at its end. *)
Definition flush_loop : M unit :=
  fun st =>
    match pending st with
    | [] => Ok tt st
    | e :: rest =>
        let st1 := set_pending rest st in
        let r := match node e st1 with
                 | Some nd => if disposed nd then Ok tt st1 else update_node e st1
                 | None => Ok tt st1
                 end in
        match r with
        | Ok _ st2 => e_flush rec st2
        | Throw err st2 =>
            match e_flush rec st2 with
            | Ok _ st3 => Throw err st3
            | Throw _ st3 => Throw err st3
            | OutOfFuel => OutOfFuel
            end
        | OutOfFuel => OutOfFuel
        end
    end.

Definition do_op {X : Type} (op : Op X) : M X :=
  match op in Op X return M X with
  | OCreateComputation initial compute options =>
      create_node true initial compute options
  | OSetEffect n => modify (upd n (with_isEffect true))
  | ORead n => read_node n
  | OWrite n v => write_node n v
  | ODispose n b => dispose_op n b
  | OOnDispose c => on_dispose c
  | OFlushSync => flush_pass
  | OCall f args => e_call rec f args
  | OThrow e => mthrow e
  | ONewObject fields =>
      fun st => Ok (VObj (next_addr st) fields) (bump_addr st)
  | ONewArray elems =>
      fun st => Ok (VArr (next_addr st) elems) (bump_addr st)
  | OCalledTimes c => fun st => Ok (called_times c st) st
  | OCreateDetached initial compute => create_node false initial compute None
  | OUpdate n => update_node n
  | OPeek n => fun st => Ok (current_value n st) st
  | ONewTable =>
      fun st => Ok (length (tables st)) (set_tables (fun ts => ts ++ [[]]) st)
  | OGetTable t => fun st => Ok (default [] (tables st !! t)) st
  | OPutTable t T => modify (set_tables (fun ts => <[t := T]> ts))
  end.

Fixpoint run {A : Type} (p : Prog A) : M A :=
  match p with
  | Ret a => mret a
  | Vis op k => mbind (do_op op) (fun x => run (k x))
  end.

(** Calling a function value; the call is logged. *)
Definition call_fn (f : Val) (args : list Val) : M Val :=
  fun st =>
    match f with
    | VFun fn => run (fn_body user fn args) (log_call fn args st)
    | _ => Throw TypeError st
    end.

Definition step : Engine :=
  {| e_call := call_fn; e_flush := flush_loop; e_dispose := dispose_owned |}.

End Operations.

Fixpoint engine (user : nat -> list Val -> list Val -> Prog Val) (fuel : nat)
  : Engine :=
  match fuel with
  | 0 => no_fuel
  | S fuel' => step user (engine user fuel')
  end.

Definition exec {A : Type} (user : nat -> list Val -> list Val -> Prog Val)
    (fuel : nat) (p : Prog A) : M A :=
  run (engine user fuel) p.

(** ** The client: tests/mapArray.test.ts *)

Definition expect (b : bool) : Prog unit :=
  if b then Ret tt else (throw AssertionError ;;; Ret tt).

Definition toBe (actual expected : Val) : Prog unit :=
  expect (js_eq actual expected).

(** The elements of an array value; anything else is not iterable. *)
Definition elems_of (v : Val) : Prog (list Val) :=
  match v with
  | VArr _ l => Ret l
  | _ => throw TypeError ;;; Ret []
  end.

Definition item (id : string) : Prog Val := newObject [("id", SData (VStr id))].

Definition num (n : nat) : Val := VNum (Z.of_nat n).

(** The functions of the two tests. *)
Definition c_computed : nat := 0.   (* const computed = vi.fn() *)
Definition c_mapFn : nat := 1.      (* (value, index) => { computed(); return {...} } *)
Definition c_getIndex : nat := 2.   (* get index() { return index(); } *)
Definition c_swap : nat := 3.       (* (p) => { swap p[0] and p[1]; return [...p] } *)
Definition c_append : nat := 4.     (* (p) => [...p, { id: 'd' }] *)
Definition c_slice : nat := 5.      (* (p) => p.slice(1) *)
Definition c_mapId : nat := 6.      (* (value) => { return { id: value.id } } *)
Definition c_effect : nat := 7.     (* vi.fn(() => map()) *)

Definition test_code (c : nat) (env args : list Val) : Prog Val :=
  match c with
  | 0 => Ret VUndef
  | 1 =>
      let value := nth 0 args VUndef in
      let index := nth 1 args VUndef in
      call (nth 0 env VUndef) [] ;;;
      id <- get value "id" ;;
      newObject [("id", SData id);
                 ("index", SGetter (FUser c_getIndex [index]))]
  | 2 => call (nth 0 env VUndef) []
  | 3 =>
      p <- elems_of (nth 0 args VUndef) ;;
      (* after tmp = p[1]; p[1] = p[0]; p[0] = tmp *)
      newArray (nth 1 p VUndef :: nth 0 p VUndef :: drop 2 p)
  | 4 =>
      p <- elems_of (nth 0 args VUndef) ;;
      d <- item "d" ;;
      newArray (p ++ [d])
  | 5 =>
      p <- elems_of (nth 0 args VUndef) ;;
      newArray (drop 1 p)
  | 6 =>
      id <- get (nth 0 args VUndef) "id" ;;
      newObject [("id", SData id)]
  | 7 => call (nth 0 env VUndef) []
  | _ => Ret VUndef
  end.

Section Tests.

(** Which mapper the tests import as [mapArray]. *)
Variable the_mapArray : Fn -> Fn -> option Fn -> Prog Fn.
Variable DEV : bool.

(** it('should compute keyed map'), up to the first count of calls. *)
Definition keyed_map_setup : Prog (Fn * Fn * (Val * Val * Val)) :=
  ia <- item "a" ;; ib <- item "b" ;; ic <- item "c" ;;
  arr <- newArray [ia; ib; ic] ;;
  signal <- createSignal arr None ;;
  let '(source, setSource) := signal in
  map <- the_mapArray source (FUser c_mapFn [VFun (FUser c_computed [])]) None ;;
  m <- call (VFun map) [] ;;
  l <- elems_of m ;;
  let a := nth 0 l VUndef in
  let b := nth 1 l VUndef in
  let c := nth 2 l VUndef in
  a_id <- get a "id" ;; toBe a_id (VStr "a") ;;;
  a_index <- get a "index" ;; toBe a_index (num 0) ;;;
  b_id <- get b "id" ;; toBe b_id (VStr "b") ;;;
  b_index <- get b "index" ;; toBe b_index (num 1) ;;;
  c_id <- get c "id" ;; toBe c_id (VStr "c") ;;;
  c_index <- get c "index" ;; toBe c_index (num 2) ;;;
  n <- calledTimes c_computed ;; expect (Nat.eqb (n) 3) ;;;
  Ret (map, setSource, (a, b, c)).

Definition keyed_map_test : Prog unit :=
  r <- keyed_map_setup ;;
  let '(map, setSource, (a, b, c)) := r in
  (* Move values around *)
  call (VFun setSource) [VFun (FUser c_swap [])] ;;;
  m <- call (VFun map) [] ;;
  l <- elems_of m ;;
  let a2 := nth 0 l VUndef in
  let b2 := nth 1 l VUndef in
  let c2 := nth 2 l VUndef in
  a2_id <- get a2 "id" ;; toBe a2_id (VStr "b") ;;;
  expect (js_eq a b2) ;;;
  a2_index <- get a2 "index" ;; toBe a2_index (num 0) ;;;
  b2_id <- get b2 "id" ;; toBe b2_id (VStr "a") ;;;
  b2_index <- get b2 "index" ;; toBe b2_index (num 1) ;;;
  expect (js_eq b a2) ;;;
  c2_id <- get c2 "id" ;; toBe c2_id (VStr "c") ;;;
  c2_index <- get c2 "index" ;; toBe c2_index (num 2) ;;;
  expect (js_eq c c2) ;;;
  n <- calledTimes c_computed ;; expect (Nat.eqb (n) 3) ;;;
  (* Add new value *)
  call (VFun setSource) [VFun (FUser c_append [])] ;;;
  m <- call (VFun map) [] ;; l <- elems_of m ;;
  expect (Nat.eqb (length l) 4) ;;;
  m <- call (VFun map) [] ;; l <- elems_of m ;;
  last_id <- get (nth (length l - 1) l VUndef) "id" ;;
  toBe last_id (VStr "d") ;;;
  m <- call (VFun map) [] ;; l <- elems_of m ;;
  last_index <- get (nth (length l - 1) l VUndef) "index" ;;
  toBe last_index (num 3) ;;;
  n <- calledTimes c_computed ;; expect (Nat.eqb (n) 4) ;;;
  (* Remove value *)
  call (VFun setSource) [VFun (FUser c_slice [])] ;;;
  m <- call (VFun map) [] ;; l <- elems_of m ;;
  expect (Nat.eqb (length l) 3) ;;;
  m <- call (VFun map) [] ;; l <- elems_of m ;;
  first_id <- get (nth 0 l VUndef) "id" ;;
  toBe first_id (VStr "a") ;;;
  m <- call (VFun map) [] ;; l <- elems_of m ;;
  expect (js_eq (nth 0 l VUndef) b2 && js_eq (nth 0 l VUndef) a) ;;;
  n <- calledTimes c_computed ;; expect (Nat.eqb (n) 4) ;;;
  (* Empty *)
  empty <- newArray [] ;;
  call (VFun setSource) [empty] ;;;
  m <- call (VFun map) [] ;; l <- elems_of m ;;
  expect (Nat.eqb (length l) 0) ;;;
  n <- calledTimes c_computed ;; expect (Nat.eqb (n) 4).

(** it('should notify observer'); [withFlush] says whether the call of
    [flushSync] is made. *)
Definition notify_observer_test (withFlush : bool) : Prog unit :=
  ia <- item "a" ;; ib <- item "b" ;; ic <- item "c" ;;
  arr <- newArray [ia; ib; ic] ;;
  signal <- createSignal arr None ;;
  let '(source, setSource) := signal in
  map <- the_mapArray source (FUser c_mapId []) None ;;
  let effect := FUser c_effect [VFun map] in
  createEffect DEV effect None ;;;
  call (VFun setSource) [VFun (FUser c_slice [])] ;;;
  (if withFlush then flushSync else Ret tt) ;;;
  n <- calledTimes c_effect ;; expect (Nat.eqb (n) 2).

End Tests.

Definition run_test (p : Prog unit) : Res unit := exec test_code 12 p empty_state.

Definition passes (p : Prog unit) : bool :=
  match run_test p with Ok _ _ => true | _ => false end.

Definition fails_with (e : Error) (p : Prog unit) : bool :=
  match run_test p, e with
  | Throw AssertionError _, AssertionError => true
  | Throw TypeError _, TypeError => true
  | Throw DisposedAccessError _, DisposedAccessError => true
  | Throw CyclicDependencyError _, CyclicDependencyError => true
  | _, _ => false
  end.


(** ** Observations on a state *)

Definition field_of {A : Type} (p : Node -> A) (d : A) (n : nat) (st : State) : A :=
  default d (p <$> node n st).

Definition is_disposed : nat -> State -> bool := field_of disposed false.
Definition is_stale : nat -> State -> bool := field_of stale false.
Definition runs_of : nat -> State -> nat := field_of runs 0.
Definition children_of : nat -> State -> list nat := field_of children [].
Definition cleanups_of : nat -> State -> list Val := field_of cleanups [].
Definition observers_of : nat -> State -> list nat := field_of observers [].
Definition sources_of : nat -> State -> list nat := field_of sources [].
Definition compute_of : nat -> State -> option Fn := field_of compute None.

(** A projection that does not look at the given field. *)
Definition blind_sources {A : Type} (p : Node -> A) : Prop :=
  forall l nd, p (with_sources l nd) = p nd.
Definition blind_observers {A : Type} (p : Node -> A) : Prop :=
  forall l nd, p (with_observers l nd) = p nd.
Definition blind_stale {A : Type} (p : Node -> A) : Prop :=
  forall b nd, p (with_stale b nd) = p nd.

(** A well-formed stack names nodes of the arena only. *)
Definition stack_ok (st : State) : Prop :=
  forall x, x ∈ active st -> x < length (nodes st).

(** Outside a flush pass no effect is waiting. *)
Definition settled (st : State) : Prop :=
  flushing st = false -> pending st = [].

(** *** Facts about the state updates *)

Lemma node_upd (n m : nat) (f : Node -> Node) (st : State) :
  node m (upd n f st) = if decide (n = m) then f <$> node m st else node m st.
Proof.
  unfold node, upd; cbn. rewrite list_lookup_alter.
  destruct (decide (n = m)); subst; done.
Qed.

Lemma node_upd_eq (n : nat) (f : Node -> Node) (st : State) :
  node n (upd n f st) = f <$> node n st.
Proof. rewrite node_upd. destruct (decide (n = n)); done. Qed.

Lemma node_upd_ne (n m : nat) (f : Node -> Node) (st : State) :
  n ≠ m -> node m (upd n f st) = node m st.
Proof. intros H. rewrite node_upd. destruct (decide (n = m)); done. Qed.

Lemma length_upd (n : nat) (f : Node -> Node) (st : State) :
  length (nodes (upd n f st)) = length (nodes st).
Proof. unfold upd; cbn. apply length_alter. Qed.

Lemma upd_keeps {A : Type} (p : Node -> A) (n : nat) (f : Node -> Node) (st : State) :
  (forall nd, p (f nd) = p nd) ->
  forall m, p <$> node m (upd n f st) = p <$> node m st.
Proof.
  intros H m. rewrite node_upd. destruct (decide (n = m)); [|done].
  destruct (node m st); cbn; [by rewrite H|done].
Qed.

Lemma upd_same (n : nat) (f : Node -> Node) (st : State) :
  (forall nd, node n st = Some nd -> f nd = nd) -> upd n f st = st.
Proof.
  intros H. destruct st as [ns a p fl t na c]; unfold upd, set_nodes; cbn in *.
  f_equal. unfold node in H; cbn in H.
  apply list_eq; intros i. rewrite list_lookup_alter.
  destruct (decide (n = i)); subst; [|done].
  destruct (ns !! i) eqn:E; cbn; [by rewrite H|done].
Qed.

(** Folding updates over a list of nodes keeps what each update keeps. *)
Lemma fold_upd_keeps {A : Type} (p : Node -> A) (g : nat -> nat -> Node -> Node)
    (n : nat) (l : list nat) (st : State) :
  (forall x nd, p (g n x nd) = p nd) ->
  forall m, p <$> node m (fold_left (fun s x => upd x (g n x) s) l st) = p <$> node m st.
Proof.
  intros H. revert st. induction l as [|x l IH]; intros st m; cbn; [done|].
  rewrite IH. by apply upd_keeps.
Qed.

Lemma fold_upd_frame (g : nat -> nat -> Node -> Node) (n : nat) (l : list nat)
    (st : State) :
  let st' := fold_left (fun s x => upd x (g n x) s) l st in
  active st' = active st /\ pending st' = pending st /\ flushing st' = flushing st /\
  tables st' = tables st /\ next_addr st' = next_addr st /\ calls st' = calls st /\
  length (nodes st') = length (nodes st).
Proof.
  revert st. induction l as [|x l IH]; intros st; cbn; [done|].
  destruct (IH (upd x (g n x) st)) as (?&?&?&?&?&?&Hl).
  rewrite length_upd in Hl. done.
Qed.

Lemma detach_sources_keeps {A : Type} (p : Node -> A) (n : nat) (st : State) :
  blind_sources p -> blind_observers p ->
  forall m, p <$> node m (detach_sources n st) = p <$> node m st.
Proof.
  intros Hs Ho m. unfold detach_sources. destruct (node n st) as [nd|]; [|done].
  rewrite upd_keeps by (intros; apply Hs).
  apply (fold_upd_keeps p (fun n _ x => with_observers (set_remove n (observers x)) x)).
  intros; apply Ho.
Qed.

Lemma detach_sources_frame (n : nat) (st : State) :
  let st' := detach_sources n st in
  active st' = active st /\ pending st' = pending st /\ flushing st' = flushing st /\
  tables st' = tables st /\ next_addr st' = next_addr st /\ calls st' = calls st /\
  length (nodes st') = length (nodes st).
Proof.
  unfold detach_sources. destruct (node n st) as [nd|]; [|done].
  cbn. rewrite length_alter.
  apply (fold_upd_frame (fun n _ x => with_observers (set_remove n (observers x)) x)).
Qed.

Lemma detach_observers_keeps {A : Type} (p : Node -> A) (n : nat) (st : State) :
  blind_sources p -> blind_observers p ->
  forall m, p <$> node m (detach_observers n st) = p <$> node m st.
Proof.
  intros Hs Ho m. unfold detach_observers. destruct (node n st) as [nd|]; [|done].
  rewrite upd_keeps by (intros; apply Ho).
  apply (fold_upd_keeps p (fun n _ x => with_sources (set_remove n (sources x)) x)).
  intros; apply Hs.
Qed.

Lemma detach_observers_frame (n : nat) (st : State) :
  let st' := detach_observers n st in
  active st' = active st /\ pending st' = pending st /\ flushing st' = flushing st /\
  tables st' = tables st /\ next_addr st' = next_addr st /\ calls st' = calls st /\
  length (nodes st') = length (nodes st).
Proof.
  unfold detach_observers. destruct (node n st) as [nd|]; [|done].
  cbn. rewrite length_alter.
  apply (fold_upd_frame (fun n _ x => with_sources (set_remove n (sources x)) x)).
Qed.

Lemma track_keeps {A : Type} (p : Node -> A) (n : nat) (st : State) :
  blind_sources p -> blind_observers p ->
  forall m, p <$> node m (track n st) = p <$> node m st.
Proof.
  intros Hs Ho m. unfold track. destruct (active st) as [|top ?]; [done|].
  rewrite upd_keeps by (intros; apply Hs).
  apply upd_keeps. intros; apply Ho.
Qed.

Lemma track_frame (n : nat) (st : State) :
  let st' := track n st in
  active st' = active st /\ pending st' = pending st /\ flushing st' = flushing st /\
  tables st' = tables st /\ next_addr st' = next_addr st /\ calls st' = calls st /\
  length (nodes st') = length (nodes st).
Proof.
  unfold track. destruct (active st) as [|top ?] eqn:E; cbn;
    rewrite ?length_alter, ?E; done.
Qed.

(** Marking changes stale flags and appends to the queue, nothing else. *)
Definition marks (st st' : State) : Prop :=
  active st' = active st /\ flushing st' = flushing st /\
  tables st' = tables st /\ next_addr st' = next_addr st /\ calls st' = calls st /\
  (forall m, with_stale false <$> node m st' = with_stale false <$> node m st) /\
  (exists l, pending st' = pending st ++ l) /\
  (forall m, is_stale m st = true -> is_stale m st' = true).

Lemma marks_refl (st : State) : marks st st.
Proof.
  unfold marks. split_and!; try done. exists []. by rewrite app_nil_r.
Qed.

Lemma marks_trans (a b c : State) : marks a b -> marks b c -> marks a c.
Proof.
  intros (A1&A2&A3&A4&A5&A6&[l1 A7]&A8) (B1&B2&B3&B4&B5&B6&[l2 B7]&B8).
  unfold marks.
  split_and!; [congruence|congruence|congruence|congruence|congruence| | |auto].
  - intros m. by rewrite B6, A6.
  - exists (l1 ++ l2). by rewrite B7, A7, app_assoc.
Qed.

Lemma marks_stale (n : nat) (st : State) : marks st (upd n (with_stale true) st).
Proof.
  unfold marks; cbn. split_and!; [done|done|done|done|done| | |].
  - intros m. rewrite node_upd. destruct (decide (n = m)); [|done].
    by destruct (node m st).
  - exists []. by rewrite app_nil_r.
  - intros m. unfold is_stale, field_of. rewrite node_upd.
    destruct (decide (n = m)); [|done]. by destruct (node m st).
Qed.

Lemma marks_enqueue (n : nat) (st : State) :
  marks st (set_pending (pending st ++ [n]) st).
Proof.
  unfold marks; cbn. split_and!; try done. by exists [n].
Qed.

Lemma mark_one_marks (next : list nat) (st : State) (n : nat) :
  marks st (snd (mark_one (next, st) n)).
Proof.
  unfold mark_one. destruct (node n st) as [nd|]; [|apply marks_refl].
  destruct (stale nd || disposed nd || negb (bool_decide (is_Some (compute nd))));
    [apply marks_refl|].
  cbn. destruct (isEffect nd); cbn.
  - eapply marks_trans; [apply marks_stale|].
    apply (marks_enqueue n (upd n (with_stale true) st)).
  - apply marks_stale.
Qed.

Lemma fold_mark_one_marks (l : list nat) (acc : list nat * State) :
  marks (snd acc) (snd (fold_left mark_one l acc)).
Proof.
  revert acc. induction l as [|x l IH]; intros acc; [apply marks_refl|].
  cbn [fold_left]. eapply marks_trans; [|apply IH].
  destruct acc as [next st]. apply mark_one_marks.
Qed.

Lemma mark_levels_marks (fuel : nat) (frontier : list nat) (st : State) :
  marks st (mark_levels fuel frontier st).
Proof.
  revert frontier st. induction fuel as [|fuel IH]; intros frontier st.
  - destruct frontier; apply marks_refl.
  - destruct frontier as [|x l]; [apply marks_refl|].
    cbn [mark_levels].
    pose proof (fold_mark_one_marks (x :: l) ([], st)) as H.
    destruct (fold_left mark_one (x :: l) ([], st)) as [next st'].
    eapply marks_trans; [apply H|apply IH].
Qed.

Lemma notify_marks (n : nat) (st : State) : marks st (notify n st).
Proof.
  unfold notify. destruct (node n st); [apply mark_levels_marks|apply marks_refl].
Qed.

Lemma marks_keeps {A : Type} (p : Node -> A) (st st' : State) :
  marks st st' -> blind_stale p ->
  forall m, p <$> node m st' = p <$> node m st.
Proof.
  intros (_&_&_&_&_&H&_) Hp m. specialize (H m).
  destruct (node m st') as [x|], (node m st) as [y|]; cbn in *; try done.
  pose proof (f_equal (from_option p (p x)) H) as E; cbn in E.
  rewrite !Hp in E. by f_equal.
Qed.

Lemma same_domain_length (st st' : State) :
  (forall m, is_Some (node m st') <-> is_Some (node m st)) ->
  length (nodes st') = length (nodes st).
Proof.
  intros Hi. unfold node in Hi.
  destruct (Nat.lt_trichotomy (length (nodes st')) (length (nodes st))) as [H|[H|H]];
    [|done|].
  - destruct (Hi (length (nodes st'))) as [_ Hb].
    specialize (Hb ltac:(by apply lookup_lt_is_Some)).
    apply lookup_lt_is_Some in Hb. lia.
  - destruct (Hi (length (nodes st))) as [Ha _].
    specialize (Ha ltac:(by apply lookup_lt_is_Some)).
    apply lookup_lt_is_Some in Ha. lia.
Qed.

Lemma marks_length (st st' : State) :
  marks st st' -> length (nodes st') = length (nodes st).
Proof.
  intros (_&_&_&_&_&H&_). apply same_domain_length. intros m. specialize (H m).
  destruct (node m st'), (node m st); cbn in H; try done; split; by eauto.
Qed.

(** What creating a node does. *)
Lemma create_node_spec (owned : bool) (initial : Val) (compute : option Fn)
    (options : option Options) (st : State) :
  exists st',
    create_node owned initial compute options st = Ok (length (nodes st)) st' /\
    length (nodes st') = S (length (nodes st)) /\
    active st' = active st /\ pending st' = pending st /\
    flushing st' = flushing st /\ tables st' = tables st /\
    next_addr st' = next_addr st /\ calls st' = calls st /\
    (forall A (p : Node -> A), (forall l nd, p (with_children l nd) = p nd) ->
       (forall m, m < length (nodes st) -> p <$> node m st' = p <$> node m st) /\
       p <$> node (length (nodes st)) st'
         = Some (p (new_node initial compute options))) /\
    (forall m, m < length (nodes st) -> owned = false \/ head (active st) ≠ Some m ->
       node m st' = node m st) /\
    (owned = false \/ head (active st) ≠ Some (length (nodes st)) ->
       node (length (nodes st)) st' = Some (new_node initial compute options)).
Proof.
  unfold create_node. eexists; split; [reflexivity|].
  set (n := length (nodes st)).
  set (st1 := set_nodes _ st).
  assert (H1 : node n st1 = Some (new_node initial compute options)).
  { unfold node, st1, n; cbn. rewrite lookup_app_r by lia.
    by rewrite Nat.sub_diag. }
  assert (H2 : forall m, m < n -> node m st1 = node m st).
  { intros m Hm. unfold node, st1; cbn. by rewrite lookup_app_l. }
  assert (H3 : length (nodes st1) = S n).
  { unfold st1, n; cbn. rewrite length_app; cbn; lia. }
  assert (Hx : forall top, let st' := upd top (fun x => with_children (children x ++ [n]) x) st1 in
     length (nodes st') = S n /\
     active st' = active st /\ pending st' = pending st /\
     flushing st' = flushing st /\ tables st' = tables st /\
     next_addr st' = next_addr st /\ calls st' = calls st /\
     (forall A (p : Node -> A), (forall l nd, p (with_children l nd) = p nd) ->
       (forall m, m < n -> p <$> node m st' = p <$> node m st) /\
       p <$> node n st' = Some (p (new_node initial compute options))) /\
     (forall m, m ≠ top -> node m st' = node m st1)).
  { intros top st'. unfold st'. rewrite length_upd. split_and!; try done.
    - intros A p Hp. split.
      + intros m Hm. rewrite upd_keeps by (intros; apply Hp). by rewrite H2.
      + rewrite upd_keeps by (intros; apply Hp). by rewrite H1.
    - intros m Hm. by apply node_upd_ne. }
  destruct owned; [destruct (active st) as [|top rest] eqn:Ea|].
  - split_and!; try done.
    + intros A p Hp. split; [intros m Hm; by rewrite H2|by rewrite H1].
    + intros m Hm _. by apply H2.
  - destruct (Hx top) as (?&?&?&?&?&?&?&?&Hne). split_and!; try done.
    + intros m Hm [|Hh]; [done|]. rewrite Hne; [by apply H2|]. cbn in Hh. congruence.
    + intros [|Hh]; [done|]. rewrite Hne; [done|]. cbn in Hh. congruence.
  - split_and!; try done.
    + intros A p Hp. split; [intros m Hm; by rewrite H2|by rewrite H1].
    + intros m Hm _. by apply H2.
Qed.

(** ** What every operation leaves in place

    [base st st']: the stack and the flushing flag are as before, no node
    went away, and what was disposed stays disposed. *)
Definition base (st st' : State) : Prop :=
  active st' = active st /\
  flushing st' = flushing st /\
  length (nodes st) <= length (nodes st') /\
  (forall c, is_disposed c st = true -> is_disposed c st' = true).

Lemma base_refl (st : State) : base st st.
Proof. unfold base. split_and!; [done|done|lia|auto]. Qed.

Lemma base_trans (a b c : State) : base a b -> base b c -> base a c.
Proof.
  intros (A1&A2&A3&A4) (B1&B2&B3&B4). unfold base.
  split_and!; [congruence|congruence|lia|auto].
Qed.

Lemma field_of_keeps {A : Type} (p : Node -> A) (d : A) (m : nat) (st st' : State) :
  p <$> node m st' = p <$> node m st -> field_of p d m st' = field_of p d m st.
Proof. unfold field_of. by intros ->. Qed.

(** A step that keeps the stack, the flag, the arena's size and the
    disposed flags. *)
Lemma base_of_keeps (st st' : State) :
  active st' = active st -> flushing st' = flushing st ->
  length (nodes st') = length (nodes st) ->
  (forall m, disposed <$> node m st' = disposed <$> node m st) ->
  base st st'.
Proof.
  intros H1 H2 H3 H4. unfold base. split_and!; [done|done|lia|].
  intros c. unfold is_disposed. by rewrite (field_of_keeps _ _ _ _ _ (H4 c)).
Qed.

Lemma base_upd (n : nat) (f : Node -> Node) (st : State) :
  (forall nd, disposed (f nd) = disposed nd) -> base st (upd n f st).
Proof.
  intros H. apply base_of_keeps; [done|done|apply length_upd|].
  intros m. by apply upd_keeps.
Qed.

Lemma base_track (n : nat) (st : State) : base st (track n st).
Proof.
  destruct (track_frame n st) as (?&?&?&?&?&?&?).
  apply base_of_keeps; try done. by apply track_keeps.
Qed.

Lemma base_detach_sources (n : nat) (st : State) : base st (detach_sources n st).
Proof.
  destruct (detach_sources_frame n st) as (?&?&?&?&?&?&?).
  apply base_of_keeps; try done. by apply detach_sources_keeps.
Qed.

Lemma base_detach_observers (n : nat) (st : State) : base st (detach_observers n st).
Proof.
  destruct (detach_observers_frame n st) as (?&?&?&?&?&?&?).
  apply base_of_keeps; try done. by apply detach_observers_keeps.
Qed.

Lemma base_marks (st st' : State) : marks st st' -> base st st'.
Proof.
  intros H. pose proof (marks_length _ _ H). pose proof (marks_keeps disposed _ _ H).
  destruct H as (?&?&_). apply base_of_keeps; try done. by apply H1.
Qed.

Lemma is_disposed_upd_true (n c : nat) (st : State) :
  is_disposed c st = true -> is_disposed c (upd n (with_disposed true) st) = true.
Proof.
  unfold is_disposed, field_of. rewrite node_upd.
  destruct (decide (n = c)); [|done]. by destruct (node c st).
Qed.

Lemma base_retire (n : nat) (st : State) : base st (retire n st).
Proof.
  unfold retire.
  eapply base_trans; [apply (base_detach_sources n)|].
  eapply base_trans; [apply (base_detach_observers n)|].
  set (s := detach_observers n (detach_sources n st)).
  unfold base; cbn. rewrite length_alter. split_and!; [done|done|lia|].
  intros c. apply (is_disposed_upd_true n c s).
Qed.

Lemma is_disposed_retire (n : nat) (st : State) :
  n < length (nodes st) -> is_disposed n (retire n st) = true.
Proof.
  intros Hn. unfold retire, is_disposed, field_of, node; cbn.
  rewrite list_lookup_alter_eq.
  destruct (detach_sources_frame n st) as (_&_&_&_&_&_&L1).
  destruct (detach_observers_frame n (detach_sources n st)) as (_&_&_&_&_&_&L2).
  destruct (nodes (detach_observers n (detach_sources n st)) !! n) eqn:E; [done|].
  apply lookup_ge_None in E. lia.
Qed.

Lemma base_create (owned : bool) (initial : Val) (compute : option Fn)
    (options : option Options) (st : State) (n : nat) (st' : State) :
  create_node owned initial compute options st = Ok n st' -> base st st'.
Proof.
  destruct (create_node_spec owned initial compute options st)
    as (s&E&L&A&_&F&_&_&_&K&_).
  rewrite E. intros [= <- <-]. unfold base. split_and!; [done|done|lia|].
  intros c Hc. unfold is_disposed in *.
  destruct (decide (c < length (nodes st))) as [Hlt|Hge].
  - destruct (K _ disposed ltac:(done)) as [K1 _].
    by rewrite (field_of_keeps _ _ _ _ _ (K1 c Hlt)).
  - unfold field_of, node in Hc. rewrite lookup_ge_None_2 in Hc by lia. done.
Qed.

Lemma base_on_dispose (c : Val) (st st' : State) :
  on_dispose c st = Ok tt st' -> base st st'.
Proof.
  unfold on_dispose. destruct (active st) as [|top ?] eqn:E; intros [= <-];
    [apply base_refl|by apply base_upd].
Qed.

Lemma base_enter_leave (n : nat) (v : Val) (st st2 : State) :
  base (enter n st) st2 -> base st (leave n v (active st) st2).
Proof.
  intros (B1&B2&B3&B4).
  destruct (base_detach_sources n st) as (D1&D2&D3&D4).
  unfold base, leave, enter in *; cbn in *. rewrite !length_alter in *.
  split_and!; [done|congruence|lia|].
  intros c Hc.
  assert (H : is_disposed c st2 = true).
  { apply B4. apply D4 in Hc. revert Hc. unfold is_disposed.
    set (s := detach_sources n st).
    change (set_active (n :: active st) (upd n with_run s)) with
      (set_active (n :: active st) (upd n with_run s)).
    intros Hc. erewrite field_of_keeps; [exact Hc|].
    apply (upd_keeps disposed n with_run s). done. }
  revert H. unfold is_disposed. intros H. erewrite field_of_keeps; [exact H|].
  apply (upd_keeps disposed n _ (set_active (active st) st2)). done.
Qed.

Lemma base_assign (n : nat) (v : Val) (st : State) :
  base st (notify n (upd n (with_value v) st)).
Proof.
  eapply base_trans; [apply (base_upd n (with_value v)); done|].
  apply base_marks, notify_marks.
Qed.

(** ** A rule for invariants of the engine

    A relation [R] between the state before and after that every primitive
    state update respects is respected by every operation that returns, at
    every fuel; [RF] plays the same role for the flush loop. *)

(** What the primitive state updates have to respect. *)
Record respected (R RF : State -> State -> Prop) : Prop := mkRespected {
  r_refl : forall st, R st st;
  r_trans : forall a b c, R a b -> R b c -> R a c;
  r_create : forall owned initial compute options st n st',
    create_node owned initial compute options st = Ok n st' -> R st st';
  r_effect : forall n st, R st (upd n (with_isEffect true) st);
  r_on_dispose : forall c st st', on_dispose c st = Ok tt st' -> R st st';
  r_track : forall n st, R st (track n st);
  r_cleanups : forall n st, R st (upd n (with_cleanups []) st);
  r_children : forall n st st',
    R (upd n (with_children []) st) st' ->
    base (upd n (with_children []) st) st' ->
    (forall c, c ∈ children_of n st -> c < length (nodes st) ->
               is_disposed c st' = true) ->
    R st st';
  r_retire : forall n st, R st (retire n st);
  r_execute : forall n v st st2,
    n ∉ active st -> R (enter n st) st2 -> base (enter n st) st2 ->
    R st (leave n v (active st) st2);
  r_assign : forall n v st, R st (notify n (upd n (with_value v) st));
  r_flush : forall st st',
    flushing st = false -> RF (set_flushing true st) st' ->
    base (set_flushing true st) st' -> R st (set_flushing false st');
  rf_done : forall st, pending st = [] -> RF st st;
  rf_next : forall e rest st st2 st3,
    pending st = e :: rest -> R (set_pending rest st) st2 -> RF st2 st3 ->
    RF st st3;
  r_alloc : forall st, R st (bump_addr st);
  r_tables : forall f st, R st (set_tables f st);
  r_log : forall f args st, R st (log_call f args st)
}.

Section Frame.

Variable user : nat -> list Val -> list Val -> Prog Val.
Variables R RF : State -> State -> Prop.
Hypothesis HR : respected R RF.

Let R_refl := r_refl R RF HR.
Let R_trans := r_trans R RF HR.
Let R_create := r_create R RF HR.
Let R_effect := r_effect R RF HR.
Let R_on_dispose := r_on_dispose R RF HR.
Let R_track := r_track R RF HR.
Let R_cleanups := r_cleanups R RF HR.
Let R_children := r_children R RF HR.
Let R_retire := r_retire R RF HR.
Let R_execute := r_execute R RF HR.
Let R_assign := r_assign R RF HR.
Let R_flush := r_flush R RF HR.
Let RF_done := rf_done R RF HR.
Let RF_next := rf_next R RF HR.
Let R_alloc := r_alloc R RF HR.
Let R_tables := r_tables R RF HR.
Let R_log := r_log R RF HR.

Definition good {A : Type} (m : M A) : Prop :=
  forall st a st', m st = Ok a st' -> R st st' /\ base st st'.

Definition engine_ok (rec : Engine) : Prop :=
  (forall f args, good (e_call rec f args)) /\
  (forall st st', e_flush rec st = Ok tt st' -> RF st st' /\ base st st') /\
  (forall n st st', e_dispose rec n st = Ok tt st' ->
     (R st st' /\ base st st') /\
     (n < length (nodes st) -> is_disposed n st' = true)).

Lemma good_ret {A : Type} (a : A) : good (mret a).
Proof. intros st x st' [= <- <-]. split; [apply R_refl|apply base_refl]. Qed.

Lemma good_bind {A B : Type} (m : M A) (f : A -> M B) :
  good m -> (forall a, good (f a)) -> good (mbind m f).
Proof.
  intros Hm Hf st b st'. unfold mbind.
  destruct (m st) as [a st1| |] eqn:E; [|done|done].
  intros H. destruct (Hm _ _ _ E), (Hf a _ _ _ H).
  split; [by eapply R_trans|by eapply base_trans].
Qed.

Lemma good_modify (f : State -> State) :
  (forall st, R st (f st) /\ base st (f st)) -> good (modify f).
Proof. intros H st [] st' [= <-]. apply H. Qed.

Lemma good_throw {A : Type} (e : Error) : good (@mthrow A e).
Proof. intros st a st'. done. Qed.

Section Level.

Variable rec : Engine.
Hypothesis Hrec : engine_ok rec.

Lemma call_all_good (fs : list Val) : good (call_all rec fs).
Proof.
  induction fs as [|f fs IH]; cbn; [apply good_ret|].
  apply good_bind; [apply Hrec|done].
Qed.

Lemma run_cleanups_good (n : nat) : good (run_cleanups rec n).
Proof.
  intros st a st'. unfold run_cleanups.
  destruct (node n st) as [nd|]; [|by apply (good_ret tt)].
  intros H. apply call_all_good in H as [H1 H2].
  split; [eapply R_trans; [apply R_cleanups|done]|].
  eapply base_trans; [|done]. by apply base_upd.
Qed.

Lemma dispose_all_good (cs : list nat) (st st' : State) :
  dispose_all rec cs st = Ok tt st' ->
  (R st st' /\ base st st') /\
  (forall c, c ∈ cs -> c < length (nodes st) -> is_disposed c st' = true).
Proof.
  revert st. induction cs as [|c cs IH]; intros st; cbn.
  - intros [= <-]. split; [split; [apply R_refl|apply base_refl]|].
    intros c Hc. by apply elem_of_nil in Hc.
  - unfold mbind. destruct (e_dispose rec c st) as [[] st1| |] eqn:E; [|done|done].
    intros H. destruct Hrec as (_&_&Hd).
    destruct (Hd _ _ _ E) as [[R1 B1] D1], (IH _ H) as [[R2 B2] D2].
    split; [split; [by eapply R_trans|by eapply base_trans]|].
    intros x Hx Hlt. apply elem_of_cons in Hx as [->|Hx].
    + destruct B2 as (_&_&_&B2). apply B2. by apply D1.
    + apply D2; [done|]. destruct B1 as (_&_&?&_). lia.
Qed.

Lemma dispose_children_good (n : nat) : good (dispose_children rec n).
Proof.
  intros st a st'. unfold dispose_children.
  destruct (node n st) as [nd|] eqn:En; [|by apply (good_ret tt)].
  destruct a. intros H. apply dispose_all_good in H as [[R1 B1] D].
  assert (B0 : base st (upd n (with_children []) st)) by (by apply base_upd).
  split; [|by eapply base_trans].
  apply (R_children n); [done|done|].
  intros c Hc Hlt. apply D.
  - unfold children_of, field_of in Hc. by rewrite En in Hc.
  - by rewrite length_upd.
Qed.

Lemma retire_good (n : nat) : good (modify (retire n)).
Proof. apply good_modify. intros st. split; [apply R_retire|apply base_retire]. Qed.

Lemma dispose_node_good (n : nat) (b : bool) : good (dispose_node rec n b).
Proof.
  unfold dispose_node.
  apply good_bind; [apply run_cleanups_good|intros _].
  apply good_bind; [apply retire_good|intros _].
  destruct b; [apply dispose_children_good|apply good_ret].
Qed.

Lemma dispose_node_disposes (n : nat) (b : bool) (st st' : State) :
  dispose_node rec n b st = Ok tt st' ->
  n < length (nodes st) -> is_disposed n st' = true.
Proof.
  unfold dispose_node, mbind, modify.
  destruct (run_cleanups rec n st) as [[] st1| |] eqn:E1; [|done|done].
  intros H Hn.
  destruct (run_cleanups_good n _ _ _ E1) as [_ (_&_&L1&_)].
  assert (D : is_disposed n (retire n st1) = true)
    by (apply is_disposed_retire; lia).
  destruct b; [|by injection H as <-].
  destruct (dispose_children_good n _ _ _ H) as [_ (_&_&_&K)]. by apply K.
Qed.

Lemma dispose_owned_good (n : nat) (st st' : State) :
  dispose_owned rec n st = Ok tt st' ->
  (R st st' /\ base st st') /\
  (n < length (nodes st) -> is_disposed n st' = true).
Proof.
  unfold dispose_owned. destruct (node n st) as [nd|] eqn:En.
  - destruct (disposed nd) eqn:Ed.
    + intros [= <-]. split; [split; [apply R_refl|apply base_refl]|].
      intros _. unfold is_disposed, field_of. by rewrite En.
    + intros H. split; [by apply (dispose_node_good n true) in H|].
      intros Hn. by eapply dispose_node_disposes.
  - intros [= <-]. split; [split; [apply R_refl|apply base_refl]|].
    intros Hn. apply lookup_ge_None_1 in En. lia.
Qed.

Lemma dispose_op_good (n : nat) (b : bool) : good (dispose_op rec n b).
Proof.
  intros st a st'. unfold dispose_op. destruct (node n st) as [nd|]; [|done].
  destruct (disposed nd); [done|]. apply dispose_node_good.
Qed.

Lemma execute_good (n : nat) (st st' : State) :
  n ∉ active st -> execute rec n st = Ok tt st' -> R st st' /\ base st st'.
Proof.
  intros Hn. unfold execute.
  destruct (node n (enter n st) ≫= compute) as [f|];
    [|intros [= <-]; split; [apply R_refl|apply base_refl]].
  destruct (e_call rec (VFun f) [] (enter n st)) as [v st2| |] eqn:E; [|done|done].
  intros [= <-]. destruct Hrec as (Hc&_&_). destruct (Hc _ _ _ _ _ E) as [R1 B1].
  split; [by apply R_execute|by apply base_enter_leave].
Qed.

Lemma recompute_good (n : nat) (st st' : State) :
  n ∉ active st -> recompute rec n st = Ok tt st' -> R st st' /\ base st st'.
Proof.
  intros Hn. unfold recompute, mbind.
  destruct (run_cleanups rec n st) as [[] st1| |] eqn:E1; [|done|done].
  destruct (dispose_children rec n st1) as [[] st2| |] eqn:E2; [|done|done].
  intros E3.
  destruct (run_cleanups_good _ _ _ _ E1) as [R1 B1].
  destruct (dispose_children_good _ _ _ _ E2) as [R2 B2].
  assert (Hn2 : n ∉ active st2).
  { destruct B1 as (A1&_), B2 as (A2&_). by rewrite A2, A1. }
  destruct (execute_good _ _ _ Hn2 E3) as [R3 B3].
  split; [eapply R_trans; [|done]; by eapply R_trans
         |eapply base_trans; [|done]; by eapply base_trans].
Qed.

Lemma update_node_good (n : nat) : good (update_node rec n).
Proof.
  intros st [] st'. unfold update_node. destruct (node n st) as [nd|]; [|done].
  destruct (bool_decide (n ∈ active st)) eqn:Ea; [done|].
  apply bool_decide_eq_false in Ea.
  destruct (stale nd); [by apply recompute_good|].
  intros [= <-]. split; [apply R_refl|apply base_refl].
Qed.

Lemma read_node_good (n : nat) : good (read_node rec n).
Proof.
  intros st a st'. unfold read_node. destruct (node n st) as [nd|]; [|done].
  destruct (disposed nd); [done|].
  apply (good_bind (update_node rec n)); [apply update_node_good|].
  intros _ s v s' [= <- <-]. split; [apply R_track|apply base_track].
Qed.

Lemma flush_pass_good : good (flush_pass rec).
Proof.
  intros st [] st'. unfold flush_pass. destruct (flushing st) eqn:Ef.
  - intros [= <-]. split; [apply R_refl|apply base_refl].
  - destruct (e_flush rec (set_flushing true st)) as [[] st1| |] eqn:E; [|done|done].
    intros [= <-]. destruct Hrec as (_&Hf&_). destruct (Hf _ _ E) as [F1 B1].
    split; [by apply R_flush|].
    destruct B1 as (B1&B2&B3&B4). unfold base; cbn in *. by split_and!.
Qed.

Lemma new_value_good (n : nat) (v : Val) : good (new_value rec n v).
Proof.
  intros st a st'. unfold new_value. destruct (isFunction v).
  - apply Hrec.
  - intros [= <- <-]. split; [apply R_refl|apply base_refl].
Qed.

Lemma changed_good (n : nat) (v : Val) : good (changed rec n v).
Proof.
  intros st a st'. unfold changed. destruct (node n st ≫= equals) as [eq|].
  - apply good_bind; [apply Hrec|intros; apply good_ret].
  - intros [= <- <-]. split; [apply R_refl|apply base_refl].
Qed.

Lemma write_node_good (n : nat) (v : Val) : good (write_node rec n v).
Proof.
  intros st a st'. unfold write_node. destruct (node n st) as [nd|]; [|done].
  destruct (disposed nd); [done|].
  apply good_bind; [apply new_value_good|intros v'].
  apply good_bind; [apply changed_good|intros c].
  destruct c; [|apply good_ret].
  apply good_bind; [|intros; apply flush_pass_good].
  apply good_modify. intros s. split; [apply R_assign|apply base_assign].
Qed.

Lemma flush_loop_good (st st' : State) :
  flush_loop rec st = Ok tt st' -> RF st st' /\ base st st'.
Proof.
  unfold flush_loop. destruct (pending st) as [|e rest] eqn:Ep.
  - intros [= <-]. split; [by apply RF_done|apply base_refl].
  - set (st1 := set_pending rest st).
    assert (H1 : forall s, match node e st1 with
                           | Some nd => if disposed nd then Ok tt st1
                                        else update_node rec e st1
                           | None => Ok tt st1
                           end = Ok tt s -> R st1 s /\ base st1 s).
    { intros s. destruct (node e st1) as [nd|];
        [|intros [= <-]; split; [apply R_refl|apply base_refl]].
      destruct (disposed nd);
        [intros [= <-]; split; [apply R_refl|apply base_refl]|].
      apply update_node_good. }
    destruct (match node e st1 with Some _ => _ | None => _ end)
      as [[] st2| |]; [|destruct (e_flush rec _) as [| |]; done|done].
    destruct (H1 st2 eq_refl) as [R1 B1].
    intros E. destruct Hrec as (_&Hf&_). destruct (Hf _ _ E) as [F2 B2].
    split; [by eapply RF_next|].
    eapply base_trans; [|done]. eapply base_trans; [|done].
    unfold base; cbn. split_and!; [done|done|lia|auto].
Qed.

Lemma do_op_good {X : Type} (op : Op X) : good (do_op rec op).
Proof.
  destruct op; cbn.
  - intros st a st' H. split; [by eapply R_create|by eapply base_create].
  - apply good_modify. intros st. split; [apply R_effect|by apply base_upd].
  - apply read_node_good.
  - apply write_node_good.
  - apply dispose_op_good.
  - intros st a st' H. destruct a.
    split; [by eapply R_on_dispose|by eapply base_on_dispose].
  - apply flush_pass_good.
  - apply Hrec.
  - apply good_throw.
  - intros st a st' [= <- <-]. split; [apply R_alloc|]. by apply base_of_keeps.
  - intros st a st' [= <- <-]. split; [apply R_alloc|]. by apply base_of_keeps.
  - intros st a st' [= <- <-]. split; [apply R_refl|apply base_refl].
  - intros st a st' H. split; [by eapply R_create|by eapply base_create].
  - apply update_node_good.
  - intros st a st' [= <- <-]. split; [apply R_refl|apply base_refl].
  - intros st a st' [= <- <-]. split; [apply R_tables|]. by apply base_of_keeps.
  - intros st a st' [= <- <-]. split; [apply R_refl|apply base_refl].
  - apply good_modify. intros st. split; [apply R_tables|]. by apply base_of_keeps.
Qed.

Lemma run_good {A : Type} (p : Prog A) : good (run rec p).
Proof.
  induction p as [a|X op k IH]; cbn; [apply good_ret|].
  apply good_bind; [apply do_op_good|done].
Qed.

Lemma call_fn_good (f : Val) (args : list Val) : good (call_fn user rec f args).
Proof.
  intros st a st'. unfold call_fn. destruct f; try done.
  intros H. apply run_good in H as [R1 B1].
  split; [eapply R_trans; [apply R_log|done]|].
  eapply base_trans; [|done]. by apply base_of_keeps.
Qed.

Lemma step_ok : engine_ok (step user rec).
Proof.
  split_and!; cbn.
  - apply call_fn_good.
  - apply flush_loop_good.
  - apply dispose_owned_good.
Qed.

End Level.

Lemma engine_good (fuel : nat) : engine_ok (engine user fuel).
Proof.
  induction fuel as [|fuel IH]; cbn; [|by apply step_ok].
  split_and!; cbn; [intros f args st a st'|intros st st'|intros n st st']; done.
Qed.

Lemma exec_good {A : Type} (fuel : nat) (p : Prog A) : good (exec user fuel p).
Proof. apply run_good, engine_good. Qed.

End Frame.

(** *** Running programs *)

Lemma run_bind {A B : Type} (rec : Engine) (p : Prog A) (f : A -> Prog B)
    (st : State) :
  run rec (bind p f) st = mbind (run rec p) (fun a => run rec (f a)) st.
Proof.
  revert st. induction p as [a|X op k IH]; intros st; cbn; [done|].
  unfold mbind. destruct (do_op rec op st) as [x st1| |]; [|done|done].
  rewrite IH. done.
Qed.

Lemma run_perform {X : Type} (rec : Engine) (op : Op X) (st : State) :
  run rec (perform op) st = do_op rec op st.
Proof.
  unfold perform; cbn. unfold mbind. by destruct (do_op rec op st).
Qed.

(** The relation that holds of any two states. *)
Definition any_states (_ _ : State) : Prop := True.

Lemma any_states_respected : respected any_states any_states.
Proof. by constructor. Qed.

Lemma engine_base (user : nat -> list Val -> list Val -> Prog Val) (fuel : nat) :
  engine_ok any_states any_states (engine user fuel).
Proof. apply engine_good, any_states_respected. Qed.

Lemma call_base (user : nat -> list Val -> list Val -> Prog Val) (fuel : nat)
    (f : Val) (args : list Val) (st : State) (v : Val) (st' : State) :
  e_call (engine user fuel) f args st = Ok v st' -> base st st'.
Proof. intros H. by apply (engine_base user fuel) in H as [_ ?]. Qed.

Lemma run_base {A : Type} (user : nat -> list Val -> list Val -> Prog Val)
    (fuel : nat) (p : Prog A) (st : State) (a : A) (st' : State) :
  run (engine user fuel) p st = Ok a st' -> base st st'.
Proof.
  intros H.
  by apply (run_good _ _ any_states_respected _ (engine_base user fuel)) in H as [_ ?].
Qed.

(** *** [runEffect] *)

(** Whatever the core does, [runEffect] returns [null]. *)
Lemma runEffect_returns_null (rec : Engine) (effect : Fn) (st : State) (v : Val)
    (st' : State) :
  run rec (runEffect effect) st = Ok v st' -> v = VNull.
Proof.
  unfold runEffect. rewrite run_bind. unfold mbind at 1.
  destruct (run rec (call (VFun effect) []) st) as [r st1| |]; [|done|done].
  rewrite run_bind. unfold mbind at 1.
  destruct (run rec _ st1) as [[] st2| |]; [|done|done].
  cbn. by intros [= <- _].
Qed.

(** One execution of [runEffect] on top of the stack: the effect function
    is called once; a function it returns becomes a cleanup of the node on
    top, anything else is dropped. *)
Lemma runEffect_spec (user : nat -> list Val -> list Val -> Prog Val) (fuel : nat)
    (effect : Fn) (st : State) (v : Val) (st' : State) :
  run (engine user fuel) (runEffect effect) st = Ok v st' ->
  exists r st1,
    e_call (engine user fuel) (VFun effect) [] st = Ok r st1 /\
    active st1 = active st /\
    v = VNull /\
    st' = (if isFunction r
           then match active st with
                | top :: _ => upd top (fun x => with_cleanups (cleanups x ++ [r]) x) st1
                | [] => st1
                end
           else st1).
Proof.
  unfold runEffect, call, onDispose. rewrite run_bind. unfold mbind at 1.
  rewrite run_perform. cbn [do_op].
  destruct (e_call (engine user fuel) (VFun effect) [] st) as [r st1| |] eqn:E;
    [|done|done].
  pose proof (call_base _ _ _ _ _ _ _ E) as (Ha&_).
  rewrite run_bind. unfold mbind at 1. intros H.
  exists r, st1. split_and!; [done|done| |].
  - destruct (run _ _ st1) as [[] st2| |]; [|done|done]. cbn in H. congruence.
  - destruct (isFunction r).
    + rewrite run_perform in H. cbn in H. unfold on_dispose in H.
      rewrite Ha in H. destruct (active st); cbn in H; congruence.
    + cbn in H. congruence.
Qed.

Lemma enter_keeps {A : Type} (p : Node -> A) (n : nat) (st : State) :
  blind_sources p -> blind_observers p -> (forall nd, p (with_run nd) = p nd) ->
  forall m, p <$> node m (enter n st) = p <$> node m st.
Proof.
  intros Hs Ho Hr m. unfold enter.
  change (node m (set_active (n :: active st) (upd n with_run (detach_sources n st))))
    with (node m (upd n with_run (detach_sources n st))).
  rewrite upd_keeps by done. by apply detach_sources_keeps.
Qed.

Lemma node_leave (n : nat) (v : Val) (saved : list nat) (st : State) :
  node n (leave n v saved st)
  = (fun x => with_stale false (with_value v x)) <$> node n st.
Proof. unfold leave. by rewrite node_upd_eq. Qed.

Lemma is_Some_node_base (n : nat) (st st' : State) :
  base st st' -> is_Some (node n st) -> is_Some (node n st').
Proof.
  intros (_&_&L&_) H. unfold node in *. apply lookup_lt_is_Some.
  apply lookup_lt_is_Some in H. lia.
Qed.

(** One execution of an effect node. *)
Lemma execute_effect (user : nat -> list Val -> list Val -> Prog Val) (fuel : nat)
    (n : nat) (effect : Fn) (st st' : State) :
  compute_of n st = Some (FRunEffect effect) ->
  execute (engine user fuel) n st = Ok tt st' ->
  exists k r st1,
    fuel = S k /\
    e_call (engine user k) (VFun effect) []
           (log_call (FRunEffect effect) [] (enter n st)) = Ok r st1 /\
    active st1 = n :: active st /\
    is_Some (node n st1) /\
    st' = leave n VNull (active st)
            (if isFunction r
             then upd n (fun x => with_cleanups (cleanups x ++ [r]) x) st1
             else st1).
Proof.
  intros Hc. unfold execute.
  assert (Hc' : node n (enter n st) ≫= compute = Some (FRunEffect effect)).
  { pose proof (enter_keeps compute n st ltac:(done) ltac:(done) ltac:(done) n) as E.
    unfold compute_of, field_of in Hc.
    destruct (node n (enter n st)) as [x|], (node n st) as [y|]; cbn in *;
      congruence. }
  rewrite Hc'.
  destruct fuel as [|k]; [done|]. cbn [engine step e_call]. unfold call_fn.
  cbn [fn_body].
  destruct (run _ _ _) as [v st2| |] eqn:E; [|done|done].
  intros [= <-].
  pose proof (run_base _ _ _ _ _ _ E) as B.
  apply runEffect_spec in E as (r&st1&E1&Ea&->&->).
  exists k, r, st1. cbn in Ea. split_and!; try done.
  pose proof (call_base _ _ _ _ _ _ _ E1) as B1.
    apply (is_Some_node_base n _ _ B1). cbn.
    unfold compute_of, field_of in Hc.
    change (is_Some (node n (enter n st))).
    pose proof (enter_keeps compute n st ltac:(done) ltac:(done) ltac:(done) n) as K.
    destruct (node n (enter n st)), (node n st); cbn in *; done.
Qed.

(** *** The computations on the stack are not re-entered

    While a node is on the stack the cycle check keeps it from being
    executed again: across any operation that returns, the stack is as
    before and the run counts of its nodes are unchanged. *)
Definition held (st st' : State) : Prop :=
  active st' = active st /\
  forall x, x ∈ active st -> runs_of x st' = runs_of x st.

Lemma held_refl (st : State) : held st st.
Proof. by split. Qed.

Lemma held_trans (a b c : State) : held a b -> held b c -> held a c.
Proof.
  intros [A1 A2] [B1 B2]. split; [congruence|].
  intros x Hx. rewrite B2, A2; [done|done|by rewrite A1].
Qed.

Lemma held_of_keeps (st st' : State) :
  active st' = active st ->
  (forall m, runs <$> node m st' = runs <$> node m st) ->
  held st st'.
Proof.
  intros H1 H2. split; [done|]. intros x _. unfold runs_of.
  by apply field_of_keeps.
Qed.

Lemma held_upd (n : nat) (f : Node -> Node) (st : State) :
  (forall nd, runs (f nd) = runs nd) -> held st (upd n f st).
Proof. intros H. apply held_of_keeps; [done|]. intros m. by apply upd_keeps. Qed.

Lemma held_create (owned : bool) (initial : Val) (compute : option Fn)
    (options : option Options) (st : State) (n : nat) (st' : State) :
  create_node owned initial compute options st = Ok n st' -> held st st'.
Proof.
  destruct (create_node_spec owned initial compute options st)
    as (s&E&L&A&_&_&_&_&_&K&_).
  rewrite E. intros [= <- <-]. split; [done|]. intros x _.
  destruct (K _ runs ltac:(done)) as [K1 K2]. unfold runs_of, field_of.
  destruct (Nat.lt_trichotomy x (length (nodes st))) as [H|[->|H]].
  - by rewrite K1.
  - rewrite K2. unfold node. by rewrite lookup_ge_None_2 by lia.
  - unfold node. rewrite !lookup_ge_None_2 by lia. done.
Qed.

Lemma held_retire (n : nat) (st : State) : held st (retire n st).
Proof.
  unfold retire. apply held_of_keeps.
  - cbn. destruct (detach_sources_frame n st) as (A1&_).
    destruct (detach_observers_frame n (detach_sources n st)) as (A2&_).
    cbn in *. congruence.
  - intros m.
    change (node m (set_pending _ ?s)) with (node m s).
    rewrite upd_keeps by done.
    rewrite detach_observers_keeps by done. by apply detach_sources_keeps.
Qed.

Lemma runs_of_enter (n x : nat) (st : State) :
  x ≠ n -> runs_of x (enter n st) = runs_of x st.
Proof.
  intros Hx. unfold runs_of, field_of, enter.
  change (node x (set_active _ ?s)) with (node x s).
  rewrite node_upd_ne by done.
  by rewrite (detach_sources_keeps runs n st ltac:(done) ltac:(done) x).
Qed.

Lemma runs_of_enter_eq (n : nat) (st : State) :
  is_Some (node n st) -> runs_of n (enter n st) = S (runs_of n st).
Proof.
  intros [nd Hn]. unfold runs_of, field_of, enter.
  change (node n (set_active _ ?s)) with (node n s).
  rewrite node_upd_eq.
  pose proof (detach_sources_keeps runs n st ltac:(done) ltac:(done) n) as K.
  rewrite Hn in *. destruct (node n (detach_sources n st)); cbn in *; congruence.
Qed.

Lemma runs_of_leave (n x : nat) (v : Val) (saved : list nat) (st : State) :
  runs_of x (leave n v saved st) = runs_of x st.
Proof.
  unfold runs_of, leave. apply field_of_keeps.
  change (node x (upd n ?f (set_active saved st))) with (node x (upd n f st)).
  by apply upd_keeps.
Qed.

Lemma held_execute (n : nat) (v : Val) (st st2 : State) :
  n ∉ active st -> held (enter n st) st2 -> held st (leave n v (active st) st2).
Proof.
  intros Hn [H1 H2]. split; [done|]. intros x Hx.
  rewrite runs_of_leave, H2 by (cbn; apply elem_of_cons; by right).
  apply runs_of_enter. intros ->. done.
Qed.

Lemma held_marks (st st' : State) : marks st st' -> held st st'.
Proof.
  intros H. pose proof (marks_keeps runs _ _ H ltac:(done)).
  destruct H as (?&_). by apply held_of_keeps.
Qed.

Lemma held_respected : respected held held.
Proof.
  constructor.
  - apply held_refl.
  - apply held_trans.
  - apply held_create.
  - intros. by apply held_upd.
  - intros c st st'. unfold on_dispose.
    destruct (active st); intros [= <-]; [apply held_refl|by apply held_upd].
  - intros. destruct (track_frame n st) as (?&_).
    apply held_of_keeps; [done|]. by apply track_keeps.
  - intros. by apply held_upd.
  - intros n st st' H _ _. eapply held_trans; [|exact H]. by apply held_upd.
  - apply held_retire.
  - intros n v st st2 Hn H _. by apply held_execute.
  - intros. eapply held_trans; [apply (held_upd n (with_value v)); done|].
    apply held_marks, notify_marks.
  - intros st st' _ [H1 H2] _. split; [done|]. intros x Hx. by apply H2.
  - intros. apply held_refl.
  - intros e rest st st2 st3 _ H1 H2. eapply held_trans; [|exact H2].
    destruct H1 as [A1 A2]. by split.
  - intros. by split.
  - intros. by split.
  - intros. by split.
Qed.

Lemma engine_held (user : nat -> list Val -> list Val -> Prog Val) (fuel : nat) :
  engine_ok held held (engine user fuel).
Proof. apply engine_good, held_respected. Qed.

Lemma call_held (user : nat -> list Val -> list Val -> Prog Val) (fuel : nat)
    (f : Val) (args : list Val) (st : State) (v : Val) (st' : State) :
  e_call (engine user fuel) f args st = Ok v st' -> held st st'.
Proof. intros H. by apply (engine_held user fuel) in H as [? _]. Qed.

(** *** [createEffect], step by step *)

(** The effect node as [createEffect] has set it up before the initial
    read. *)
Definition effect_node (DEV : bool) (effect : Fn) (options : option Options) : Node :=
  with_isEffect true
    (new_node VNull (Some (FRunEffect effect)) (effect_options DEV options)).

Definition stop_handle (DEV : bool) (n : nat) : Fn :=
  if DEV then FStopEffect n else FDispose n true.

(** The state in which [createEffect] makes the initial read: the node is
    created and flagged as an effect. *)
Definition effect_created (DEV : bool) (effect : Fn) (options : option Options)
    (st : State) : State :=
  match create_node true VNull (Some (FRunEffect effect))
          (effect_options DEV options) st with
  | Ok n s => upd n (with_isEffect true) s
  | _ => st
  end.

Lemma effect_created_spec (DEV : bool) (effect : Fn) (options : option Options)
    (st : State) :
  stack_ok st ->
  let n := length (nodes st) in
  let st0 := effect_created DEV effect options st in
  node n st0 = Some (effect_node DEV effect options) /\
  active st0 = active st /\ calls st0 = calls st /\ n ∉ active st.
Proof.
  intros Hok n st0. unfold st0, effect_created.
  destruct (create_node_spec true VNull (Some (FRunEffect effect))
              (effect_options DEV options) st)
    as (s1&E1&L1&A1&P1&F1&T1&N1&C1&_&_&K1).
  rewrite E1. fold n in K1 |- *.
  assert (Hn : n ∉ active st).
  { intros Hin. apply Hok in Hin. unfold n in Hin. lia. }
  split_and!; try done.
  rewrite node_upd_eq, K1; [done|].
  right. destruct (active st) as [|top ?] eqn:Ea; cbn; [done|].
  intros [= ->]. apply Hn. apply elem_of_cons. by left.
Qed.

(** [createEffect] is one execution of the fresh node. *)
Lemma createEffect_unfold (DEV : bool) (user : nat -> list Val -> list Val -> Prog Val)
    (fuel : nat) (effect : Fn) (options : option Options) (st : State) :
  stack_ok st ->
  let n := length (nodes st) in
  exec user fuel (createEffect DEV effect options) st
  = match execute (engine user fuel) n (effect_created DEV effect options st) with
    | Ok _ s => Ok (stop_handle DEV n) (track n s)
    | Throw e s => Throw e s
    | OutOfFuel => OutOfFuel
    end.
Proof.
  intros Hok n.
  destruct (effect_created_spec DEV effect options st Hok) as (H0&A0&_&Hn).
  fold n in H0, Hn. revert H0 A0. unfold effect_created.
  unfold exec, createEffect, createComputation, setEffect, read.
  rewrite run_bind. unfold mbind at 1. rewrite run_perform. cbn [do_op].
  destruct (create_node_spec true VNull (Some (FRunEffect effect))
              (effect_options DEV options) st) as (s1&E1&_).
  rewrite E1. fold n. cbv beta iota.
  set (st0 := upd n (with_isEffect true) s1). intros H0 A0.
  rewrite run_bind. unfold mbind at 1. rewrite run_perform. cbn [do_op modify].
  fold st0.
  rewrite run_bind. unfold mbind at 1. rewrite run_perform. cbn [do_op].
  unfold read_node. rewrite H0. cbn [effect_node with_isEffect disposed new_node].
  unfold mbind at 1. unfold update_node. rewrite H0.
  rewrite bool_decide_eq_false_2 by (by rewrite A0).
  cbn [effect_node with_isEffect stale new_node].
  rewrite bool_decide_eq_true_2 by eauto.
  unfold recompute, mbind at 1. unfold run_cleanups. rewrite H0.
  cbn [effect_node with_isEffect cleanups new_node rev call_all mret].
  rewrite (upd_same n (with_cleanups []) st0)
    by (intros nd; rewrite H0; by intros [= <-]).
  unfold mbind at 1. unfold dispose_children. rewrite H0.
  cbn [effect_node with_isEffect children new_node dispose_all mret].
  rewrite (upd_same n (with_children []) st0)
    by (intros nd; rewrite H0; by intros [= <-]).
  destruct (execute (engine user fuel) n st0) as [[] s2| |]; done.
Qed.

Lemma execute_effect_returns (user : nat -> list Val -> list Val -> Prog Val)
    (k n : nat) (effect : Fn) (st : State) (r : Val) (st1 : State) :
  compute_of n st = Some (FRunEffect effect) ->
  e_call (engine user k) (VFun effect) []
         (log_call (FRunEffect effect) [] (enter n st)) = Ok r st1 ->
  execute (engine user (S k)) n st
  = Ok tt (leave n VNull (active st)
             (if isFunction r
              then upd n (fun x => with_cleanups (cleanups x ++ [r]) x) st1
              else st1)).
Proof.
  intros Hc E. unfold execute.
  assert (Hc' : node n (enter n st) ≫= compute = Some (FRunEffect effect)).
  { pose proof (enter_keeps compute n st ltac:(done) ltac:(done) ltac:(done) n) as K.
    unfold compute_of, field_of in Hc.
    destruct (node n (enter n st)) as [x|], (node n st) as [y|]; cbn in *;
      congruence. }
  rewrite Hc'. cbn [engine step e_call]. unfold call_fn. cbn [fn_body].
  unfold runEffect, call, onDispose. rewrite run_bind. unfold mbind at 1.
  rewrite run_perform. cbn [do_op]. rewrite E.
  pose proof (call_base _ _ _ _ _ _ _ E) as (Ha&_). cbn in Ha.
  rewrite run_bind. unfold mbind at 1.
  destruct (isFunction r).
  - rewrite run_perform. cbn. unfold on_dispose. by rewrite Ha.
  - done.
Qed.

Lemma createEffect_spec (DEV : bool) (user : nat -> list Val -> list Val -> Prog Val)
    (fuel : nat) (effect : Fn) (options : option Options) (st : State)
    (stop : Fn) (st' : State) :
  stack_ok st ->
  exec user fuel (createEffect DEV effect options) st = Ok stop st' ->
  let n := length (nodes st) in
  let st0 := effect_created DEV effect options st in
  exists k r st1,
    fuel = S k /\
    stop = stop_handle DEV n /\
    e_call (engine user k) (VFun effect) []
           (log_call (FRunEffect effect) [] (enter n st0)) = Ok r st1 /\
    active st1 = n :: active st /\
    is_Some (node n st1) /\
    st' = track n
            (leave n VNull (active st)
               (if isFunction r
                then upd n (fun x => with_cleanups (cleanups x ++ [r]) x) st1
                else st1)).
Proof.
  intros Hok H n st0. revert H. rewrite createEffect_unfold by done. fold n st0.
  destruct (effect_created_spec DEV effect options st Hok) as (H0&A0&_&Hn).
  fold n st0 in H0, A0, Hn.
  destruct (execute (engine user fuel) n st0) as [[] s2| |] eqn:E2; [|done|done].
  intros [= <- <-].
  apply execute_effect with (effect := effect) in E2 as (k&r&st1&->&Ec&Ea&Hs&->);
    [|unfold compute_of, field_of; by rewrite H0].
  exists k, r, st1. rewrite A0 in *. by split_and!.
Qed.

(** *** The call log only grows *)
Definition grows (st st' : State) : Prop :=
  exists l, calls st' = calls st ++ l.

Lemma grows_refl (st : State) : grows st st.
Proof. exists []. by rewrite app_nil_r. Qed.

Lemma grows_trans (a b c : State) : grows a b -> grows b c -> grows a c.
Proof.
  intros [l1 H1] [l2 H2]. exists (l1 ++ l2). by rewrite H2, H1, app_assoc.
Qed.

Lemma grows_same (st st' : State) : calls st' = calls st -> grows st st'.
Proof. intros H. exists []. by rewrite app_nil_r. Qed.

Lemma grows_respected : respected grows grows.
Proof.
  constructor.
  - apply grows_refl.
  - apply grows_trans.
  - intros owned initial compute options st n st'.
    destruct (create_node_spec owned initial compute options st)
      as (s&E&_&_&_&_&_&_&C&_).
    rewrite E. intros [= _ <-]. by apply grows_same.
  - intros. by apply grows_same.
  - intros c st st'. unfold on_dispose.
    destruct (active st); intros [= <-]; by apply grows_same.
  - intros. destruct (track_frame n st) as (_&_&_&_&_&?&_). by apply grows_same.
  - intros. by apply grows_same.
  - intros n st st' H _ _. eapply grows_trans; [|exact H]. by apply grows_same.
  - intros. apply grows_same. unfold retire. cbn.
    destruct (detach_sources_frame n st) as (_&_&_&_&_&C1&_).
    destruct (detach_observers_frame n (detach_sources n st)) as (_&_&_&_&_&C2&_).
    cbn in *. congruence.
  - intros n v st st2 _ [l H] _. exists l. unfold leave, enter in *. cbn in *.
    destruct (detach_sources_frame n st) as (_&_&_&_&_&C1&_). congruence.
  - intros. apply grows_same.
    destruct (notify_marks n (upd n (with_value v) st)) as (_&_&_&_&C&_).
    by rewrite C.
  - intros st st' _ [l H] _. by exists l.
  - intros. apply grows_refl.
  - intros e rest st st2 st3 _ [l1 H1] [l2 H2]. exists (l1 ++ l2).
    rewrite H2, H1. cbn. by rewrite app_assoc.
  - intros. by apply grows_same.
  - intros. by apply grows_same.
  - intros. by exists [(f, args)].
Qed.

Lemma engine_grows (user : nat -> list Val -> list Val -> Prog Val) (fuel : nat) :
  engine_ok grows grows (engine user fuel).
Proof. apply engine_good, grows_respected. Qed.

Lemma call_grows (user : nat -> list Val -> list Val -> Prog Val) (fuel : nat)
    (f : Val) (args : list Val) (st : State) (v : Val) (st' : State) :
  e_call (engine user fuel) f args st = Ok v st' -> grows st st'.
Proof. intros H. by apply (engine_grows user fuel) in H as [? _]. Qed.

(** A call of a function value is logged first. *)
Lemma call_logged (user : nat -> list Val -> list Val -> Prog Val) (fuel : nat)
    (f : Fn) (args : list Val) (st : State) (v : Val) (st' : State) :
  e_call (engine user fuel) (VFun f) args st = Ok v st' ->
  exists l, calls st' = calls st ++ (f, args) :: l.
Proof.
  destruct fuel as [|k]; [done|]. cbn [engine step e_call]. unfold call_fn.
  intros H.
  apply (run_good _ _ grows_respected _ (engine_grows user k)) in H as [[l H] _].
  exists l. rewrite H. cbn. by rewrite <- app_assoc.
Qed.

(** *** An owned computation stays owned until it is disposed *)
Definition kept_or_gone (n c : nat) (st st' : State) : Prop :=
  base st st' /\
  (c ∈ children_of n st -> c < length (nodes st) ->
   is_disposed c st' = true \/ c ∈ children_of n st').

Lemma kept_or_gone_refl (n c : nat) (st : State) : kept_or_gone n c st st.
Proof. split; [apply base_refl|auto]. Qed.

Lemma kept_or_gone_trans (n c : nat) (s1 s2 s3 : State) :
  kept_or_gone n c s1 s2 -> kept_or_gone n c s2 s3 -> kept_or_gone n c s1 s3.
Proof.
  intros [B1 H1] [B2 H2]. split; [by eapply base_trans|].
  intros Hc Hlt. destruct (H1 Hc Hlt) as [Hd|Hk].
  - left. destruct B2 as (_&_&_&B2). by apply B2.
  - apply H2; [done|]. destruct B1 as (_&_&?&_). lia.
Qed.

(** A step that keeps the children lists. *)
Lemma kept_or_gone_keeps (n c : nat) (st st' : State) :
  base st st' ->
  (forall m, children <$> node m st' = children <$> node m st) ->
  kept_or_gone n c st st'.
Proof.
  intros B H. split; [done|]. intros Hc _. right.
  unfold children_of in *. by rewrite (field_of_keeps _ _ _ _ _ (H n)).
Qed.

Lemma children_of_create (owned : bool) (initial : Val) (compute : option Fn)
    (options : option Options) (st : State) (n : nat) (st' : State) (m c : nat) :
  create_node owned initial compute options st = Ok n st' ->
  c ∈ children_of m st -> c ∈ children_of m st'.
Proof.
  unfold create_node. intros [= <- <-] Hc.
  assert (Hm : m < length (nodes st)).
  { unfold children_of, field_of, node in Hc.
    destruct (nodes st !! m) eqn:E; [by apply lookup_lt_Some in E|].
    by apply elem_of_nil in Hc. }
  set (st1 := set_nodes _ st).
  assert (H1 : node m st1 = node m st).
  { unfold node, st1; cbn. by rewrite lookup_app_l. }
  assert (H2 : c ∈ children_of m st1).
  { unfold children_of, field_of in *. by rewrite H1. }
  destruct owned, (active st) as [|top ?]; try done.
  unfold children_of, field_of in *. rewrite node_upd.
  destruct (decide (top = m)) as [->|]; [|done].
  destruct (node m st1); cbn in *; [|done]. apply elem_of_app. by left.
Qed.

Lemma kept_or_gone_respected (n c : nat) :
  respected (kept_or_gone n c) (kept_or_gone n c).
Proof.
  constructor.
  - apply kept_or_gone_refl.
  - apply kept_or_gone_trans.
  - intros owned initial compute options st x st' H.
    split; [by eapply base_create|]. intros Hc _. right.
    by eapply children_of_create.
  - intros. apply kept_or_gone_keeps; [by apply base_upd|].
    intros m. by apply upd_keeps.
  - intros v st st' H. apply kept_or_gone_keeps; [by eapply base_on_dispose|].
    revert H. unfold on_dispose. destruct (active st); intros [= <-] m; [done|].
    by apply upd_keeps.
  - intros. apply kept_or_gone_keeps; [apply base_track|].
    intros m. by apply track_keeps.
  - intros. apply kept_or_gone_keeps; [by apply base_upd|].
    intros m. by apply upd_keeps.
  - intros x st st' [B H] _ D.
    assert (B0 : base st (upd x (with_children []) st)) by (by apply base_upd).
    split; [by eapply base_trans|].
    intros Hc Hlt. destruct (decide (x = n)) as [->|Hne]; [left; by apply D|].
    apply H; [|by rewrite length_upd].
    unfold children_of, field_of in *. by rewrite node_upd_ne.
  - intros. apply kept_or_gone_keeps; [apply base_retire|].
    intros m. unfold retire.
    change (node m (set_pending _ ?s)) with (node m s).
    rewrite upd_keeps by done.
    rewrite detach_observers_keeps by done. by apply detach_sources_keeps.
  - intros x v st st2 _ [B H] _. split; [by apply base_enter_leave|].
    intros Hc Hlt.
    assert (K : forall m, children <$> node m (enter x st) = children <$> node m st)
      by (intros m; by apply enter_keeps).
    assert (L : length (nodes (enter x st)) = length (nodes st)).
    { unfold enter; cbn. rewrite length_alter.
      by destruct (detach_sources_frame x st) as (_&_&_&_&_&_&?). }
    destruct H as [Hd|Hk].
    + unfold children_of in *. by rewrite (field_of_keeps _ _ _ _ _ (K n)).
    + by rewrite L.
    + left. unfold is_disposed, leave in *.
      erewrite field_of_keeps; [exact Hd|].
      change (node c (upd x ?f (set_active ?a st2))) with (node c (upd x f st2)).
      by apply upd_keeps.
    + right. unfold children_of, leave in *.
      erewrite field_of_keeps; [exact Hk|].
      change (node n (upd x ?f (set_active ?a st2))) with (node n (upd x f st2)).
      by apply upd_keeps.
  - intros. apply kept_or_gone_keeps; [apply base_assign|]. intros m.
    rewrite (marks_keeps children _ _ (notify_marks n0 _)) by done.
    by apply upd_keeps.
  - intros st st' Hf [B H] _. split.
    + destruct B as (B1&B2&B3&B4). unfold base; cbn in *. by split_and!.
    + intros Hc Hlt. by apply H.
  - intros. apply kept_or_gone_refl.
  - intros e rest st st2 st3 _ H1 H2. eapply kept_or_gone_trans; [|exact H2].
    destruct H1 as [B H]. split; [|done].
    destruct B as (B1&B2&B3&B4). unfold base; cbn in *. by split_and!.
  - intros. apply kept_or_gone_keeps; [by apply base_of_keeps|done].
  - intros. apply kept_or_gone_keeps; [by apply base_of_keeps|done].
  - intros. apply kept_or_gone_keeps; [by apply base_of_keeps|done].
Qed.

Lemma engine_kept_or_gone (user : nat -> list Val -> list Val -> Prog Val)
    (n c fuel : nat) :
  engine_ok (kept_or_gone n c) (kept_or_gone n c) (engine user fuel).
Proof. apply engine_good, kept_or_gone_respected. Qed.

(** Disposing a node together with its children: every computation it
    owned is disposed afterwards. *)
Lemma dispose_op_children (user : nat -> list Val -> list Val -> Prog Val)
    (fuel n c : nat) (st st' : State) :
  dispose_op (engine user fuel) n true st = Ok tt st' ->
  c ∈ children_of n st -> c < length (nodes st) ->
  is_disposed c st' = true /\ is_disposed n st' = true.
Proof.
  unfold dispose_op. destruct (node n st) as [nd|] eqn:En; [|done].
  destruct (disposed nd); [done|]. intros H Hc Hlt.
  assert (Hn : n < length (nodes st)) by (by apply lookup_lt_Some in En).
  split; [|by eapply (dispose_node_disposes any_states any_states any_states_respected
                       _ (engine_base user fuel))].
  revert H. unfold dispose_node, mbind, modify.
  destruct (run_cleanups (engine user fuel) n st) as [[] st1| |] eqn:E1; [|done|done].
  pose proof (run_cleanups_good _ _ (kept_or_gone_respected n c) _
                (engine_kept_or_gone user n c fuel) n _ _ _ E1) as [[B1 K1] _].
  intros H.
  assert (K2 : is_disposed c (retire n st1) = true \/ c ∈ children_of n (retire n st1)).
  { destruct (r_retire _ _ (kept_or_gone_respected n c) n st1) as [B2 K2].
    destruct (K1 Hc Hlt) as [Hd|Hk].
    - left. destruct B2 as (_&_&_&B2). by apply B2.
    - apply K2; [done|]. destruct B1 as (_&_&?&_). lia. }
  assert (L2 : c < length (nodes (retire n st1))).
  { destruct B1 as (_&_&?&_). destruct (base_retire n st1) as (_&_&?&_). lia. }
  destruct K2 as [Hd|Hk].
  - pose proof (dispose_children_good _ _ any_states_respected _
                  (engine_base user fuel) n _ _ _ H) as [_ (_&_&_&B3)].
    by apply B3.
  - revert H. unfold dispose_children.
    destruct (node n (retire n st1)) as [nd2|] eqn:En2.
    + intros H.
      apply (dispose_all_good _ _ any_states_respected _ (engine_base user fuel))
        in H as [_ D].
      apply D; [|by rewrite length_upd].
      unfold children_of, field_of in Hk. by rewrite En2 in Hk.
    + unfold children_of, field_of in Hk. rewrite En2 in Hk.
      by apply elem_of_nil in Hk.
Qed.

(** *** Cleanups are called *)

Lemma call_all_logged (user : nat -> list Val -> list Val -> Prog Val) (fuel : nat)
    (fs : list Val) (g : Fn) (st st' : State) :
  call_all (engine user fuel) fs st = Ok tt st' ->
  VFun g ∈ fs ->
  exists l1 l2, calls st' = calls st ++ l1 ++ (g, []) :: l2.
Proof.
  revert st. induction fs as [|f fs IH]; intros st; cbn.
  - intros _ H. by apply elem_of_nil in H.
  - unfold mbind.
    destruct (e_call (engine user fuel) f [] st) as [v st1| |] eqn:E; [|done|done].
    intros H Hg. apply elem_of_cons in Hg as [<-|Hg].
    + apply call_logged in E as [l E].
      apply (call_all_good _ _ grows_respected _ (engine_grows user fuel)) in H
        as [[l' H] _].
      exists [], (l ++ l'). rewrite H, E. cbn. by rewrite <- app_assoc.
    + apply call_grows in E as [l E]. destruct (IH _ H Hg) as (l1&l2&IH').
      exists (l ++ l1), l2. rewrite IH', E. by rewrite <- !app_assoc.
Qed.

Lemma run_cleanups_logged (user : nat -> list Val -> list Val -> Prog Val)
    (fuel n : nat) (g : Fn) (st st' : State) :
  run_cleanups (engine user fuel) n st = Ok tt st' ->
  VFun g ∈ cleanups_of n st ->
  exists l1 l2, calls st' = calls st ++ l1 ++ (g, []) :: l2.
Proof.
  unfold run_cleanups, cleanups_of, field_of.
  destruct (node n st) as [nd|]; cbn; [|intros _ H; by apply elem_of_nil in H].
  intros H Hg.
  apply (call_all_logged _ _ _ g) in H; [done|].
  apply list_elem_of_In. apply -> in_rev. by apply list_elem_of_In.
Qed.

(** ** The effect facade: the claims about [createEffect] *)

(** A small client for concrete runs: an effect that returns its teardown,
    the teardown, an effect that returns a number, an effect that creates an
    effect, and the updater [(prev) => prev + 1]. *)
Definition demo_code (c : nat) (env args : list Val) : Prog Val :=
  match c with
  | 0 => Ret (VFun (FUser 1 []))
  | 1 => Ret VUndef
  | 2 => Ret (VNum 7)
  | 3 => createEffect false (FUser 2 []) None ;;; Ret VUndef
  | 4 => Ret (match args with [VNum z] => VNum (z + 1) | _ => VUndef end)
  | _ => Ret VUndef
  end.

Lemma stack_ok_empty : stack_ok empty_state.
Proof. intros x Hx. by apply elem_of_nil in Hx. Qed.

Lemma calls_enter (n : nat) (st : State) : calls (enter n st) = calls st.
Proof.
  unfold enter. cbn. by destruct (detach_sources_frame n st) as (_&_&_&_&_&?&_).
Qed.

Lemma calls_leave (n : nat) (v : Val) (saved : list nat) (st : State) :
  calls (leave n v saved st) = calls st.
Proof. done. Qed.

Lemma calls_track (n : nat) (st : State) : calls (track n st) = calls st.
Proof. by destruct (track_frame n st) as (_&_&_&_&_&?&_). Qed.

Lemma calls_retire (n : nat) (st : State) : calls (retire n st) = calls st.
Proof.
  unfold retire; cbn.
  destruct (detach_sources_frame n st) as (_&_&_&_&_&C1&_).
  destruct (detach_observers_frame n (detach_sources n st)) as (_&_&_&_&_&C2&_).
  cbn in *. congruence.
Qed.

(** No operation changes the [compute] function of a node. *)
Definition same_compute (st st' : State) : Prop :=
  forall m, is_Some (node m st) -> compute <$> node m st' = compute <$> node m st.

Lemma same_compute_keeps (st st' : State) :
  (forall m, compute <$> node m st' = compute <$> node m st) -> same_compute st st'.
Proof. intros H m _. apply H. Qed.

Lemma same_compute_respected :
  respected (fun a b => base a b /\ same_compute a b)
            (fun a b => base a b /\ same_compute a b).
Proof.
  assert (Ht : forall a b c, base a b /\ same_compute a b ->
                 base b c /\ same_compute b c -> base a c /\ same_compute a c).
  { intros a b c [B1 H1] [B2 H2]. split; [by eapply base_trans|].
    intros m Hm. rewrite H2, H1; [done|done|]. by eapply is_Some_node_base. }
  constructor.
  - intros st. split; [apply base_refl|by intros m _].
  - exact Ht.
  - intros owned initial compute options st n st' H. split; [by eapply base_create|].
    revert H.
    destruct (create_node_spec owned initial compute options st)
      as (s&E&_&_&_&_&_&_&_&K&_).
    rewrite E. intros [= _ <-] m Hm. apply K; [done|].
    by apply lookup_lt_is_Some.
  - intros. split; [by apply base_upd|]. apply same_compute_keeps.
    intros m. by apply upd_keeps.
  - intros c st st' H. split; [by eapply base_on_dispose|].
    apply same_compute_keeps. revert H. unfold on_dispose.
    destruct (active st); intros [= <-] m; [done|]. by apply upd_keeps.
  - intros. split; [apply base_track|]. apply same_compute_keeps.
    intros m. by apply track_keeps.
  - intros. split; [by apply base_upd|]. apply same_compute_keeps.
    intros m. by apply upd_keeps.
  - intros n st st' H _ _. eapply Ht; [|exact H].
    split; [by apply base_upd|]. apply same_compute_keeps.
    intros m. by apply upd_keeps.
  - intros. split; [apply base_retire|]. apply same_compute_keeps.
    intros m. unfold retire.
    change (node m (set_pending _ ?s)) with (node m s).
    rewrite upd_keeps by done.
    rewrite detach_observers_keeps by done. by apply detach_sources_keeps.
  - intros n v st st2 _ [B H] _. split; [by apply base_enter_leave|].
    intros m Hm. unfold leave.
    change (node m (upd n ?f (set_active ?a st2))) with (node m (upd n f st2)).
    rewrite upd_keeps by done. rewrite H.
    + by apply enter_keeps.
    + destruct Hm as [x Hx].
      pose proof (enter_keeps compute n st ltac:(done) ltac:(done) ltac:(done) m) as K.
      rewrite Hx in K. destruct (node m (enter n st)); [eauto|done].
  - intros. split; [apply base_assign|]. apply same_compute_keeps. intros m.
    rewrite (marks_keeps compute _ _ (notify_marks n _)) by done.
    by apply upd_keeps.
  - intros st st' Hf [B H] _. split; [|done].
    destruct B as (B1&B2&B3&B4). unfold base; cbn in *. by split_and!.
  - intros. split; [apply base_refl|by intros m _].
  - intros e rest st st2 st3 _ H1 H2. eapply Ht; [|exact H2].
    destruct H1 as [B H]. split; [|done].
    destruct B as (B1&B2&B3&B4). unfold base; cbn in *. by split_and!.
  - intros. split; [by apply base_of_keeps|by apply same_compute_keeps].
  - intros. split; [by apply base_of_keeps|by apply same_compute_keeps].
  - intros. split; [by apply base_of_keeps|by apply same_compute_keeps].
Qed.

Lemma call_same_compute (user : nat -> list Val -> list Val -> Prog Val) (fuel : nat)
    (f : Val) (args : list Val) (st : State) (v : Val) (st' : State) :
  e_call (engine user fuel) f args st = Ok v st' -> same_compute st st'.
Proof.
  intros H.
  by apply (engine_good user _ _ same_compute_respected fuel) in H as [[_ ?] _].
Qed.

Lemma runs_of_track (n x : nat) (st : State) :
  runs_of x (track n st) = runs_of x st.
Proof. unfold runs_of. apply field_of_keeps. by apply track_keeps. Qed.

Lemma runs_of_upd (n x : nat) (f : Node -> Node) (st : State) :
  (forall nd, runs (f nd) = runs nd) -> runs_of x (upd n f st) = runs_of x st.
Proof. intros H. unfold runs_of. apply field_of_keeps. by apply upd_keeps. Qed.

(** C5: [createEffect] invokes the effect function once, during the call
    itself and before the stop handle is returned.  When the invocation of
    the effect function returns, [createEffect] returns the stop handle;
    and whenever [createEffect] has returned, the effect node has been
    executed exactly once, by the forced initial read, and the call of
    [runEffect] and, right after it, the call of the effect function are
    the first entries the call has added to the call log. *)
Theorem createEffect_runs_effect_once (DEV : bool)
    (user : nat -> list Val -> list Val -> Prog Val) (effect : Fn)
    (options : option Options) (st : State) :
  stack_ok st ->
  let n := length (nodes st) in
  let before := log_call (FRunEffect effect) []
                  (enter n (effect_created DEV effect options st)) in
  (forall k r st1,
     e_call (engine user k) (VFun effect) [] before = Ok r st1 ->
     exists st', exec user (S k) (createEffect DEV effect options) st
                 = Ok (stop_handle DEV n) st') /\
  (forall fuel stop st',
     exec user fuel (createEffect DEV effect options) st = Ok stop st' ->
     (exists k r st1,
        fuel = S k /\
        e_call (engine user k) (VFun effect) [] before = Ok r st1) /\
     runs_of n st' = 1 /\
     exists l, calls st' = calls st ++ (FRunEffect effect, []) :: (effect, []) :: l).
Proof.
  intros Hok n before.
  destruct (effect_created_spec DEV effect options st Hok) as (H0&A0&C0&Hn).
  fold n in H0, Hn.
  split.
  - intros k r st1 E. rewrite createEffect_unfold by done. fold n.
    erewrite execute_effect_returns; [by eexists| |exact E].
    unfold compute_of, field_of. by rewrite H0.
  - intros fuel stop st' H.
    apply createEffect_spec in H as (k&r&st1&->&->&E&Ea&Hs&->); [|done].
    fold n before in E, Ea, Hs |- *.
    split; [by exists k, r, st1|]. split.
    + rewrite runs_of_track, runs_of_leave.
      assert (R1 : runs_of n st1 = 1).
      { destruct (call_held _ _ _ _ _ _ _ E) as [_ Hr].
        rewrite Hr by (cbn; apply elem_of_cons; by left).
        unfold before.
        change (runs_of n (log_call ?f ?a ?s)) with (runs_of n s).
        rewrite runs_of_enter_eq by (rewrite H0; eauto).
        unfold runs_of, field_of. by rewrite H0. }
      destruct (isFunction r); [by rewrite runs_of_upd|done].
    + apply call_logged in E as [l E]. exists l.
      assert (C1 : forall s, calls (track n (leave n VNull (active st) s)) = calls s).
      { intros s. by destruct (track_frame n (leave n VNull (active st) s))
          as (_&_&_&_&_&->&_). }
      rewrite C1.
      assert (C2 : calls before = calls st ++ [(FRunEffect effect, [])]).
      { unfold before. cbn [calls log_call]. by rewrite calls_enter, C0. }
      rewrite C2, <- app_assoc in E. cbn in E.
      by destruct (isFunction r).
Qed.

Lemma createEffect_runs_effect_once_witness :
  exists st',
    exec demo_code 2 (createEffect true (FUser 0 []) None) empty_state
    = Ok (stop_handle true 0) st' /\
    runs_of 0 st' = 1.
Proof.
  destruct (createEffect_runs_effect_once true demo_code (FUser 0 []) None
              empty_state stack_ok_empty) as [H1 H2].
  edestruct (H1 1 (VFun (FUser 1 []))) as [st' E]; [vm_compute; reflexivity|].
  exists st'. split; [exact E|]. by destruct (H2 _ _ _ E) as (_&R&_).
Defined.

(** C6: in every execution of an effect node, the effect function is called
    and, when what it returns is a function, that function is appended to
    the cleanups of the effect's node; any other result leaves the cleanups
    as they were when the effect function returned.  A registered cleanup
    is called when the node is executed again and when it is disposed. *)
Theorem effect_result_becomes_cleanup
    (user : nat -> list Val -> list Val -> Prog Val) (n : nat) (effect : Fn) :
  (forall fuel st st',
     compute_of n st = Some (FRunEffect effect) ->
     execute (engine user fuel) n st = Ok tt st' ->
     exists k r st1,
       fuel = S k /\
       e_call (engine user k) (VFun effect) []
              (log_call (FRunEffect effect) [] (enter n st)) = Ok r st1 /\
       cleanups_of n st'
       = cleanups_of n st1 ++ (if isFunction r then [r] else [])) /\
  (forall fuel g st st',
     VFun g ∈ cleanups_of n st ->
     recompute (engine user fuel) n st = Ok tt st' \/
     (exists b, dispose_op (engine user fuel) n b st = Ok tt st') ->
     exists l1 l2, calls st' = calls st ++ l1 ++ (g, []) :: l2).
Proof.
  split.
  - intros fuel st st' Hc H.
    apply execute_effect with (effect := effect) in H as (k&r&st1&->&E&Ea&[nd Hs]&->);
      [|done].
    exists k, r, st1. split_and!; [done|done|].
    unfold cleanups_of, field_of. rewrite node_leave.
    destruct (isFunction r).
    + rewrite node_upd_eq, Hs. done.
    + rewrite Hs. cbn. by rewrite app_nil_r.
  - intros fuel g st st' Hg [H|[b H]].
    + revert H. unfold recompute, mbind.
      destruct (run_cleanups (engine user fuel) n st) as [[] st1| |] eqn:E1;
        [|done|done].
      destruct (dispose_children (engine user fuel) n st1) as [[] st2| |] eqn:E2;
        [|done|done].
      intros E3.
      destruct (run_cleanups_logged _ _ _ _ _ _ E1 Hg) as (l1&l2&C1).
      apply (dispose_children_good _ _ grows_respected _ (engine_grows user fuel))
        in E2 as [[l3 C2] (A2&_)].
      apply (run_cleanups_good _ _ any_states_respected _ (engine_base user fuel))
        in E1 as [_ (A1&_)].
      assert (exists l4, calls st' = calls st2 ++ l4) as [l4 C3].
      { revert E3. unfold execute.
        destruct (node n (enter n st2) ≫= compute) as [f|];
          [|intros [= <-]; exists []; by rewrite app_nil_r].
        destruct (e_call _ _ _ _) as [v s| |] eqn:E; [|done|done].
        intros [= <-]. apply call_grows in E as [l E]. exists l.
        unfold leave, enter in *. cbn in *.
        destruct (detach_sources_frame n st2) as (_&_&_&_&_&C&_). congruence. }
      exists l1, (l2 ++ l3 ++ l4). rewrite C3, C2, C1.
      by rewrite <- !app_assoc.
    + revert H. unfold dispose_op. destruct (node n st) as [nd|]; [|done].
      destruct (disposed nd); [done|]. unfold dispose_node, mbind.
      destruct (run_cleanups (engine user fuel) n st) as [[] st1| |] eqn:E1;
        [|done|done].
      intros H.
      destruct (run_cleanups_logged _ _ _ _ _ _ E1 Hg) as (l1&l2&C1).
      assert (exists l3, calls st' = calls st1 ++ l3) as [l3 C2].
      { assert (C0 : calls (retire n st1) = calls st1).
        { unfold retire; cbn.
          destruct (detach_sources_frame n st1) as (_&_&_&_&_&C1'&_).
          destruct (detach_observers_frame n (detach_sources n st1))
            as (_&_&_&_&_&C2'&_).
          cbn in *. congruence. }
        cbn in H. destruct b.
        - apply (dispose_children_good _ _ grows_respected _ (engine_grows user fuel))
            in H as [[l3 C2] _]. exists l3. by rewrite C2, C0.
        - injection H as <-. exists []. by rewrite C0, app_nil_r. }
      exists l1, (l2 ++ l3). rewrite C2, C1. by rewrite <- !app_assoc.
Qed.

(** C9: [runEffect] returns [null] unconditionally, so the node that
    [createEffect] makes holds [null] when it is created and after every
    execution. *)
Theorem effect_node_value_is_null (DEV : bool)
    (user : nat -> list Val -> list Val -> Prog Val) (effect : Fn)
    (options : option Options) :
  (forall rec st v st', run rec (runEffect effect) st = Ok v st' -> v = VNull) /\
  (forall fuel st stop st',
     stack_ok st ->
     exec user fuel (createEffect DEV effect options) st = Ok stop st' ->
     compute_of (length (nodes st)) st' = Some (FRunEffect effect) /\
     current_value (length (nodes st)) st' = VNull) /\
  (forall fuel n st st',
     compute_of n st = Some (FRunEffect effect) ->
     execute (engine user fuel) n st = Ok tt st' ->
     current_value n st' = VNull).
Proof.
  assert (Hex : forall fuel n st st',
     compute_of n st = Some (FRunEffect effect) ->
     execute (engine user fuel) n st = Ok tt st' ->
     current_value n st' = VNull /\ compute_of n st' = compute_of n st).
  { intros fuel n st st' Hc H.
    assert (Hn : is_Some (node n st)).
    { unfold compute_of, field_of in Hc. by destruct (node n st). }
    apply execute_effect with (effect := effect) in H as (k&r&st1&->&E&Ea&[nd Hs]&->);
      [|done].
    split.
    - unfold current_value. rewrite node_leave.
      destruct (isFunction r); [rewrite node_upd_eq|]; by rewrite Hs.
    - apply call_same_compute in E.
      assert (K : compute <$> node n st1 = compute <$> node n st).
      { rewrite E.
        - change (node n (log_call ?f ?a ?s)) with (node n s). by apply enter_keeps.
        - change (node n (log_call ?f ?a ?s)) with (node n s).
          destruct Hn as [x Hx].
          pose proof (enter_keeps compute n st ltac:(done) ltac:(done) ltac:(done) n)
            as K.
          rewrite Hx in K. destruct (node n (enter n st)); [eauto|done]. }
      unfold compute_of. apply field_of_keeps. rewrite <- K. unfold leave.
      change (node n (upd n ?f (set_active ?a ?s))) with (node n (upd n f s)).
      rewrite upd_keeps by done.
      destruct (isFunction r); [by rewrite upd_keeps|done]. }
  split_and!.
  - intros rec st v st'. apply runEffect_returns_null.
  - intros fuel st stop st' Hok H.
    destruct (effect_created_spec DEV effect options st Hok) as (H0&A0&_&Hn).
    revert H. rewrite createEffect_unfold by done.
    destruct (execute _ _ _) as [[] s2| |] eqn:E2; [|done|done].
    intros [= <- <-].
    apply Hex in E2 as [V C]; [|unfold compute_of, field_of; by rewrite H0].
    split.
    + unfold compute_of in *.
      rewrite (field_of_keeps compute None _ s2 (track _ s2)) by (by apply track_keeps).
      rewrite C. unfold field_of. by rewrite H0.
    + unfold current_value in *.
      pose proof (track_keeps value (length (nodes st)) s2 ltac:(done) ltac:(done)
                    (length (nodes st))) as K.
      destruct (node _ (track _ s2)), (node _ s2); cbn in K; congruence.
  - intros. by eapply Hex.
Qed.


(** The state after [createEffect] of the demo effect that returns its
    teardown. *)
Definition demo_effect_state : State :=
  match exec demo_code 2 (createEffect false (FUser 0 []) None) empty_state with
  | Ok _ st => st
  | _ => empty_state
  end.

Lemma effect_result_becomes_cleanup_witness :
  cleanups_of 0 demo_effect_state = [VFun (FUser 1 [])] /\
  (exists st', execute (engine demo_code 2) 0 demo_effect_state = Ok tt st' /\
               cleanups_of 0 st' = [VFun (FUser 1 [])] ++ [VFun (FUser 1 [])]) /\
  (exists st', dispose_op (engine demo_code 2) 0 true demo_effect_state = Ok tt st' /\
               exists l1 l2, calls st' = calls demo_effect_state
                                          ++ l1 ++ (FUser 1 [], []) :: l2).
Proof.
  destruct (effect_result_becomes_cleanup demo_code 0 (FUser 0 [])) as [H1 H2].
  split; [reflexivity|]. split.
  - eexists. split; [vm_compute; reflexivity|]. vm_compute. reflexivity.
  - eexists. split; [vm_compute; reflexivity|].
    eapply (H2 2 (FUser 1 []) demo_effect_state).
    + vm_compute. apply elem_of_cons. by left.
    + right. exists true. vm_compute. reflexivity.
Defined.

Lemma effect_node_value_is_null_witness :
  exists stop st',
    exec demo_code 2 (createEffect true (FUser 2 []) None) empty_state = Ok stop st' /\
    compute_of 0 st' = Some (FRunEffect (FUser 2 [])) /\
    current_value 0 st' = VNull.
Proof.
  destruct (effect_node_value_is_null true demo_code (FUser 2 []) None) as (_&H&_).
  eexists _, _. split; [vm_compute; reflexivity|].
  eapply (H 2 empty_state); [apply stack_ok_empty|vm_compute; reflexivity].
Defined.

(** C10: in both builds the stop handle that [createEffect] returns is a
    call of [dispose] on the effect node with [disposeChildrenToo = true],
    whatever arguments it is called with; so when the handle has returned,
    the effect node and every computation the node owned are disposed. *)
Theorem stop_handle_disposes_children (DEV : bool)
    (user : nat -> list Val -> list Val -> Prog Val) (effect : Fn)
    (options : option Options) (fuel : nat) (st : State) (stop : Fn) (st' : State) :
  stack_ok st ->
  exec user fuel (createEffect DEV effect options) st = Ok stop st' ->
  let n := length (nodes st) in
  (forall args, fn_body user stop args = (dispose n true ;;; Ret VUndef)) /\
  (forall fuel' args s v s' c,
     e_call (engine user fuel') (VFun stop) args s = Ok v s' ->
     c ∈ children_of n s -> c < length (nodes s) ->
     is_disposed c s' = true /\ is_disposed n s' = true).
Proof.
  intros Hok H n.
  apply createEffect_spec in H as (k&r&st1&_&->&_); [|done]. fold n.
  assert (Hb : forall args, fn_body user (stop_handle DEV n) args
                            = (dispose n true ;;; Ret VUndef)).
  { intros args. by destruct DEV. }
  split; [exact Hb|].
  intros fuel' args s v s' c. destruct fuel' as [|j]; [done|].
  cbn [engine step e_call]. unfold call_fn. rewrite Hb.
  unfold dispose. rewrite run_bind. unfold mbind at 1. rewrite run_perform.
  cbn [do_op].
  destruct (dispose_op (engine user j) n true _) as [[] s1| |] eqn:E; [|done|done].
  cbn. intros [= _ <-] Hc Hlt.
  by eapply dispose_op_children with (st := log_call _ _ s).
Qed.

(** The state after [createEffect] of an effect that creates an effect of
    its own: node 0 owns node 1. *)
Definition demo_nested_state : State :=
  match exec demo_code 4 (createEffect false (FUser 3 []) None) empty_state with
  | Ok _ st => st
  | _ => empty_state
  end.

Lemma stop_handle_disposes_children_witness :
  fn_body demo_code (stop_handle false 0) [VNum 1] = (dispose 0 true ;;; Ret VUndef) /\
  exists s',
    e_call (engine demo_code 3) (VFun (stop_handle false 0)) [] demo_nested_state
    = Ok VUndef s' /\
    is_disposed 1 s' = true /\ is_disposed 0 s' = true.
Proof.
  assert (E : exec demo_code 4 (createEffect false (FUser 3 []) None) empty_state
              = Ok (stop_handle false 0) demo_nested_state)
    by (vm_compute; reflexivity).
  destruct (stop_handle_disposes_children false demo_code (FUser 3 []) None 4
              empty_state (stop_handle false 0) demo_nested_state
              stack_ok_empty E) as [H1 H2].
  split; [apply H1|].
  eexists. split; [vm_compute; reflexivity|].
  eapply (H2 3 [] demo_nested_state VUndef).
  - vm_compute. reflexivity.
  - vm_compute. apply elem_of_cons. by left.
  - vm_compute. lia.
Defined.

(** ** Plain signals *)

Lemma set_flushing_back (st : State) :
  flushing st = false -> set_flushing false (set_flushing true st) = st.
Proof. destruct st; cbn. by intros ->. Qed.

(** With nothing waiting, a flush pass returns at once. *)
Lemma flush_pass_settled (user : nat -> list Val -> list Val -> Prog Val)
    (rec : Engine) (st : State) :
  settled st -> flush_pass (step user rec) st = Ok tt st.
Proof.
  intros Hs. unfold flush_pass. destruct (flushing st) eqn:Ef; [done|].
  cbn [step e_flush]. unfold flush_loop. cbn [pending set_flushing].
  rewrite (Hs Ef). by rewrite set_flushing_back.
Qed.

Lemma notify_unobserved (n : nat) (st : State) :
  observers_of n st = [] -> notify n st = st.
Proof.
  unfold notify, observers_of, field_of. destruct (node n st); cbn; [|done].
  by intros ->.
Qed.

(** Reading a node that is up to date. *)
Lemma read_node_fresh (rec : Engine) (n : nat) (nd : Node) (st : State) :
  node n st = Some nd -> disposed nd = false -> stale nd = false ->
  n ∉ active st ->
  read_node rec n st = Ok (value nd) (track n st).
Proof.
  intros Hn Hd Hs Ha. unfold read_node, mbind, update_node, current_value.
  rewrite Hn, Hd, Hs. rewrite bool_decide_eq_false_2 by done. by rewrite Hn.
Qed.

(** Writing a value to a plain signal without a custom equality. *)
Lemma write_node_plain (rec : Engine) (n : nat) (nd : Node) (v : Val) (st : State) :
  node n st = Some nd -> disposed nd = false -> equals nd = None ->
  isFunction v = false ->
  write_node rec n v st
  = if js_eq v (value nd) then Ok tt st
    else flush_pass rec (notify n (upd n (with_value v) st)).
Proof.
  intros Hn Hd He Hv. unfold write_node, mbind, new_value, changed, current_value.
  rewrite Hn, Hd, Hv. cbn. rewrite Hn. cbn. rewrite He.
  by destruct (js_eq v (value nd)).
Qed.

(** Writing through an updater that is a pure function of the previous
    value. *)
Lemma write_node_updater (user : nat -> list Val -> list Val -> Prog Val)
    (rec : Engine) (n : nat) (nd : Node) (c : nat) (env : list Val)
    (g : list Val -> Val) (st : State) :
  node n st = Some nd -> disposed nd = false -> equals nd = None ->
  (forall args, user c env args = Ret (g args)) ->
  let st1 := log_call (FUser c env) [value nd] st in
  let v := g [value nd] in
  write_node (step user rec) n (VFun (FUser c env)) st
  = if js_eq v (value nd) then Ok tt st1
    else flush_pass (step user rec) (notify n (upd n (with_value v) st1)).
Proof.
  intros Hn Hd He Hg st1 v.
  unfold write_node, mbind, new_value, changed, current_value.
  rewrite Hn, Hd. cbn [isFunction step e_call]. unfold call_fn. cbn [fn_body].
  rewrite Hg. cbn [run mret].
  change (node n (log_call ?f ?a st)) with (node n st). rewrite Hn. cbn.
  rewrite He. fold st1 v. by destruct (js_eq v (value nd)).
Qed.

(** C8: [createSignal initial] returns the pair of [read] and [write] bound
    to one and the same fresh node, a plain one: its [compute] is absent.
    Read at once, the pair's first function returns [initial].  The second
    one takes a plain value, which becomes the node's value unless it is
    strictly equal to the current one, or an updater, which is called with
    the previous value and whose result becomes the node's value in the
    same way (stated for signals without a custom equality and for updaters
    that are pure functions of their argument). *)
Theorem createSignal_returns_read_write_pair
    (user : nat -> list Val -> list Val -> Prog Val) (initial : Val)
    (options : option Options) (st : State) :
  stack_ok st -> settled st ->
  let n := length (nodes st) in
  exists st',
    (forall fuel,
       exec user fuel (createSignal initial options) st = Ok (FRead n, FWrite n) st') /\
    node n st = None /\
    node n st' = Some (new_node initial None options) /\
    compute_of n st' = None /\
    (forall fuel, exists st2,
       exec user (S fuel) (call (VFun (FRead n)) []) st' = Ok initial st2) /\
    (options ≫= opt_equals = None ->
     (forall fuel v,
        isFunction v = false ->
        exists st2,
          exec user (S (S fuel)) (call (VFun (FWrite n)) [v]) st' = Ok VUndef st2 /\
          current_value n st2 = (if js_eq v initial then initial else v)) /\
     (forall fuel c env g,
        (forall args, user c env args = Ret (g args)) ->
        exists st2,
          exec user (S (S fuel)) (call (VFun (FWrite n)) [VFun (FUser c env)]) st'
          = Ok VUndef st2 /\
          calls st2 = calls st ++ [(FWrite n, [VFun (FUser c env)]);
                                   (FUser c env, [initial])] /\
          current_value n st2
          = (if js_eq (g [initial]) initial then initial else g [initial]))).
Proof.
  intros Hok Hset n.
  destruct (create_node_spec true initial None options st)
    as (st'&E&L&A&P&F&T&N&C&_&_&K).
  fold n in E, L, K.
  assert (Hn : n ∉ active st).
  { intros Hin. apply Hok in Hin. unfold n in Hin. lia. }
  assert (Hnew : node n st' = Some (new_node initial None options)).
  { apply K. right. destruct (active st) as [|top ?] eqn:Ea; cbn; [done|].
    intros [= ->]. apply Hn. apply elem_of_cons. by left. }
  assert (Hset' : forall f a, settled (log_call f a st')).
  { intros f a Hf. cbn in *. rewrite P. apply Hset. by rewrite <- F. }
  assert (Hobs : forall f a v,
            notify n (upd n (with_value v) (log_call f a st'))
            = upd n (with_value v) (log_call f a st')).
  { intros f a v. apply notify_unobserved. unfold observers_of, field_of.
    rewrite node_upd_eq.
    change (node n (log_call f a st')) with (node n st'). by rewrite Hnew. }
  assert (Hval : forall f a v,
            current_value n (upd n (with_value v) (log_call f a st')) = v).
  { intros f a v. unfold current_value. rewrite node_upd_eq.
    change (node n (log_call f a st')) with (node n st'). by rewrite Hnew. }
  exists st'. split_and!.
  - intros fuel. unfold exec, createSignal, createComputation.
    rewrite run_bind. unfold mbind. rewrite run_perform. cbn [do_op].
    by rewrite E.
  - apply lookup_ge_None_2. unfold n. lia.
  - done.
  - unfold compute_of, field_of. by rewrite Hnew.
  - intros fuel. eexists. unfold exec, call. rewrite run_perform.
    cbn [do_op engine step e_call]. unfold call_fn. cbn [fn_body].
    unfold read. rewrite run_perform. cbn [do_op].
    rewrite (read_node_fresh _ n (new_node initial None options));
      [done| |done|done|].
    + change (node n (log_call ?f ?a st')) with (node n st'). exact Hnew.
    + cbn. by rewrite A.
  - intros Heq. split.
    + intros fuel v Hv. unfold exec, call. rewrite run_perform.
      cbn [do_op engine step e_call]. unfold call_fn. cbn [fn_body hd].
      unfold write. rewrite run_bind. unfold mbind. rewrite run_perform.
      cbn [do_op].
      rewrite (write_node_plain _ n (new_node initial None options));
        [|change (node n (log_call ?f ?a st')) with (node n st'); exact Hnew
         |done|exact Heq|exact Hv].
      cbn [new_node value].
      destruct (js_eq v initial) eqn:Ej.
      * eexists. split; [reflexivity|]. unfold current_value.
        change (node n (log_call ?f ?a st')) with (node n st'). by rewrite Hnew.
      * rewrite Hobs, flush_pass_settled.
        -- eexists. split; [reflexivity|]. apply Hval.
        -- intros Hf. cbn in *. rewrite P. apply Hset. by rewrite <- F.
    + intros fuel c env g Hg. unfold exec, call. rewrite run_perform.
      cbn [do_op engine step e_call]. unfold call_fn. cbn [fn_body hd].
      unfold write. rewrite run_bind. unfold mbind. rewrite run_perform.
      cbn [do_op].
      rewrite (write_node_updater _ _ n (new_node initial None options) c env g);
        [|change (node n (log_call ?f ?a st')) with (node n st'); exact Hnew
         |done|exact Heq|exact Hg].
      cbn [new_node value].
      destruct (js_eq (g [initial]) initial) eqn:Ej.
      * eexists. split; [reflexivity|]. split.
        -- cbn. rewrite C, <- app_assoc. done.
        -- unfold current_value.
           change (node n (log_call ?f ?a (log_call ?f' ?a' st'))) with (node n st').
           by rewrite Hnew.
      * set (s1 := log_call (FWrite n) _ st').
        assert (Hobs' : notify n (upd n (with_value (g [initial]))
                                    (log_call (FUser c env) [initial] s1))
                        = upd n (with_value (g [initial]))
                            (log_call (FUser c env) [initial] s1)).
        { apply notify_unobserved. unfold observers_of, field_of.
          rewrite node_upd_eq.
          change (node n (log_call ?f ?a s1)) with (node n st'). by rewrite Hnew. }
        rewrite Hobs', flush_pass_settled.
        -- eexists. split; [reflexivity|]. split.
           ++ cbn. rewrite C, <- app_assoc. done.
           ++ unfold current_value. rewrite node_upd_eq.
              change (node n (log_call ?f ?a s1)) with (node n st').
              by rewrite Hnew.
        -- intros Hf. cbn in *. rewrite P. apply Hset. by rewrite <- F.
Qed.

Lemma settled_empty : settled empty_state.
Proof. done. Qed.

Lemma createSignal_returns_read_write_pair_witness :
  exists st',
    exec demo_code 0 (createSignal (VNum 1) None) empty_state
    = Ok (FRead 0, FWrite 0) st' /\
    compute_of 0 st' = None /\
    (exists st2, exec demo_code 1 (call (VFun (FRead 0)) []) st' = Ok (VNum 1) st2) /\
    (exists st2,
       exec demo_code 2 (call (VFun (FWrite 0)) [VNum 5]) st' = Ok VUndef st2 /\
       current_value 0 st2 = VNum 5) /\
    (exists st2,
       exec demo_code 2 (call (VFun (FWrite 0)) [VFun (FUser 4 [])]) st' = Ok VUndef st2 /\
       current_value 0 st2 = VNum 2).
Proof.
  destruct (createSignal_returns_read_write_pair demo_code (VNum 1) None empty_state
              stack_ok_empty settled_empty) as (st'&H1&_&_&H2&H3&H4).
  destruct (H4 ltac:(done)) as [H5 H6].
  exists st'. split_and!.
  - apply H1.
  - exact H2.
  - apply (H3 0).
  - destruct (H5 0 (VNum 5) eq_refl) as (st2&E&V). by exists st2.
  - destruct (H6 0 4 [] (fun args => match args with
                                     | [VNum z] => VNum (z + 1)
                                     | _ => VUndef
                                     end) ltac:(done)) as (st2&E&_&V).
    by exists st2.
Defined.

(** ** The keyed mapper: what the table stands for *)

(** One live entry of a mapper: its key, the item [mapFn] was called with,
    the nodes of the child computation and of the index signal, the value
    the child computed and the position the index signal holds. *)
Record Row : Type := mkRow {
  r_key : Val;
  r_item : Val;
  r_child : nat;
  r_index : nat;
  r_out : Val;
  r_pos : nat
}.

Definition with_pos (i : nat) (r : Row) : Row :=
  {| r_key := r_key r; r_item := r_item r; r_child := r_child r;
     r_index := r_index r; r_out := r_out r; r_pos := i |}.

Definition entry_of (r : Row) : Entry :=
  {| e_child := r_child r; e_index := r_index r; e_item := None |}.

Definition table_of (rows : list Row) : Table :=
  map (fun r => (r_key r, entry_of r)) rows.

Definition find_row (k : Val) (rows : list Row) : option Row :=
  List.find (fun r => js_eq k (r_key r)) rows.

(** The index signal of an entry that holds position [i]. *)
Definition index_node (i : nat) : Node := new_node (num i) None None.

(** The child computation of an entry once it has run. *)
Definition child_node (mapFn : Val) (item : Val) (idx : nat) (out : Val) : Node :=
  {| value := out; stale := false;
     compute := Some (FMapChild mapFn item idx);
     sources := []; observers := []; disposed := false; cleanups := [];
     isEffect := false; children := []; equals := None; label := None;
     runs := 1 |}.

Definition row_ok (mapFn : Fn) (st : State) (r : Row) : Prop :=
  node (r_child r) st
    = Some (child_node (VFun mapFn) (r_item r) (r_index r) (r_out r)) /\
  node (r_index r) st = Some (index_node (r_pos r)) /\
  (mapFn, [r_item r; VFun (FRead (r_index r))]) ∈ calls st.

Definition row_ids (rows : list Row) : list nat :=
  flat_map (fun r => [r_child r; r_index r]) rows.

(** Keys that strict equality tells apart, none of them a function. *)
Fixpoint distinct_keys (ks : list Val) : bool :=
  match ks with
  | [] => true
  | k :: rest => js_eq k k && negb (has_key k rest) && distinct_keys rest
  end.

(** The table [t] holds [rows], in this order, and the nodes the rows name
    are as the rows say. *)
Definition Rows (mapFn : Fn) (t : nat) (st : State) (rows : list Row) : Prop :=
  tables st !! t = Some (table_of rows) /\
  Forall (row_ok mapFn st) rows /\
  NoDup (row_ids rows) /\
  distinct_keys (map r_key rows) = true.

(** The graph is as it was; addresses and the call log may have moved on. *)
Definition same_graph (st st' : State) : Prop :=
  nodes st' = nodes st /\ active st' = active st /\ pending st' = pending st /\
  flushing st' = flushing st /\ tables st' = tables st.

(** A mapping function that stays out of the graph: called on an item it
    accepts, with any index accessor, it returns and has changed neither
    nodes nor tables; the call is the only one of its code that is logged. *)
Definition plain_mapFn (user : nat -> list Val -> list Val -> Prog Val)
    (k0 : nat) (mc : nat) (menv : list Val) (accepts : Val -> Prop) : Prop :=
  forall k item idx st,
    k0 <= k -> accepts item ->
    exists out st',
      e_call (engine user k) (VFun (FUser mc menv)) [item; VFun (FRead idx)] st
      = Ok out st' /\
      same_graph st st' /\
      (exists l, calls st' = calls st ++ (FUser mc menv, [item; VFun (FRead idx)]) :: l) /\
      called_times mc st' = S (called_times mc st).

(** The key of an item: the item itself, or what a pure key function of
    the client returns for it. *)
Definition pure_key (user : nat -> list Val -> list Val -> Prog Val) (mc : nat)
    (key : option Fn) (keyf : Val -> Val) : Prop :=
  match key with
  | None => forall x, keyf x = x
  | Some f => exists c env g,
      f = FUser c env /\ c <> mc /\
      (forall args, user c env args = Ret (g args)) /\
      forall x, keyf x = g [x]
  end.

(** Where the reconciliation puts the entries of the old table: an entry
    whose key is among [keys] moves to the position of that key. *)
Fixpoint position (k : Val) (keys : list Val) : option nat :=
  match keys with
  | [] => None
  | k' :: rest => if js_eq k k' then Some 0 else S <$> position k rest
  end.

Definition moved (i : nat) (keys : list Val) (r : Row) : Row :=
  match position (r_key r) keys with
  | Some j => with_pos (i + j) r
  | None => r
  end.

Lemma js_eq_sym (a b : Val) : js_eq a b = js_eq b a.
Proof.
  destruct a, b; cbn; try done.
  - by destruct b, b0.
  - apply Z.eqb_sym.
  - apply String.eqb_sym.
  - apply Nat.eqb_sym.
  - apply Nat.eqb_sym.
  - destruct (same_fn f f0), (same_fn f0 f); congruence.
Qed.

Lemma js_eq_trans (a b c : Val) :
  js_eq a b = true -> js_eq b c = true -> js_eq a c = true.
Proof.
  destruct a, b; cbn; try done; destruct c; cbn; try done.
  - destruct b, b0, b1; done.
  - rewrite !Z.eqb_eq. congruence.
  - rewrite !String.eqb_eq. congruence.
  - rewrite !Nat.eqb_eq. congruence.
  - rewrite !Nat.eqb_eq. congruence.
  - destruct (same_fn f f0), (same_fn f0 f1), (same_fn f f1); congruence.
Qed.

(** A function value is strictly equal to itself. *)
Lemma js_eq_fun_refl (f : Fn) : js_eq (VFun f) (VFun f) = true.
Proof. cbn. by destruct (same_fn f f). Qed.

Lemma table_get_table_of (k : Val) (rows : list Row) :
  table_get k (table_of rows) = entry_of <$> find_row k rows.
Proof.
  induction rows as [|r rows IH]; cbn; [done|].
  destruct (js_eq k (r_key r)); [done|apply IH].
Qed.

(** What step 3 does to the row of key [k]. *)
Definition mark (k : Val) (i : nat) (r : Row) : Row :=
  if js_eq k (r_key r) then with_pos i r else r.

(** The keys of [kis] that the table does not know, with their items and
    positions, counted from [i]. *)
Fixpoint fresh_keys (i : nat) (kis : list (Val * Val)) (known : list Val)
  : list (Val * Val * nat) :=
  match kis with
  | [] => []
  | (k, x) :: rest =>
      (if has_key k known then [] else [(k, x, i)]) ++ fresh_keys (S i) rest known
  end.

(** A row made for a new key, out of nodes from [n0] on. *)
Definition new_row (n0 : nat) (kxp : Val * Val * nat) (r : Row) : Prop :=
  r_key r = fst (fst kxp) /\ r_item r = snd (fst kxp) /\ r_pos r = snd kxp /\
  n0 <= r_index r /\ n0 <= r_child r.

(** The output for a key. *)
Definition out_for (rows : list Row) (k : Val) : Val :=
  match find_row k rows with
  | Some r => r_out r
  | None => VUndef
  end.

(** What the body of the mapper leaves in place: the stack, the queue, and
    the nodes that are not among [ids]. *)
Definition mapper_frame (ids : list nat) (st st' : State) : Prop :=
  active st' = active st /\ pending st' = pending st /\
  flushing st' = flushing st /\
  length (nodes st) <= length (nodes st') /\
  (forall n, n < length (nodes st) -> n ∉ ids -> node n st' = node n st) /\
  (exists l, calls st' = calls st ++ l).

Lemma has_key_false (k : Val) (ks : list Val) :
  has_key k ks = false <-> forall y, In y ks -> js_eq k y = false.
Proof.
  unfold has_key. induction ks as [|y ks IH]; cbn.
  - split; [intros _ y []|done].
  - rewrite orb_false_iff, IH. split.
    + intros [H1 H2] z [<-|Hz]; auto.
    + intros H. split; [apply H; by left|]. intros z Hz. apply H. by right.
Qed.

Lemma has_key_true (k : Val) (ks : list Val) :
  has_key k ks = true <-> exists y, In y ks /\ js_eq k y = true.
Proof. unfold has_key. apply existsb_exists. Qed.

Lemma has_key_app (k : Val) (l1 l2 : list Val) :
  has_key k (l1 ++ l2) = has_key k l1 || has_key k l2.
Proof. unfold has_key. apply existsb_app. Qed.

Lemma find_row_None (k : Val) (rows : list Row) :
  find_row k rows = None <-> has_key k (map r_key rows) = false.
Proof.
  unfold find_row, has_key. induction rows as [|r rows IH]; cbn; [done|].
  destruct (js_eq k (r_key r)); cbn; [split; discriminate|exact IH].
Qed.

Lemma find_row_Some (k : Val) (rows : list Row) (r : Row) :
  find_row k rows = Some r -> In r rows /\ js_eq k (r_key r) = true.
Proof. apply find_some. Qed.

Lemma position_None (k : Val) (ks : list Val) :
  position k ks = None <-> has_key k ks = false.
Proof.
  unfold has_key. induction ks as [|y ks IH]; cbn; [done|].
  destruct (js_eq k y); cbn; [split; discriminate|].
  rewrite <- IH. destruct (position k ks); cbn; split; done.
Qed.

Lemma position_lookup (k : Val) (ks : list Val) (j : nat) :
  position k ks = Some j ->
  exists y, nth_error ks j = Some y /\ js_eq k y = true.
Proof.
  revert j. induction ks as [|y ks IH]; intros j; cbn; [done|].
  destruct (js_eq k y) eqn:E.
  - intros [= <-]. by exists y.
  - destruct (position k ks) as [j'|]; cbn; [|done].
    intros [= <-]. by apply IH.
Qed.

Lemma js_eq_trans_false (a b c : Val) :
  js_eq a b = true -> js_eq a c = false -> js_eq b c = false.
Proof.
  intros H1 H2. destruct (js_eq b c) eqn:E; [|done].
  by rewrite (js_eq_trans a b c H1 E) in H2.
Qed.

Lemma with_pos_same (r : Row) : with_pos (r_pos r) r = r.
Proof. by destruct r. Qed.

Lemma table_of_mark (k : Val) (i : nat) (rows : list Row) :
  table_of (map (mark k i) rows) = table_of rows.
Proof.
  unfold table_of. rewrite map_map. apply map_ext. intros r.
  unfold mark. by destruct (js_eq k (r_key r)).
Qed.

Lemma row_ids_mark (k : Val) (i : nat) (rows : list Row) :
  row_ids (map (mark k i) rows) = row_ids rows.
Proof.
  unfold row_ids. induction rows as [|r rows IH]; cbn; [done|].
  rewrite IH. unfold mark. by destruct (js_eq k (r_key r)).
Qed.

Lemma keys_mark (k : Val) (i : nat) (rows : list Row) :
  map r_key (map (mark k i) rows) = map r_key rows.
Proof.
  rewrite map_map. apply map_ext. intros r.
  unfold mark. by destruct (js_eq k (r_key r)).
Qed.

Lemma moved_mark (k : Val) (i : nat) (rest : list Val) (r : Row) :
  has_key k rest = false ->
  moved (S i) rest (mark k i r) = moved i (k :: rest) r.
Proof.
  intros Hk. unfold mark, moved. cbn [position]. rewrite (js_eq_sym (r_key r) k).
  destruct (js_eq k (r_key r)) eqn:E.
  - cbn [with_pos r_key]. rewrite Nat.add_0_r.
    assert (position (r_key r) rest = None) as ->; [|done].
    apply position_None, has_key_false. intros y Hy.
    apply (js_eq_trans_false k); [done|].
    by apply (proj1 (has_key_false k rest) Hk).
  - destruct (position (r_key r) rest) as [j|]; cbn; [|done].
    by rewrite Nat.add_succ_r.
Qed.

Lemma moved_unknown (k : Val) (i : nat) (rest : list Val) (r : Row) :
  js_eq k (r_key r) = false ->
  moved i (k :: rest) r = moved (S i) rest r.
Proof.
  intros E. unfold moved. cbn [position]. rewrite (js_eq_sym (r_key r) k), E.
  destruct (position (r_key r) rest) as [j|]; cbn; [|done].
  by rewrite Nat.add_succ_r.
Qed.

Lemma moved_absent (i : nat) (keys : list Val) (r : Row) :
  has_key (r_key r) keys = false -> moved i keys r = r.
Proof.
  intros H. unfold moved. by rewrite (proj2 (position_None _ _) H).
Qed.

Lemma fresh_keys_snoc (k : Val) (kis : list (Val * Val)) (known : list Val) :
  has_key k (map fst kis) = false ->
  forall i, fresh_keys i kis (known ++ [k]) = fresh_keys i kis known.
Proof.
  induction kis as [|[k' x] kis IH]; intros Hk i; cbn; [done|].
  cbn in Hk. apply orb_false_iff in Hk as [H1 H2]. rewrite IH by done.
  rewrite has_key_app. cbn. rewrite (js_eq_sym k' k), H1.
  by rewrite !orb_false_r.
Qed.

Lemma distinct_keys_snoc (ks : list Val) (k : Val) :
  distinct_keys ks = true -> js_eq k k = true -> has_key k ks = false ->
  distinct_keys (ks ++ [k]) = true.
Proof.
  intros Hd Hk Hn. induction ks as [|y ks IH]; cbn in *.
  - by rewrite Hk.
  - apply andb_true_iff in Hd as [Hd1 Hd3]. apply andb_true_iff in Hd1 as [Hd1 Hd2].
    apply orb_false_iff in Hn as [Hn1 Hn2].
    rewrite Hd1, has_key_app, IH by done. cbn.
    rewrite (js_eq_sym y k), Hn1. apply negb_true_iff in Hd2. by rewrite Hd2.
Qed.

(** The source signal of a mapper: a plain node that holds an array. *)
Definition source_node (b : nat) (items : list Val) (obs : list nat) (sn : Node)
  : Prop :=
  value sn = VArr b items /\ compute sn = None /\ disposed sn = false /\
  stale sn = false /\ equals sn = None /\ observers sn = obs.

(** The memo of a mapper, read by no other computation. *)
Definition mapper_node (mapFn : Fn) (t s : nat) (key : option Fn) (stl : bool)
    (srcs : list nat) (mn : Node) : Prop :=
  compute mn = Some (FMapper false (VFun (FRead s)) (VFun mapFn) key t) /\
  stale mn = stl /\ disposed mn = false /\ cleanups mn = [] /\
  children mn = [] /\ observers mn = [] /\ isEffect mn = false /\
  sources mn = srcs.

(** The mapper [m] over the source [s] is to be recomputed: it was just
    created, or the source was written. *)
Definition Outdated (mapFn : Fn) (t : nat) (key : option Fn) (s m : nat)
    (items : list Val) (rows : list Row) (st : State) : Prop :=
  active st = [] /\ pending st = [] /\ flushing st = false /\ s <> m /\
  (exists sn mn b obs srcs,
     node s st = Some sn /\ node m st = Some mn /\
     source_node b items obs sn /\ mapper_node mapFn t s key true srcs mn /\
     ((srcs = [] /\ obs = []) \/ (srcs = [s] /\ obs = [m]))) /\
  Rows mapFn t st rows /\ (s ∉ row_ids rows) /\ (m ∉ row_ids rows).

(** The mapper [m] is up to date: its value is the array of the outputs,
    in the order of the source's items, and the table holds one row per
    key, at its position. *)
Definition Mapped (mapFn : Fn) (t : nat) (key : option Fn) (keyf : Val -> Val)
    (s m : nat) (items : list Val) (rows : list Row) (outs : list Val)
    (st : State) : Prop :=
  active st = [] /\ pending st = [] /\ flushing st = false /\ s <> m /\
  (exists sn mn b a,
     node s st = Some sn /\ node m st = Some mn /\
     source_node b items [m] sn /\ mapper_node mapFn t s key false [s] mn /\
     value mn = VArr a outs) /\
  Rows mapFn t st rows /\ (s ∉ row_ids rows) /\ (m ∉ row_ids rows) /\
  distinct_keys (map keyf items) = true /\
  outs = map (out_for rows) (map keyf items) /\
  Forall (fun r => position (r_key r) (map keyf items) = Some (r_pos r)) rows /\
  Forall (fun k => has_key k (map r_key rows) = true) (map keyf items).

Lemma called_times_log_other (c : nat) (f : Fn) (args : list Val) (st : State) :
  (forall env, f <> FUser c env) ->
  called_times c (log_call f args st) = called_times c st.
Proof.
  intros Hf. unfold called_times, count_calls; cbn.
  rewrite List.filter_app, length_app. cbn. unfold is_code at 2; cbn.
  destruct f; try (cbn; lia).
  destruct (Nat.eqb_spec code c) as [->|]; cbn; [|lia].
  by destruct (Hf env).
Qed.

Lemma run_bind_ok {A B : Type} (rec : Engine) (p : Prog A) (f : A -> Prog B)
    (st : State) (a : A) (st1 : State) :
  run rec p st = Ok a st1 -> run rec (bind p f) st = run rec (f a) st1.
Proof. intros H. rewrite run_bind. unfold mbind. by rewrite H. Qed.

Lemma enter_unsourced (n : nat) (nd : Node) (st : State) :
  node n st = Some nd -> sources nd = [] ->
  enter n st = set_active (n :: active st) (upd n with_run st).
Proof.
  intros Hn Hs. unfold enter, detach_sources. rewrite Hn, Hs. cbn [fold_left].
  rewrite (upd_same n (with_sources []) st); [done|].
  intros x. rewrite Hn. intros [= <-]. destruct nd; cbn in *. by subst.
Qed.

(** Projections of updated states, as rewrite rules. *)
Lemma nodes_upd n f st : nodes (upd n f st) = alter f n (nodes st).
Proof. done. Qed.
Lemma nodes_set_active a st : nodes (set_active a st) = nodes st.
Proof. done. Qed.
Lemma nodes_set_pending p st : nodes (set_pending p st) = nodes st.
Proof. done. Qed.
Lemma nodes_set_flushing b st : nodes (set_flushing b st) = nodes st.
Proof. done. Qed.
Lemma nodes_set_tables f st : nodes (set_tables f st) = nodes st.
Proof. done. Qed.
Lemma nodes_bump_addr st : nodes (bump_addr st) = nodes st.
Proof. done. Qed.
Lemma nodes_log_call f a st : nodes (log_call f a st) = nodes st.
Proof. done. Qed.
Lemma nodes_set_nodes f st : nodes (set_nodes f st) = f (nodes st).
Proof. done. Qed.
Lemma nodes_leave n v saved st :
  nodes (leave n v saved st)
  = alter (fun x => with_stale false (with_value v x)) n (nodes st).
Proof. done. Qed.

Create Rewrite HintDb state.
#[local] Hint Rewrite nodes_upd nodes_set_active nodes_set_pending
  nodes_set_flushing nodes_set_tables nodes_bump_addr nodes_log_call
  nodes_set_nodes nodes_leave : state.

Section MapperProof.

Variable user : nat -> list Val -> list Val -> Prog Val.
Variable k0 mc : nat.
Variable menv : list Val.
Variable accepts : Val -> Prop.
Hypothesis Hplain : plain_mapFn user k0 mc menv accepts.
Variable t : nat.

Let mapFn : Fn := FUser mc menv.

(** Step 2 for a new key. *)
Lemma add_child_spec (k i : nat) (kv item : Val) (T : Table) (st : State) :
  k0 <= k -> accepts item -> stack_ok st -> tables st !! t = Some T ->
  let n0 := length (nodes st) in
  exists out st',
    run (engine user (S k)) (add_child false (VFun mapFn) t i kv item) st
    = Ok tt st' /\
    nodes st' = nodes st ++ [index_node i; child_node (VFun mapFn) item n0 out] /\
    tables st'
    = <[t := T ++ [(kv, {| e_child := S n0; e_index := n0; e_item := None |})]]>
        (tables st) /\
    active st' = active st /\ pending st' = pending st /\
    flushing st' = flushing st /\
    (exists l, calls st' = calls st ++ l /\
               (mapFn, [item; VFun (FRead n0)]) ∈ l) /\
    called_times mc st' = S (called_times mc st).
Proof.
  intros Hk Hacc Hok HT n0.
  set (st1 := set_nodes (fun ns => ns ++ [new_node (VNum (Z.of_nat i)) None None]) st).
  set (cn := new_node VUndef (Some (FMapChild (VFun mapFn) item n0)) None).
  set (st2 := set_nodes (fun ns => ns ++ [cn]) st1).
  set (st3 := log_call (FMapChild (VFun mapFn) item n0) []
                (set_active (S n0 :: active st) (upd (S n0) with_run st2))).
  destruct (Hplain k item n0 st3 Hk Hacc) as (out&st4&E4&(G1&G2&G3&G4&G5)&[l4 L4]&C4).
  set (st5 := leave (S n0) out (active st) st4).
  set (st6 := set_tables
                (fun ts => <[t := T ++ [(kv, {| e_child := S n0; e_index := n0;
                                                 e_item := None |})]]> ts) st5).
  exists out, st6.
  assert (L1 : length (nodes st1) = S n0).
  { unfold st1; cbn. rewrite length_app; cbn. unfold n0. lia. }
  assert (N2 : nodes st2 = nodes st ++ [index_node i; cn]).
  { unfold st2, st1; cbn. by rewrite <- app_assoc. }
  assert (Hc : node (S n0) st2 = Some cn).
  { unfold node. rewrite N2. rewrite lookup_app_r by (unfold n0; lia).
    replace (S n0 - length (nodes st)) with 1 by (unfold n0; lia). done. }
  assert (Ha : S n0 ∉ active st2).
  { intros Hin. apply Hok in Hin. unfold n0 in Hin. lia. }
  assert (N3 : nodes st3 = nodes st ++ [index_node i; with_run cn]).
  { unfold st3. autorewrite with state. rewrite N2.
    rewrite alter_app_r_alt by (unfold n0; lia).
    replace (S n0 - length (nodes st)) with 1 by (unfold n0; lia). done. }
  assert (N5 : nodes st5
               = nodes st ++ [index_node i; child_node (VFun mapFn) item n0 out]).
  { unfold st5. autorewrite with state. rewrite G1, N3.
    rewrite alter_app_r_alt by (unfold n0; lia).
    replace (S n0 - length (nodes st)) with 1 by (unfold n0; lia). done. }
  split_and!.
  - unfold add_child, createDetached, update, getTable, putTable.
    erewrite run_bind_ok; [|rewrite run_perform; cbn; reflexivity].
    fold n0 st1. cbn [bind].
    erewrite run_bind_ok; [|rewrite run_perform; cbn; reflexivity].
    rewrite L1. fold cn st2.
    erewrite run_bind_ok; [|].
    2:{ rewrite run_perform. cbn [do_op]. unfold update_node. rewrite Hc.
        rewrite bool_decide_eq_false_2 by done.
        cbn [cn stale new_node]. rewrite bool_decide_eq_true_2 by eauto.
        unfold recompute, mbind at 1. unfold run_cleanups. rewrite Hc.
        cbn [cn cleanups new_node rev call_all mret].
        rewrite (upd_same (S n0) (with_cleanups []) st2)
          by (intros nd; rewrite Hc; by intros [= <-]).
        unfold mbind at 1. unfold dispose_children. rewrite Hc.
        cbn [cn children new_node dispose_all mret].
        rewrite (upd_same (S n0) (with_children []) st2)
          by (intros nd; rewrite Hc; by intros [= <-]).
        unfold execute. rewrite (enter_unsourced _ _ _ Hc) by done.
        change (active st2) with (active st).
        change (node ?n (set_active ?a ?s)) with (node n s).
        rewrite node_upd_eq, Hc.
        change ((with_run <$> Some cn) ≫= compute)
          with (Some (FMapChild (VFun mapFn) item n0)).
        cbn [engine step e_call]. unfold call_fn. cbn [fn_body].
        fold st3. unfold call. rewrite run_perform. cbn [do_op].
        unfold mapFn. rewrite E4. reflexivity. }
    fold st5.
    erewrite run_bind_ok; [|rewrite run_perform; cbn; reflexivity].
    rewrite run_perform. cbn [do_op modify].
    unfold st6. rewrite G5.
    change (tables st3) with (tables st). by rewrite HT.
  - exact N5.
  - unfold st6, st5; cbn. by rewrite G5.
  - done.
  - unfold st6, st5; cbn. by rewrite G3.
  - unfold st6, st5; cbn. by rewrite G4.
  - exists ((FMapChild (VFun mapFn) item n0, []) :: (mapFn, [item; VFun (FRead n0)]) :: l4).
    split.
    + unfold st6, st5; cbn. rewrite L4. unfold st3; cbn. by rewrite <- app_assoc.
    + apply elem_of_cons. right. apply elem_of_cons. by left.
  - change (called_times mc st6) with (called_times mc st4). rewrite C4.
    f_equal. unfold st3. by rewrite called_times_log_other.
Qed.

Lemma js_eq_num (a b : nat) :
  js_eq (VNum (Z.of_nat a)) (VNum (Z.of_nat b)) = Nat.eqb a b.
Proof.
  cbn. destruct (Nat.eqb_spec a b) as [->|H].
  - apply Z.eqb_refl.
  - apply Z.eqb_neq. lia.
Qed.

(** Step 3 for a key that persists: the index signal holds the new
    position afterwards. *)
Lemma move_child_spec (k i : nat) (r : Row) (item : Val) (st : State) :
  node (r_index r) st = Some (index_node (r_pos r)) -> pending st = [] ->
  run (engine user (S k)) (move_child i (entry_of r) item) st
  = Ok tt (upd (r_index r) (with_value (num i)) st).
Proof.
  intros Hn Hp. unfold move_child, peek, write, num.
  cbn [entry_of e_item e_index].
  cbn [bind]. rewrite (run_bind_ok _ _ _ _ (num (r_pos r)) st).
  2:{ rewrite run_perform. cbn. unfold current_value. by rewrite Hn. }
  unfold num. rewrite js_eq_num.
  destruct (Nat.eqb_spec (r_pos r) i) as [He|Hne].
  { cbn. f_equal. symmetry. apply upd_same. intros nd. rewrite Hn.
    intros [= <-]. by rewrite He. }
  rewrite run_perform. cbn [do_op].
  rewrite (write_node_plain _ _ (index_node (r_pos r))) by done.
  cbn [index_node new_node value]. unfold num. rewrite js_eq_num.
  destruct (Nat.eqb_spec i (r_pos r)) as [He|_]; [by destruct Hne|].
  rewrite notify_unobserved.
  - cbn [engine]. apply flush_pass_settled. intros _. exact Hp.
  - unfold observers_of, field_of. by rewrite node_upd_eq, Hn.
Qed.

(** *** The table invariant along the steps *)

Lemma elem_of_row_ids (n : nat) (rows : list Row) :
  n ∈ row_ids rows <-> exists r, In r rows /\ (n = r_child r \/ n = r_index r).
Proof.
  unfold row_ids. rewrite list_elem_of_In, in_flat_map. split.
  - intros (r&Hr&[<- | [<- | []]]); exists r; auto.
  - intros (r&Hr&[-> | ->]); exists r; cbn; auto.
Qed.

Lemma rows_same_key (rows : list Row) (r r' : Row) :
  distinct_keys (map r_key rows) = true -> In r rows -> In r' rows ->
  js_eq (r_key r) (r_key r') = true -> r = r'.
Proof.
  induction rows as [|a rows IH]; cbn; [done|].
  intros Hd H1 H2 E.
  apply andb_true_iff in Hd as [Hd Hd3]. apply andb_true_iff in Hd as [Hd1 Hd2].
  apply negb_true_iff in Hd2.
  pose proof (proj1 (has_key_false _ _) Hd2) as Hn.
  destruct H1 as [<-|H1], H2 as [<-|H2]; [done| | |by apply IH].
  - rewrite Hn in E; [done|]. by apply in_map.
  - rewrite js_eq_sym, Hn in E; [done|]. by apply in_map.
Qed.

Lemma row_ids_apart (rows : list Row) (r r' : Row) (a b : nat) :
  NoDup (row_ids rows) -> In r rows -> In r' rows -> r <> r' ->
  a = r_child r \/ a = r_index r -> b = r_child r' \/ b = r_index r' -> a <> b.
Proof.
  induction rows as [|x rows IH]; cbn; [done|].
  intros Hnd H1 H2 Hne Ha Hb.
  apply list.NoDup_cons in Hnd as [Hc Hnd]. apply list.NoDup_cons in Hnd as [Hi Hnd].
  assert (Hx : forall y n, In y rows -> n = r_child y \/ n = r_index y ->
                           n <> r_child x /\ n <> r_index x).
  { intros y n Hy Hn. split; intros ->.
    - apply Hc. apply elem_of_cons. right. apply elem_of_row_ids. eauto.
    - apply Hi. apply elem_of_row_ids. eauto. }
  destruct H1 as [<-|H1], H2 as [<-|H2]; [done| | |by eapply IH].
  - destruct (Hx r' b H2 Hb) as [N1 N2]. destruct Ha as [-> | ->]; congruence.
  - destruct (Hx r a H1 Ha) as [N1 N2]. destruct Hb as [-> | ->]; congruence.
Qed.

Lemma row_child_index (rows : list Row) (r : Row) :
  NoDup (row_ids rows) -> In r rows -> r_child r <> r_index r.
Proof.
  induction rows as [|x rows IH]; cbn; [done|].
  intros Hnd [<-|H1].
  - apply list.NoDup_cons in Hnd as [Hc _]. intros E. apply Hc. rewrite E.
    apply elem_of_cons. by left.
  - apply list.NoDup_cons in Hnd as [_ Hnd]. apply list.NoDup_cons in Hnd as [_ Hnd]. auto.
Qed.

Lemma Rows_bound (rows : list Row) (st : State) (n : nat) :
  Rows mapFn t st rows -> n ∈ row_ids rows -> n < length (nodes st).
Proof.
  intros (_&Hok&_) Hn. apply elem_of_row_ids in Hn as (r&Hr&Hn).
  rewrite Forall_forall in Hok. destruct (Hok r Hr) as (H1&H2&_).
  destruct Hn as [-> | ->]; eapply lookup_lt_Some; [apply H1|apply H2].
Qed.

(** Nothing the rows speak of has changed. *)
Lemma Rows_frame (rows : list Row) (st st' : State) :
  Rows mapFn t st rows ->
  tables st' !! t = tables st !! t ->
  (forall n, n ∈ row_ids rows -> node n st' = node n st) ->
  (forall c, c ∈ calls st -> c ∈ calls st') ->
  Rows mapFn t st' rows.
Proof.
  intros (HT&Hok&Hnd&Hd) Ht Hn Hc. split_and!; [by rewrite Ht| |done|done].
  rewrite Forall_forall in *. intros r Hr. destruct (Hok r Hr) as (H1&H2&H3).
  split_and!.
  - rewrite Hn; [done|]. apply elem_of_row_ids. eauto.
  - rewrite Hn; [done|]. apply elem_of_row_ids. eauto.
  - by apply Hc.
Qed.

Lemma Rows_move (k : Val) (i : nat) (r : Row) (rows : list Row) (st : State) :
  Rows mapFn t st rows -> find_row k rows = Some r ->
  Rows mapFn t (upd (r_index r) (with_value (num i)) st) (map (mark k i) rows).
Proof.
  intros (HT&Hok&Hnd&Hd) Hf. apply find_row_Some in Hf as [Hr Hk].
  split_and!.
  - by rewrite table_of_mark.
  - rewrite Forall_forall in *. intros r' Hr'. apply in_map_iff in Hr' as (x&<-&Hx).
    destruct (Hok x Hx) as (H1&H2&H3). unfold mark.
    destruct (js_eq k (r_key x)) eqn:E.
    + assert (x = r) as ->.
      { apply (rows_same_key rows); [done..|].
        apply (js_eq_trans _ k); [by rewrite js_eq_sym|done]. }
      split_and!; cbn [with_pos r_child r_index r_item r_out r_pos].
      * rewrite node_upd_ne; [done|]. intros E'.
        by apply (row_child_index rows r Hnd Hr).
      * by rewrite node_upd_eq, H2.
      * done.
    + assert (x <> r) by (intros ->; congruence).
      split_and!.
      * rewrite node_upd_ne; [done|].
        apply (row_ids_apart rows r x); auto.
      * rewrite node_upd_ne; [done|].
        apply (row_ids_apart rows r x); auto.
      * done.
  - by rewrite row_ids_mark.
  - by rewrite keys_mark.
Qed.

Lemma row_ids_app (l1 l2 : list Row) :
  row_ids (l1 ++ l2) = row_ids l1 ++ row_ids l2.
Proof. unfold row_ids. apply flat_map_app. Qed.

Lemma table_of_app (l1 l2 : list Row) :
  table_of (l1 ++ l2) = table_of l1 ++ table_of l2.
Proof. unfold table_of. apply map_app. Qed.

Lemma Rows_add (k item out : Val) (i : nat) (rows : list Row) (st st' : State) :
  Rows mapFn t st rows -> find_row k rows = None -> js_eq k k = true ->
  let n0 := length (nodes st) in
  nodes st' = nodes st ++ [index_node i; child_node (VFun mapFn) item n0 out] ->
  tables st' = <[t := table_of rows
                        ++ [(k, {| e_child := S n0; e_index := n0; e_item := None |})]]>
                 (tables st) ->
  (exists l, calls st' = calls st ++ l /\ (mapFn, [item; VFun (FRead n0)]) ∈ l) ->
  Rows mapFn t st'
    (rows ++ [{| r_key := k; r_item := item; r_child := S n0; r_index := n0;
                 r_out := out; r_pos := i |}]).
Proof.
  intros HR Hf Hk n0 HN HT (l&HL&Hl).
  pose proof (Rows_bound rows st) as Hb. specialize (fun n => Hb n HR).
  destruct HR as (HT0&Hok&Hnd&Hd).
  split_and!.
  - rewrite HT, table_of_app. apply list_lookup_insert_eq.
    eapply lookup_lt_Some, HT0.
  - apply Forall_app. split.
    + rewrite Forall_forall in *. intros r Hr. destruct (Hok r Hr) as (H1&H2&H3).
      unfold row_ok, node in *. rewrite HN, HL.
      split_and!.
      * rewrite lookup_app_l; [done|]. eapply lookup_lt_Some, H1.
      * rewrite lookup_app_l; [done|]. eapply lookup_lt_Some, H2.
      * apply elem_of_app. by left.
    + constructor; [|constructor]. unfold row_ok, node; cbn. rewrite HN, HL.
      split_and!.
      * rewrite lookup_app_r by (unfold n0; lia).
        by replace (S n0 - length (nodes st)) with 1 by (unfold n0; lia).
      * rewrite lookup_app_r by (unfold n0; lia).
        by replace (n0 - length (nodes st)) with 0 by (unfold n0; lia).
      * apply elem_of_app. by right.
  - rewrite row_ids_app. apply list.NoDup_app. split_and!; [done| |].
    + intros n Hn Hn'. apply Hb in Hn. cbn in Hn'.
      apply elem_of_cons in Hn' as [->|Hn']; [unfold n0 in Hn; lia|].
      apply elem_of_cons in Hn' as [->|Hn']; [unfold n0 in Hn; lia|].
      by apply elem_of_nil in Hn'.
    + cbn. apply list.NoDup_cons. split; [|apply NoDup_singleton].
      intros Hn. apply list_elem_of_singleton in Hn. lia.
  - rewrite map_app. cbn. apply distinct_keys_snoc; [done..|].
    by apply find_row_None.
Qed.

Lemma mapper_frame_refl (ids : list nat) (st : State) : mapper_frame ids st st.
Proof. unfold mapper_frame. split_and!; try done. by exists []; rewrite app_nil_r. Qed.

Lemma mapper_frame_trans (ids ids' : list nat) (st1 st2 st3 : State) :
  mapper_frame ids st1 st2 -> mapper_frame ids' st2 st3 ->
  (forall n, n < length (nodes st1) -> n ∉ ids -> n ∉ ids') ->
  mapper_frame ids st1 st3.
Proof.
  intros (A1&P1&F1&L1&N1&[l1 C1]) (A2&P2&F2&L2&N2&[l2 C2]) Hi.
  unfold mapper_frame. split_and!; try congruence; [lia| |].
  - intros n Hn Hid. rewrite N2; [by apply N1|lia|by apply Hi].
  - exists (l1 ++ l2). by rewrite C2, C1, app_assoc.
Qed.

Lemma moved_nil (i : nat) (rows : list Row) : map (moved i []) rows = rows.
Proof. rewrite <- (map_id rows) at 2. by apply map_ext. Qed.

(** Steps 2 and 3. *)
Lemma reconcile_spec (k : nat) (kis : list (Val * Val)) :
  forall (i : nat) (rows : list Row) (st : State),
  k0 <= k -> Forall accepts (map snd kis) -> distinct_keys (map fst kis) = true ->
  stack_ok st -> pending st = [] -> Rows mapFn t st rows ->
  exists news st',
    run (engine user (S k)) (reconcile false (VFun mapFn) t i kis) st = Ok tt st' /\
    Rows mapFn t st' (map (moved i (map fst kis)) rows ++ news) /\
    Forall2 (new_row (length (nodes st)))
            (fresh_keys i kis (map r_key rows)) news /\
    mapper_frame (row_ids rows) st st' /\
    called_times mc st' = called_times mc st + length news.
Proof.
  induction kis as [|[kv x] kis IH]; intros i rows st Hk Hacc Hd Hok Hp HR.
  { exists [], st. cbn [map fresh_keys reconcile run]. cbn [length].
    rewrite moved_nil, app_nil_r.
    split_and!; [done|done|constructor|apply mapper_frame_refl|lia]. }
  cbn [map fst snd] in Hacc, Hd. cbn [distinct_keys] in Hd.
  apply andb_true_iff in Hd as [Hd Hd3]. apply andb_true_iff in Hd as [Hd1 Hd2].
  apply negb_true_iff in Hd2. apply list.Forall_cons in Hacc as [Hx Hacc].
  pose proof HR as (HT&Hrok&Hnd&Hdk).
  cbn [reconcile]. unfold getTable.
  assert (EG : forall B (f : Table -> Prog B),
            run (engine user (S k)) (bind (perform (OGetTable t)) f) st
            = run (engine user (S k)) (f (table_of rows)) st).
  { intros B f. erewrite run_bind_ok; [done|]. rewrite run_perform. cbn.
    by rewrite HT. }
  rewrite EG. rewrite table_get_table_of.
  destruct (find_row kv rows) as [r|] eqn:Ef; cbn [fmap option_fmap option_map].
  - (* the key persists *)
    pose proof (find_row_Some _ _ _ Ef) as [Hr Hkr].
    rewrite Forall_forall in Hrok. destruct (Hrok r Hr) as (_&Hidx&_).
    set (st1 := upd (r_index r) (with_value (num i)) st).
    destruct (IH (S i) (map (mark kv i) rows) st1) as (news&st'&E&HR'&HN&HF&HC);
      try done.
    { intros n Hn. unfold st1. rewrite length_upd. by apply Hok. }
    { by apply Rows_move. }
    exists news, st'. split_and!.
    + erewrite run_bind_ok; [exact E|]. by apply move_child_spec.
    + rewrite map_map in HR'.
      erewrite (map_ext (fun r0 => moved (S i) (map fst kis) (mark kv i r0))) in HR';
        [exact HR'|]. intros a. cbn [map fst]. by apply moved_mark.
    + cbn [fresh_keys].
      assert (has_key kv (map r_key rows) = true) as ->.
      { destruct (has_key kv (map r_key rows)) eqn:E'; [done|].
        apply find_row_None in E'. congruence. }
      cbn [app]. rewrite keys_mark in HN. unfold st1 in HN.
      by rewrite length_upd in HN.
    + apply (mapper_frame_trans _ (row_ids (map (mark kv i) rows)) _ st1); [|done|].
      * unfold mapper_frame, st1. rewrite length_upd.
        split_and!; try done; [|by exists []; rewrite app_nil_r].
        intros n Hn Hid. rewrite node_upd_ne; [done|]. intros <-.
        apply Hid. apply elem_of_row_ids. eauto.
      * intros n _ Hid. by rewrite row_ids_mark.
    + by rewrite HC.
  - (* the key is new *)
    destruct (add_child_spec k i kv x (table_of rows) st Hk Hx Hok HT)
      as (out&st1&E1&N1&T1&A1&P1&F1&L1&C1).
    set (n0 := length (nodes st)) in *.
    set (rnew := {| r_key := kv; r_item := x; r_child := S n0; r_index := n0;
                    r_out := out; r_pos := i |}).
    assert (HR1 : Rows mapFn t st1 (rows ++ [rnew])) by (by apply Rows_add).
    assert (Hlen : length (nodes st1) = S (S n0)).
    { rewrite N1, length_app. cbn. unfold n0. lia. }
    destruct (IH (S i) (rows ++ [rnew]) st1) as (news&st'&E&HR'&HN&HF&HC);
      try done.
    { intros n Hn. rewrite A1 in Hn. apply Hok in Hn. fold n0 in Hn. lia. }
    { by rewrite P1. }
    exists (rnew :: news), st'. split_and!.
    + erewrite run_bind_ok; [exact E|]. exact E1.
    + rewrite map_app in HR'. cbn [map] in HR'.
      rewrite moved_absent in HR' by done.
      rewrite <- app_assoc in HR'. cbn [app] in HR'.
      erewrite (map_ext_in (moved i (map fst ((kv, x) :: kis)))); [exact HR'|].
      intros a Ha. cbn [map fst]. apply moved_unknown.
      apply find_row_None in Ef.
      apply (proj1 (has_key_false _ _) Ef). by apply in_map.
    + cbn [fresh_keys].
      assert (has_key kv (map r_key rows) = false) as -> by (by apply find_row_None).
      cbn [app]. constructor.
      * unfold new_row; cbn. split_and!; try done; lia.
      * rewrite map_app in HN. cbn [map] in HN.
        rewrite fresh_keys_snoc in HN by done.
        eapply list.Forall2_impl; [exact HN|].
        intros [[? ?] ?] r (?&?&?&?&?). unfold new_row. cbn in *.
        split_and!; try done; lia.
    + apply (mapper_frame_trans _ (row_ids (rows ++ [rnew])) _ st1); [|done|].
      * unfold mapper_frame. rewrite A1, P1, F1, Hlen.
        split_and!; try done; [fold n0; lia| |].
        -- intros n Hn _. unfold node. rewrite N1. by rewrite lookup_app_l.
        -- destruct L1 as (l&->&_). by exists l.
      * intros n Hn Hid. rewrite row_ids_app. intros Hin.
        apply elem_of_app in Hin as [Hin|Hin]; [done|]. cbn in Hin.
        apply elem_of_cons in Hin as [->|Hin]; [fold n0 in Hn; lia|].
        apply elem_of_cons in Hin as [->|Hin]; [fold n0 in Hn; lia|].
        by apply elem_of_nil in Hin.
    + rewrite HC, C1. cbn [length]. lia.
Qed.

Lemma distinct_keys_mid (l1 l2 : list Val) (k : Val) :
  distinct_keys (l1 ++ k :: l2) = true ->
  distinct_keys (l1 ++ l2) = true /\ js_eq k k = true /\
  has_key k (l1 ++ l2) = false.
Proof.
  induction l1 as [|y l1 IH]; cbn [app distinct_keys]; intros Hd.
  - apply andb_true_iff in Hd as [Hd Hd3]. apply andb_true_iff in Hd as [Hd1 Hd2].
    by apply negb_true_iff in Hd2.
  - apply andb_true_iff in Hd as [Hd Hd3]. apply andb_true_iff in Hd as [Hd1 Hd2].
    apply negb_true_iff in Hd2. destruct (IH Hd3) as (I1&I2&I3).
    rewrite has_key_app in Hd2. cbn in Hd2.
    apply orb_false_iff in Hd2 as [H1 H2]. apply orb_false_iff in H2 as [H2 H3].
    change (existsb (js_eq y) l2) with (has_key y l2) in H3.
    split_and!; [|done|].
    + rewrite Hd1, I1, has_key_app, H1, H3. done.
    + unfold has_key in *. cbn. by rewrite (js_eq_sym k y), H2, I3.
Qed.

Lemma table_remove_table_of (k : Val) (rows : list Row) :
  table_remove k (table_of rows)
  = table_of (List.filter (fun r => negb (js_eq k (r_key r))) rows).
Proof.
  unfold table_remove, table_of. induction rows as [|r rows IH]; cbn; [done|].
  rewrite IH. by destruct (js_eq k (r_key r)).
Qed.

Lemma filter_other_keys (k : Val) (rows : list Row) :
  has_key k (map r_key rows) = false ->
  List.filter (fun r => negb (js_eq k (r_key r))) rows = rows.
Proof.
  induction rows as [|r rows IH]; cbn; [done|].
  intros H. apply orb_false_iff in H as [-> H]. cbn. by rewrite IH.
Qed.

Lemma table_remove_mid (l1 l2 : list Row) (r : Row) :
  distinct_keys (map r_key (l1 ++ r :: l2)) = true ->
  table_remove (r_key r) (table_of (l1 ++ r :: l2)) = table_of (l1 ++ l2).
Proof.
  intros Hd. rewrite map_app in Hd. cbn [map] in Hd.
  apply distinct_keys_mid in Hd as (_&Hk&Hn).
  rewrite has_key_app in Hn. apply orb_false_iff in Hn as [H1 H2].
  rewrite table_remove_table_of, List.filter_app. cbn [List.filter].
  rewrite Hk. cbn [negb]. by rewrite !filter_other_keys.
Qed.

Lemma set_pending_same (st : State) (p : list nat) :
  pending st = p -> set_pending p st = st.
Proof. intros <-. by destruct st. Qed.

(** Disposing of a computation that has no sources, observers, cleanups
    or owned computations. *)
Lemma dispose_leaf (rec : Engine) (n : nat) (nd : Node) (st : State) :
  node n st = Some nd -> disposed nd = false -> cleanups nd = [] ->
  sources nd = [] -> observers nd = [] -> children nd = [] ->
  pending st = [] ->
  dispose_op rec n true st = Ok tt (upd n (with_disposed true) st).
Proof.
  intros Hn Hd Hc Hs Ho Hch Hp. unfold dispose_op. rewrite Hn, Hd.
  unfold dispose_node, mbind, run_cleanups. rewrite Hn, Hc. cbn [rev call_all mret].
  rewrite (upd_same n (with_cleanups []) st).
  2:{ intros x. rewrite Hn. intros [= <-]. destruct nd; cbn in *. by subst. }
  cbn [modify]. unfold retire, detach_sources. rewrite Hn, Hs. cbn [fold_left].
  rewrite (upd_same n (with_sources []) st).
  2:{ intros x. rewrite Hn. intros [= <-]. destruct nd; cbn in *. by subst. }
  unfold detach_observers. rewrite Hn, Ho. cbn [fold_left].
  rewrite (upd_same n (with_observers []) st).
  2:{ intros x. rewrite Hn. intros [= <-]. destruct nd; cbn in *. by subst. }
  rewrite set_pending_same by (cbn; by rewrite Hp).
  unfold dispose_children. rewrite node_upd_eq, Hn. cbn [fmap option_fmap option_map].
  replace (children (with_disposed true nd)) with (@nil nat) by (by rewrite <- Hch).
  cbn [dispose_all mret]. f_equal. apply upd_same.
  intros x. rewrite node_upd_eq, Hn. intros [= <-]. destruct nd; cbn in *. by subst.
Qed.

(** Step 4. *)
Lemma drop_missing_spec (rec : Engine) (keys : list Val) (todo : list Row) :
  forall (done : list Row) (st : State),
  Rows mapFn t st (done ++ todo) -> pending st = [] ->
  exists st',
    run rec (drop_missing t keys (table_of todo)) st = Ok tt st' /\
    Rows mapFn t st' (done ++ List.filter (fun r => has_key (r_key r) keys) todo) /\
    (forall r, In r todo -> has_key (r_key r) keys = false ->
               is_disposed (r_child r) st' = true) /\
    (forall n, (forall r, In r todo -> has_key (r_key r) keys = false ->
                          n <> r_child r) ->
               node n st' = node n st) /\
    active st' = active st /\ pending st' = pending st /\
    flushing st' = flushing st /\ calls st' = calls st /\
    length (nodes st') = length (nodes st).
Proof.
  induction todo as [|r todo IH]; intros done st HR Hp.
  { exists st. cbn. split_and!; done. }
  cbn [table_of map drop_missing List.filter].
  destruct (has_key (r_key r) keys) eqn:Ek.
  - destruct (IH (done ++ [r]) st) as (st'&E&HR'&HD&HN&A&P&F&C&L);
      [by rewrite <- app_assoc|done|].
    exists st'. split_and!; try done.
    + by rewrite <- app_assoc in HR'.
    + intros r' [<-|Hr'] Hk; [congruence|by apply HD].
    + intros n Hn. apply HN. intros r' Hr'. apply Hn. by right.
  - pose proof HR as (HT&Hok&Hnd&Hdk).
    assert (Hr : In r (done ++ r :: todo)) by (apply in_elt).
    rewrite Forall_forall in Hok. destruct (Hok r Hr) as (Hc&_&_).
    set (st1 := upd (r_child r) (with_disposed true) st).
    set (st2 := set_tables (fun ts => <[t := table_of (done ++ todo)]> ts) st1).
    assert (Hnot : r_child r ∉ row_ids (done ++ todo)).
    { rewrite row_ids_app in *. cbn in Hnd.
      apply list.NoDup_app in Hnd as (N1&N2&N3).
      apply list.NoDup_cons in N3 as [N3 N4]. apply list.NoDup_cons in N4 as [_ N4].
      intros Hin. apply elem_of_app in Hin as [Hin|Hin].
      - apply (N2 _ Hin). apply elem_of_cons. by left.
      - apply N3. apply elem_of_cons. by right. }
    assert (HR2 : Rows mapFn t st2 (done ++ todo)).
    { split_and!.
      - unfold st2; cbn. apply list_lookup_insert_eq. eapply lookup_lt_Some, HT.
      - rewrite Forall_forall. intros r' Hr'.
        assert (Hr'' : In r' (done ++ r :: todo)).
        { apply in_app_iff in Hr' as [?|?]; apply in_app_iff; [by left|].
          right. by right. }
        destruct (Hok r' Hr'') as (H1&H2&H3).
        assert (Hne : forall n, n = r_child r' \/ n = r_index r' -> r_child r <> n).
        { intros n Hn <-. apply Hnot. apply elem_of_row_ids. eauto. }
        unfold row_ok, st2, st1.
        change (node ?n (set_tables ?f ?s)) with (node n s).
        rewrite !node_upd_ne by (apply Hne; auto). done.
      - rewrite row_ids_app in *. cbn in Hnd.
        apply list.NoDup_app in Hnd as (N1&N2&N3).
        apply list.NoDup_cons in N3 as [_ N4]. apply list.NoDup_cons in N4 as [_ N4].
        apply list.NoDup_app. split_and!; [done| |done].
        intros n H1 H2. apply (N2 n H1).
        apply elem_of_cons. right. apply elem_of_cons. by right.
      - rewrite map_app in *. cbn [map] in Hdk.
        by apply distinct_keys_mid in Hdk as (?&_&_). }
    destruct (IH done st2 HR2) as (st'&E&HR'&HD&HN&A&P&F&C&L); [done|].
    exists st'. split_and!; try done.
    + unfold dispose, getTable, putTable. cbn [bind].
      erewrite run_bind_ok; [exact E|].
      erewrite run_bind_ok.
      2:{ rewrite run_perform. cbn [do_op]. by eapply dispose_leaf. }
      fold st1.
      erewrite run_bind_ok; [|rewrite run_perform; cbn; reflexivity].
      rewrite run_perform. cbn [do_op modify]. unfold st2.
      change (tables st1) with (tables st). rewrite HT. cbn [default].
      unfold id. by rewrite (table_remove_mid done todo r Hdk).
    + intros r' [<-|Hr'] Hk; [|by apply HD].
      unfold is_disposed, field_of. rewrite HN.
      * unfold st2, st1. change (node ?n (set_tables ?f ?s)) with (node n s).
        by rewrite node_upd_eq, Hc.
      * intros r' Hr' _ E'. apply Hnot. rewrite E'. apply elem_of_row_ids.
        exists r'. split; [|by left]. apply in_app_iff. by right.
    + intros n Hn. rewrite HN.
      * unfold st2, st1. change (node ?n (set_tables ?f ?s)) with (node n s).
        rewrite node_upd_ne; [done|]. intros E'. apply (Hn r); [by left|done|done].
      * intros r' Hr'. apply Hn. by right.
    + rewrite L. unfold st2, st1. apply length_upd.
Qed.

(** Step 5. *)
Lemma collect_spec (rec : Engine) (T : Table) (keys : list Val) (st : State) :
  run rec (collect T keys) st
  = Ok (map (fun k => match table_get k T with
                      | Some e => current_value (e_child e) st
                      | None => VUndef
                      end) keys) st.
Proof.
  induction keys as [|k keys IH]; cbn [collect map]; [done|].
  erewrite run_bind_ok.
  2:{ instantiate (1 := st).
      instantiate (1 := match table_get k T with
                        | Some e => current_value (e_child e) st
                        | None => VUndef
                        end).
      destruct (table_get k T); [unfold peek; by rewrite run_perform|done]. }
  erewrite run_bind_ok; [|exact IH]. done.
Qed.

Lemma collect_rows (rows : list Row) (keys : list Val) (st : State) :
  Rows mapFn t st rows ->
  map (fun k => match table_get k (table_of rows) with
                | Some e => current_value (e_child e) st
                | None => VUndef
                end) keys
  = map (out_for rows) keys.
Proof.
  intros (_&Hok&_). apply map_ext. intros k. rewrite table_get_table_of.
  unfold out_for. destruct (find_row k rows) as [r|] eqn:E; cbn; [|done].
  apply find_row_Some in E as [Hr _]. rewrite Forall_forall in Hok.
  destruct (Hok r Hr) as (H1&_). unfold current_value. by rewrite H1.
Qed.

Lemma row_ids_moved (i : nat) (keys : list Val) (rows : list Row) :
  row_ids (map (moved i keys) rows) = row_ids rows.
Proof.
  unfold row_ids. induction rows as [|r rows IH]; cbn; [done|].
  rewrite IH. unfold moved. by destruct (position (r_key r) keys).
Qed.

Lemma keys_moved (i : nat) (keys : list Val) (rows : list Row) :
  map r_key (map (moved i keys) rows) = map r_key rows.
Proof.
  rewrite map_map. apply map_ext. intros r.
  unfold moved. by destruct (position (r_key r) keys).
Qed.

Lemma combine_map_fst (f : Val -> Val) (items : list Val) :
  map fst (combine (map f items) items) = map f items.
Proof. induction items; cbn; congruence. Qed.

Lemma combine_map_snd (f : Val -> Val) (items : list Val) :
  map snd (combine (map f items) items) = items.
Proof. induction items; cbn; congruence. Qed.

(** The keys of the items, for a key function that is pure. *)
Lemma keys_of_spec (k : nat) (key : option Fn) (keyf : Val -> Val)
    (items : list Val) :
  pure_key user mc key keyf ->
  forall st, exists st',
    run (engine user (S k)) (keys_of key items) st = Ok (map keyf items) st' /\
    same_graph st st' /\ (exists l, calls st' = calls st ++ l) /\
    called_times mc st' = called_times mc st.
Proof.
  intros Hkey. induction items as [|x items IH]; intros st.
  { exists st. cbn. split_and!; try done. by exists []; rewrite app_nil_r. }
  cbn [keys_of map]. unfold key_of.
  destruct key as [f|]; cbn in Hkey.
  - destruct Hkey as (c&env&g&->&Hc&Hg&Hf).
    set (st1 := log_call (FUser c env) [x] st).
    destruct (IH st1) as (st'&E&(G1&G2&G3&G4&G5)&[l L]&C).
    exists st'. split_and!.
    + erewrite run_bind_ok.
      2:{ unfold call. rewrite run_perform. cbn [do_op engine step e_call].
          unfold call_fn. cbn [fn_body]. rewrite Hg. cbn [run mret]. reflexivity. }
      fold st1. erewrite run_bind_ok; [|exact E]. cbn. by rewrite Hf.
    + by split_and!.
    + exists ((FUser c env, [x]) :: l). rewrite L. unfold st1; cbn.
      by rewrite <- app_assoc.
    + rewrite C. unfold st1. apply called_times_log_other. congruence.
  - destruct (IH st) as (st'&E&G&L&C).
    exists st'. split_and!; try done.
    cbn [bind]. erewrite run_bind_ok; [|exact E]. cbn. by rewrite Hkey.
Qed.

Lemma set_add_nil (x : nat) : set_add x [] = [x].
Proof. unfold set_add. by rewrite bool_decide_eq_false_2 by apply not_elem_of_nil. Qed.

Lemma new_rows_ids (n0 : nat) (fk : list (Val * Val * nat)) (news : list Row) :
  Forall2 (new_row n0) fk news ->
  forall r, In r news -> n0 <= r_index r /\ n0 <= r_child r.
Proof.
  induction 1 as [|x r fk news (_&_&_&H1&H2) _ IH]; intros r' []; subst; auto.
Qed.

Lemma fresh_keys_known (i : nat) (kis : list (Val * Val)) (known : list Val) :
  Forall (fun k => has_key k known = true) (map fst kis) ->
  fresh_keys i kis known = [].
Proof.
  revert i. induction kis as [|[k x] kis IH]; intros i H; cbn; [done|].
  cbn in H. apply list.Forall_cons in H as [-> H]. cbn. by apply IH.
Qed.

Lemma fresh_keys_are_keys (i : nat) (kis : list (Val * Val)) (known : list Val) :
  forall y, In y (fresh_keys i kis known) -> In (fst (fst y)) (map fst kis).
Proof.
  revert i. induction kis as [|[k x] kis IH]; intros i y; cbn; [done|].
  intros H. apply in_app_iff in H as [H|H].
  - destruct (has_key k known); [done|]. destruct H as [<-|[]]. by left.
  - right. by eapply IH.
Qed.

Lemma new_rows_have_keys (n0 i : nat) (kis : list (Val * Val)) (known : list Val)
    (news : list Row) :
  Forall2 (new_row n0) (fresh_keys i kis known) news ->
  forall r, In r news -> In (r_key r) (map fst kis).
Proof.
  intros H r Hr.
  assert (exists y, In y (fresh_keys i kis known) /\ new_row n0 y r) as (y&Hy&(->&_)).
  { induction H as [|y r' l1 l2 H1 _ IH]; [done|]. destruct Hr as [<-|Hr].
    - exists y. split; [by left|done].
    - destruct (IH Hr) as (y'&?&?). exists y'. split; [by right|done]. }
  by apply (fresh_keys_are_keys i kis known).
Qed.

Lemma has_key_refl (k : Val) (ks : list Val) :
  distinct_keys ks = true -> In k ks -> has_key k ks = true.
Proof.
  unfold has_key.
  induction ks as [|y ks IH]; cbn [distinct_keys existsb]; [done|].
  intros Hd [<-|H].
  - apply andb_true_iff in Hd as [Hd _]. apply andb_true_iff in Hd as [-> _]. done.
  - apply andb_true_iff in Hd as [_ Hd]. rewrite IH by done. apply orb_true_r.
Qed.

(** The body of the mapper, run for the computation [m] on top of the
    stack. *)
Lemma mapper_body_spec (k s m : nat) (sn mn : Node) (b : nat) (items : list Val)
    (rows : list Row) (key : option Fn) (keyf : Val -> Val) (st : State) :
  k0 <= k -> pure_key user mc key keyf ->
  active st = [m] -> pending st = [] ->
  node s st = Some sn -> value sn = VArr b items -> disposed sn = false ->
  stale sn = false -> observers sn = [] ->
  node m st = Some mn -> sources mn = [] -> s <> m ->
  Rows mapFn t st rows -> s ∉ row_ids rows -> m ∉ row_ids rows ->
  Forall accepts items -> distinct_keys (map keyf items) = true ->
  let keys := map keyf items in
  exists news st' a,
    let rows' := List.filter (fun r => has_key (r_key r) keys)
                             (map (moved 0 keys) rows ++ news) in
    run (engine user (S k)) (mapper false (VFun mapFn) key t (VFun (FRead s))) st
    = Ok (VArr a (map (out_for rows') keys)) st' /\
    Rows mapFn t st' rows' /\
    Forall2 (new_row (length (nodes st)))
            (fresh_keys 0 (combine keys items) (map r_key rows)) news /\
    node s st' = Some (with_observers [m] sn) /\
    node m st' = Some (with_sources [s] mn) /\
    active st' = [m] /\ pending st' = [] /\ flushing st' = flushing st /\
    called_times mc st' = called_times mc st + length news /\
    (forall r, In r rows -> has_key (r_key r) keys = false ->
               is_disposed (r_child r) st' = true) /\
    (exists l, calls st' = calls st ++ l).
Proof.
  intros Hk Hkey Ha Hp Hs Hv Hsd Hss Hso Hm Hms Hsm HR Hsr Hmr Hacc Hd keys.
  pose proof (Rows_bound rows st) as Hb. specialize (fun n => Hb n HR).
  assert (Hsl : s < length (nodes st)) by (eapply lookup_lt_Some, Hs).
  assert (Hml : m < length (nodes st)) by (eapply lookup_lt_Some, Hm).
  (* the source is read *)
  set (st0 := log_call (FRead s) [] st).
  set (st1 := track s st0).
  destruct (track_frame s st0) as (A1&P1&F1&T1&_&C1&L1). fold st1 in A1, P1, F1, T1, C1, L1.
  change (nodes st0) with (nodes st) in L1.
  assert (Hs1 : node s st1 = Some (with_observers [m] sn)).
  { unfold st1, track. change (active st0) with (active st). rewrite Ha.
    rewrite node_upd_ne by done. rewrite node_upd_eq.
    change (node s st0) with (node s st). rewrite Hs. cbn.
    by rewrite Hso, set_add_nil. }
  assert (Hm1 : node m st1 = Some (with_sources [s] mn)).
  { unfold st1, track. change (active st0) with (active st). rewrite Ha.
    rewrite node_upd_eq. rewrite node_upd_ne by done.
    change (node m st0) with (node m st). rewrite Hm. cbn.
    by rewrite Hms, set_add_nil. }
  assert (Ho1 : forall n, n <> s -> n <> m -> node n st1 = node n st).
  { intros n H1 H2. unfold st1, track. change (active st0) with (active st).
    rewrite Ha. by rewrite !node_upd_ne by done. }
  assert (HR1 : Rows mapFn t st1 rows).
  { apply (Rows_frame rows st); [done|by rewrite T1| |].
    - intros n Hn. apply Ho1; intros ->; done.
    - intros c Hc. rewrite C1. cbn. apply elem_of_app. by left. }
  (* the keys *)
  destruct (keys_of_spec k key keyf items Hkey st1)
    as (st2&E2&(G1&G2&G3&G4&G5)&[l2 L2]&C2).
  assert (HR2 : Rows mapFn t st2 rows).
  { apply (Rows_frame rows st1); [done|by rewrite G5| |].
    - intros n _. unfold node. by rewrite G1.
    - intros c Hc. rewrite L2. apply elem_of_app. by left. }
  (* steps 2 and 3 *)
  destruct (reconcile_spec k (combine keys items) 0 rows st2)
    as (news&st3&E3&HR3&HN3&(A3&P3&F3&L3&N3&[l3 C3])&CT3); try done.
  { unfold keys. by rewrite combine_map_snd. }
  { unfold keys. by rewrite combine_map_fst. }
  { intros n. rewrite G2, A1. change (active st0) with (active st). rewrite Ha.
    intros Hn. apply list_elem_of_singleton in Hn as ->. rewrite G1, L1. exact Hml. }
  { rewrite G3, P1. done. }
  unfold keys in HR3 at 1. rewrite combine_map_fst in HR3. fold keys in HR3.
  set (rows3 := map (moved 0 keys) rows ++ news) in *.
  (* step 4 *)
  destruct (drop_missing_spec (engine user (S k)) keys rows3 [] st3)
    as (st4&E4&HR4&HD4&HN4&A4&P4&F4&C4&L4); [done|by rewrite P3, G3, P1|].
  cbn [app] in HR4.
  set (rows4 := List.filter (fun r => has_key (r_key r) keys) rows3) in *.
  assert (Hnews : forall r, In r news ->
                  length (nodes st) <= r_index r /\ length (nodes st) <= r_child r).
  { intros r Hr. rewrite <- L1, <- G1. by apply (new_rows_ids _ _ _ HN3). }
  assert (Hids : forall n, n < length (nodes st) -> n ∉ row_ids rows ->
                 forall r, In r rows3 -> n <> r_child r).
  { intros n Hn Hnr r Hr ->. apply in_app_iff in Hr as [Hr|Hr].
    - apply Hnr. rewrite <- (row_ids_moved 0 keys). apply elem_of_row_ids. eauto.
    - apply Hnews in Hr. lia. }
  assert (Hkeep : forall n, n < length (nodes st) -> n ∉ row_ids rows ->
                  node n st4 = node n st1).
  { intros n Hn Hnr. rewrite HN4 by (intros r Hr _; by apply Hids).
    rewrite N3; [unfold node; by rewrite G1| |done].
    rewrite G1, L1. exact Hn. }
  (* step 5 *)
  pose proof HR4 as (HT4&_).
  exists news, (bump_addr st4), (next_addr st4). cbn zeta. fold rows3 rows4.
  split_and!.
  - unfold mapper. erewrite run_bind_ok.
    2:{ unfold call. rewrite run_perform. cbn [do_op engine step e_call].
        unfold call_fn. cbn [fn_body]. unfold read. rewrite run_perform.
        cbn [do_op]. fold st0. rewrite (read_node_fresh _ s sn); try done.
        change (active st0) with (active st). rewrite Ha.
        intros Hin. apply list_elem_of_singleton in Hin. done. }
    rewrite Hv. fold st1.
    erewrite run_bind_ok; [|exact E2]. fold keys.
    erewrite run_bind_ok; [|exact E3].
    unfold getTable. erewrite run_bind_ok; [|rewrite run_perform; cbn; reflexivity].
    destruct HR3 as (HT3&_). rewrite HT3. cbn [default]. unfold id.
    erewrite run_bind_ok; [|exact E4].
    erewrite run_bind_ok; [|rewrite run_perform; cbn; reflexivity].
    rewrite HT4. cbn [default].
    erewrite run_bind_ok; [|apply collect_spec].
    unfold id. rewrite (collect_rows rows4 keys st4 HR4).
    unfold newArray. by rewrite run_perform.
  - by apply (Rows_frame rows4 st4).
  - rewrite <- L1, <- G1. exact HN3.
  - change (node s (bump_addr st4)) with (node s st4). by rewrite Hkeep.
  - change (node m (bump_addr st4)) with (node m st4). by rewrite Hkeep.
  - cbn. rewrite A4, A3, G2, A1. exact Ha.
  - cbn. rewrite P4, P3, G3, P1. exact Hp.
  - cbn. rewrite F4, F3, G4, F1. done.
  - unfold called_times in *. cbn [calls bump_addr]. rewrite C4, CT3, C2, C1.
    f_equal. change (count_calls mc (calls st0)) with (called_times mc st0).
    unfold st0. by rewrite called_times_log_other.
  - intros r Hr Hk'. unfold is_disposed.
    change (field_of disposed false (r_child r) (bump_addr st4))
      with (is_disposed (r_child r) st4).
    apply (HD4 r); [|done].
    apply in_app_iff. left. rewrite <- (moved_absent 0 keys r) by done.
    by apply in_map.
  - exists ((FRead s, []) :: l2 ++ l3). cbn [calls bump_addr].
    rewrite C4, C3, L2, C1. cbn. by rewrite <- !app_assoc.
Qed.

Lemma set_remove_single (x : nat) : set_remove x [x] = [].
Proof.
  unfold set_remove. cbn. by destruct (decide (x <> x)).
Qed.

Lemma with_observers_same (nd : Node) :
  with_observers (observers nd) nd = nd.
Proof. by destruct nd. Qed.

Lemma with_sources_same (nd : Node) : with_sources (sources nd) nd = nd.
Proof. by destruct nd. Qed.

(** Entering the mapper: it leaves its source. *)
Lemma enter_mapper (s m : nat) (sn mn : Node) (st : State) :
  node s st = Some sn -> node m st = Some mn -> s <> m ->
  (sources mn = [] /\ observers sn = []) \/
  (sources mn = [s] /\ observers sn = [m]) ->
  let ste := enter m st in
  node s ste = Some (with_observers [] sn) /\
  node m ste = Some (with_run (with_sources [] mn)) /\
  (forall n, n <> s -> n <> m -> node n ste = node n st) /\
  active ste = m :: active st /\ pending ste = pending st /\
  flushing ste = flushing st /\ tables ste = tables st /\
  calls ste = calls st /\ length (nodes ste) = length (nodes st).
Proof.
  intros Hs Hm Hsm Hl ste.
  destruct (detach_sources_frame m st) as (A&P&F&T&_&C&L).
  assert (D : node s (detach_sources m st) = Some (with_observers [] sn) /\
              node m (detach_sources m st) = Some (with_sources [] mn) /\
              forall n, n <> s -> n <> m ->
                        node n (detach_sources m st) = node n st).
  { unfold detach_sources. rewrite Hm.
    destruct Hl as [[-> Ho]|[-> Ho]]; cbn [fold_left].
    - split_and!.
      + rewrite node_upd_ne by done. rewrite Hs, <- Ho.
        by rewrite with_observers_same.
      + by rewrite node_upd_eq, Hm.
      + intros n _ H2. by rewrite node_upd_ne.
    - split_and!.
      + rewrite node_upd_ne by done. rewrite node_upd_eq, Hs. cbn.
        by rewrite Ho, set_remove_single.
      + rewrite node_upd_eq, node_upd_ne by done. by rewrite Hm.
      + intros n H1 H2. by rewrite !node_upd_ne. }
  destruct D as (D1&D2&D3). unfold ste, enter.
  change (node ?n (set_active ?a ?s)) with (node n s).
  split_and!; try done.
  - rewrite node_upd_ne by done. exact D1.
  - by rewrite node_upd_eq, D2.
  - intros n H1 H2. rewrite node_upd_ne by done. by apply D3.
  - cbn. by rewrite length_alter.
Qed.

(** Reading a mapper that is to be recomputed. *)
Lemma read_mapper_spec (k s m : nat) (key : option Fn) (keyf : Val -> Val)
    (items : list Val) (rows : list Row) (st : State) :
  k0 <= k -> pure_key user mc key keyf ->
  Outdated mapFn t key s m items rows st ->
  Forall accepts items -> distinct_keys (map keyf items) = true ->
  let keys := map keyf items in
  exists news st' a,
    let rows' := List.filter (fun r => has_key (r_key r) keys)
                             (map (moved 0 keys) rows ++ news) in
    let outs := map (out_for rows') keys in
    run (engine user (S (S k))) (read m) st = Ok (VArr a outs) st' /\
    Forall2 (new_row (length (nodes st)))
            (fresh_keys 0 (combine keys items) (map r_key rows)) news /\
    active st' = [] /\ pending st' = [] /\ flushing st' = false /\
    (exists sn mn b,
       node s st' = Some sn /\ node m st' = Some mn /\
       source_node b items [m] sn /\ mapper_node mapFn t s key false [s] mn /\
       value mn = VArr a outs) /\
    Rows mapFn t st' rows' /\
    (forall n, n < length (nodes st) -> n ∉ row_ids rows -> n ∉ row_ids rows') /\
    called_times mc st' = called_times mc st + length news /\
    (forall r, In r rows -> has_key (r_key r) keys = false ->
               is_disposed (r_child r) st' = true) /\
    (forall c, c ∈ calls st -> c ∈ calls st') /\
    current_value s st' = current_value s st.
Proof.
  intros Hk Hkey (Ha&Hp&Hf&Hsm&(sn&mn&b&obs&srcs&Hs&Hm&HS&HM&Hl)&HR&Hsr&Hmr)
    Hacc Hd keys.
  destruct HS as (Sv&Sc&Sd&Ss&Se&So).
  destruct HM as (Mc&Ms&Md&Mcl&Mch&Mo&Me&Msrc).
  set (ste := enter m st).
  destruct (enter_mapper s m sn mn st Hs Hm Hsm) as (E1&E2&E3&EA&EP&EF&ET&EC&EL).
  { rewrite Msrc, So. destruct Hl as [[-> ->]|[-> ->]]; auto. }
  fold ste in E1, E2, E3, EA, EP, EF, ET, EC, EL.
  set (f := FMapper false (VFun (FRead s)) (VFun mapFn) key t).
  set (st0 := log_call f [] ste).
  assert (HR0 : Rows mapFn t st0 rows).
  { apply (Rows_frame rows st); [done|by rewrite <- ET| |].
    - intros n Hn. change (node n st0) with (node n ste).
      apply E3; intros ->; done.
    - intros c Hc. change (calls st0) with (calls ste ++ [(f, [])]).
      rewrite EC. apply elem_of_app. by left. }
  destruct (mapper_body_spec k s m (with_observers [] sn) (with_run (with_sources [] mn))
              b items rows key keyf st0)
    as (news&st1&a&E&HR1&HN&Hs1&Hm1&A1&P1&F1&C1&D1&[l1 L1]); try done.
  { change (active st0) with (active ste). by rewrite EA, Ha. }
  { change (pending st0) with (pending ste). by rewrite EP. }
  fold keys in E, HR1, HN, C1, D1.
  set (rows' := List.filter (fun r => has_key (r_key r) keys)
                            (map (moved 0 keys) rows ++ news)) in *.
  set (v := VArr a (map (out_for rows') keys)) in *.
  set (st2 := leave m v (active st) st1).
  exists news, st2, a. cbn zeta. fold rows' v.
  assert (Hm2 : node m st2
                = Some (with_stale false (with_value v
                          (with_sources [s] (with_run (with_sources [] mn)))))).
  { unfold st2, leave. rewrite node_upd_eq.
    change (node m (set_active ?x st1)) with (node m st1). by rewrite Hm1. }
  assert (Hfresh : forall n, n < length (nodes st) -> n ∉ row_ids rows ->
                               n ∉ row_ids rows').
  { intros n Hn Hnr Hin. apply elem_of_row_ids in Hin as (r&Hr&Hn').
    apply filter_In in Hr as [Hr _]. apply in_app_iff in Hr as [Hr|Hr].
    - apply Hnr. rewrite <- (row_ids_moved 0 keys). apply elem_of_row_ids. eauto.
    - apply (new_rows_ids _ _ _ HN) in Hr. change (nodes st0) with (nodes ste) in Hr.
      rewrite EL in Hr. lia. }
  split_and!.
  - unfold read. rewrite run_perform. cbn [do_op]. unfold read_node.
    rewrite Hm, Md. unfold mbind at 1. unfold update_node. rewrite Hm, Ha.
    rewrite bool_decide_eq_false_2 by apply not_elem_of_nil. rewrite Ms.
    unfold recompute, mbind at 1. unfold run_cleanups. rewrite Hm, Mcl.
    cbn [rev call_all mret].
    rewrite (upd_same m (with_cleanups []) st).
    2:{ intros x. rewrite Hm. intros [= <-]. destruct mn; cbn in *. by subst. }
    unfold mbind at 1. unfold dispose_children. rewrite Hm, Mch.
    cbn [dispose_all mret].
    rewrite (upd_same m (with_children []) st).
    2:{ intros x. rewrite Hm. intros [= <-]. destruct mn; cbn in *. by subst. }
    unfold execute. fold ste. rewrite E2. cbn [mbind option_bind].
    change (Some (with_run (with_sources [] mn)) ≫= compute) with (compute mn).
    rewrite Mc. fold f. cbn [engine step e_call]. unfold call_fn. cbn [fn_body f].
    fold f st0. change (step user (engine user k)) with (engine user (S k)).
    rewrite E. fold st2.
    unfold current_value. rewrite Hm2. cbn [value with_stale with_value].
    f_equal. unfold track. unfold st2 at 1. cbn [active leave set_active upd set_nodes].
    by rewrite Ha.
  - rewrite <- EL. exact HN.
  - unfold st2; cbn. exact Ha.
  - unfold st2; cbn. rewrite P1. done.
  - unfold st2; cbn. rewrite F1. change (flushing st0) with (flushing ste).
    by rewrite EF.
  - exists (with_observers [m] (with_observers [] sn)),
      (with_stale false (with_value v
         (with_sources [s] (with_run (with_sources [] mn))))), b.
    split_and!; try done.
    unfold st2, leave. rewrite node_upd_ne by done.
    change (node s (set_active ?x st1)) with (node s st1). exact Hs1.
  - apply (Rows_frame rows' st1); try done.
    intros n Hn. unfold st2, leave. rewrite node_upd_ne; [done|].
    intros <-. apply (Hfresh m); [eapply lookup_lt_Some, Hm|done|done].
  - exact Hfresh.
  - change (called_times mc st2) with (called_times mc st1). rewrite C1.
    f_equal. unfold st0. rewrite called_times_log_other by done.
    unfold called_times. by rewrite EC.
  - intros r Hr Hk'. specialize (D1 r Hr Hk'). unfold is_disposed, field_of in *.
    unfold st2, leave. rewrite node_upd_ne; [exact D1|].
    intros E'. apply Hmr. rewrite E'. apply elem_of_row_ids. eauto.
  - intros c Hc. unfold st2; cbn [calls leave upd set_active set_nodes].
    rewrite L1. change (calls st0) with (calls ste ++ [(f, [])]). rewrite EC.
    apply elem_of_app. left. apply elem_of_app. by left.
  - unfold current_value, st2, leave. rewrite node_upd_ne by done.
    change (node s (set_active ?x st1)) with (node s st1). by rewrite Hs1, Hs.
Qed.

(** *** The rows after a recomputation *)

Lemma distinct_keys_refl (ks : list Val) (k : Val) :
  distinct_keys ks = true -> In k ks -> js_eq k k = true.
Proof.
  induction ks as [|y ks IH]; cbn [distinct_keys]; [done|].
  intros Hd [<-|H].
  - apply andb_true_iff in Hd as [Hd _]. by apply andb_true_iff in Hd as [? _].
  - apply andb_true_iff in Hd as [_ Hd]. by apply IH.
Qed.

Lemma has_key_compat (a b : Val) (ks : list Val) :
  js_eq a b = true -> has_key a ks = has_key b ks.
Proof.
  intros E. unfold has_key. induction ks as [|y ks IH]; cbn; [done|].
  rewrite IH. f_equal. destruct (js_eq b y) eqn:E'.
  - by apply (js_eq_trans a b y).
  - destruct (js_eq a y) eqn:E''; [|done].
    rewrite <- E'. symmetry. apply (js_eq_trans b a y); [|done].
    by rewrite js_eq_sym.
Qed.

Lemma fresh_keys_position (kis : list (Val * Val)) (known : list Val) :
  distinct_keys (map fst kis) = true ->
  forall i y, In y (fresh_keys i kis known) ->
  exists j, snd y = i + j /\ position (fst (fst y)) (map fst kis) = Some j.
Proof.
  induction kis as [|[k x] kis IH]; intros Hd i y; cbn [fresh_keys map fst]; [done|].
  cbn [distinct_keys map fst] in Hd.
  apply andb_true_iff in Hd as [Hd Hd3]. apply andb_true_iff in Hd as [Hd1 Hd2].
  apply negb_true_iff in Hd2.
  intros H. apply in_app_iff in H as [H|H].
  - destruct (has_key k known); [done|]. destruct H as [<-|[]]. cbn.
    exists 0. rewrite Hd1. split; [lia|done].
  - destruct (IH Hd3 (S i) y H) as (j&Hp&Hj). exists (S j). split; [lia|].
    cbn [position].
    assert (js_eq (fst (fst y)) k = false) as ->.
    { rewrite js_eq_sym. apply (proj1 (has_key_false _ _) Hd2).
      by apply (fresh_keys_are_keys (S i) kis known). }
    by rewrite Hj.
Qed.

Lemma fresh_keys_complete (kis : list (Val * Val)) (known : list Val) (k : Val) :
  In k (map fst kis) -> has_key k known = false ->
  forall i, exists x p, In (k, x, p) (fresh_keys i kis known).
Proof.
  induction kis as [|[k' x'] kis IH]; cbn [map fst fresh_keys]; [done|].
  intros [->|H] Hk i.
  - exists x', i. rewrite Hk. apply in_app_iff. left. by left.
  - destruct (IH H Hk (S i)) as (x&p&Hin). exists x, p.
    apply in_app_iff. by right.
Qed.

Lemma new_rows_cover (n0 : nat) (fk : list (Val * Val * nat)) (news : list Row) :
  Forall2 (new_row n0) fk news ->
  forall y, In y fk -> exists r, In r news /\ new_row n0 y r.
Proof.
  induction 1 as [|y r fk news H1 _ IH]; intros y' []; subst.
  - exists r. split; [by left|done].
  - destruct (IH y') as (r'&?&?); [done|]. exists r'. split; [by right|done].
Qed.

Lemma new_rows_from (n0 : nat) (fk : list (Val * Val * nat)) (news : list Row) :
  Forall2 (new_row n0) fk news ->
  forall r, In r news -> exists y, In y fk /\ new_row n0 y r.
Proof.
  induction 1 as [|y r fk news H1 _ IH]; intros r' []; subst.
  - exists y. split; [by left|done].
  - destruct (IH r') as (y'&?&?); [done|]. exists y'. split; [by right|done].
Qed.

Lemma find_row_moved (k : Val) (i : nat) (keys : list Val) (rows : list Row) :
  find_row k (map (moved i keys) rows) = moved i keys <$> find_row k rows.
Proof.
  unfold find_row. induction rows as [|r rows IH]; cbn; [done|].
  assert (r_key (moved i keys r) = r_key r) as ->.
  { unfold moved. by destruct (position (r_key r) keys). }
  destruct (js_eq k (r_key r)); [done|exact IH].
Qed.

Lemma find_row_app (k : Val) (l1 l2 : list Row) :
  find_row k (l1 ++ l2)
  = match find_row k l1 with Some r => Some r | None => find_row k l2 end.
Proof.
  unfold find_row. induction l1 as [|r l1 IH]; cbn; [done|].
  by destruct (js_eq k (r_key r)).
Qed.

Lemma find_row_filter (k : Val) (q : Row -> bool) (rows : list Row) :
  (forall r, In r rows -> js_eq k (r_key r) = true -> q r = true) ->
  find_row k (List.filter q rows) = find_row k rows.
Proof.
  unfold find_row. induction rows as [|r rows IH]; cbn; [done|]. intros H.
  destruct (js_eq k (r_key r)) eqn:E.
  - rewrite (H r) by auto. cbn. by rewrite E.
  - destruct (q r); cbn; rewrite ?E; apply IH; intros; apply H; auto.
Qed.

Lemma r_out_moved (i : nat) (keys : list Val) (r : Row) :
  r_out (moved i keys r) = r_out r.
Proof. unfold moved. by destruct (position (r_key r) keys). Qed.

Lemma r_key_moved (i : nat) (keys : list Val) (r : Row) :
  r_key (moved i keys r) = r_key r.
Proof. unfold moved. by destruct (position (r_key r) keys). Qed.

Section Recomputed.

Variables (keys : list Val) (rows news : list Row).
Variables (kis : list (Val * Val)) (n0 : nat).
Hypothesis Hkeys : map fst kis = keys.
Hypothesis Hd : distinct_keys keys = true.
Hypothesis Hnews : Forall2 (new_row n0) (fresh_keys 0 kis (map r_key rows)) news.

Let rows' : list Row :=
  List.filter (fun r => has_key (r_key r) keys) (map (moved 0 keys) rows ++ news).

Lemma key_kept (k : Val) (r : Row) :
  In k keys -> js_eq k (r_key r) = true -> has_key (r_key r) keys = true.
Proof.
  intros Hk E. rewrite <- (has_key_compat k) by done. by apply has_key_refl.
Qed.

(** A key that was known keeps its row, and so its output. *)
Lemma find_row_kept (k : Val) (r : Row) :
  In k keys -> find_row k rows = Some r ->
  find_row k rows' = Some (moved 0 keys r).
Proof.
  intros Hk Hf. unfold rows'. rewrite find_row_filter.
  - by rewrite find_row_app, find_row_moved, Hf.
  - intros r' _ E. by apply (key_kept k).
Qed.

Lemma out_for_kept (k : Val) :
  In k keys -> has_key k (map r_key rows) = true ->
  out_for rows' k = out_for rows k.
Proof.
  intros Hk Hh. unfold out_for.
  destruct (find_row k rows) as [r|] eqn:Ef.
  - rewrite (find_row_kept k r) by done. apply r_out_moved.
  - apply find_row_None in Ef. congruence.
Qed.

Lemma rows_positions :
  Forall (fun r => position (r_key r) keys = Some (r_pos r)) rows'.
Proof.
  rewrite Forall_forall. intros r Hr. apply filter_In in Hr as [Hr Hk].
  apply in_app_iff in Hr as [Hr|Hr].
  - apply in_map_iff in Hr as (x&<-&_). unfold moved in *.
    destruct (position (r_key x) keys) as [j|] eqn:E; [done|].
    apply position_None in E. congruence.
  - destruct (new_rows_from _ _ _ Hnews r Hr) as (y&Hy&(K&_&P&_)).
    rewrite <- Hkeys in Hd.
    destruct (fresh_keys_position kis _ Hd 0 y Hy) as (j&Hp&Hj).
    rewrite K, P, Hp, <- Hkeys. exact Hj.
Qed.

Lemma rows_cover :
  Forall (fun k => has_key k (map r_key rows') = true) keys.
Proof.
  rewrite Forall_forall. intros k Hk. apply has_key_true.
  destruct (find_row k rows) as [r|] eqn:Ef.
  - exists (r_key r). split.
    + rewrite <- (r_key_moved 0 keys). apply in_map.
      pose proof (find_row_kept k r Hk Ef) as Hf'.
      by apply find_row_Some in Hf' as [Hin _].
    + by apply find_row_Some in Ef as [_ ?].
  - apply find_row_None in Ef.
    assert (Hk' : In k (map fst kis)) by (by rewrite Hkeys).
    destruct (fresh_keys_complete kis _ k Hk' Ef 0) as (x&p&Hin).
    destruct (new_rows_cover _ _ _ Hnews _ Hin) as (r&Hr&(K&_)). cbn in K.
    exists k. split; [|by apply (distinct_keys_refl keys)].
    rewrite <- K. apply in_map. unfold rows'. apply filter_In. split.
    + apply in_app_iff. by right.
    + rewrite K. by apply has_key_refl.
Qed.

End Recomputed.

(** *** Reading, writing, creating *)

(** The rows and the outputs after the mapper ran over [items]. *)
Definition rows_after (keyf : Val -> Val) (items : list Val) (rows news : list Row)
  : list Row :=
  List.filter (fun r => has_key (r_key r) (map keyf items))
              (map (moved 0 (map keyf items)) rows ++ news).

Definition news_for (keyf : Val -> Val) (items : list Val) (rows : list Row)
    (n0 : nat) (news : list Row) : Prop :=
  Forall2 (new_row n0)
          (fresh_keys 0 (combine (map keyf items) items) (map r_key rows)) news.

(** Reading a mapper that is to be recomputed brings it up to date. *)
Lemma mapper_read (k s m : nat) (key : option Fn) (keyf : Val -> Val)
    (items : list Val) (rows : list Row) (st : State) :
  k0 <= k -> pure_key user mc key keyf ->
  Outdated mapFn t key s m items rows st ->
  Forall accepts items -> distinct_keys (map keyf items) = true ->
  exists news st' a,
    let rows' := rows_after keyf items rows news in
    let outs := map (out_for rows') (map keyf items) in
    exec user (S (S k)) (read m) st = Ok (VArr a outs) st' /\
    Mapped mapFn t key keyf s m items rows' outs st' /\
    news_for keyf items rows (length (nodes st)) news /\
    called_times mc st' = called_times mc st + length news /\
    (forall r, In r rows -> has_key (r_key r) (map keyf items) = false ->
               is_disposed (r_child r) st' = true) /\
    (forall c, c ∈ calls st -> c ∈ calls st') /\
    current_value s st' = current_value s st.
Proof.
  intros Hk Hkey HO Hacc Hd.
  destruct (read_mapper_spec k s m key keyf items rows st Hk Hkey HO Hacc Hd)
    as (news&st'&a&E&HN&A&P&F&HX&HR&Hfr&C&D&L&V).
  destruct HO as (_&_&_&Hsm&(sn&mn&_&_&_&Hs&Hm&_)&_&Hsr&Hmr).
  exists news, st', a. cbn zeta. unfold rows_after. split_and!; try done.
  destruct HX as (sn'&mn'&b&X).
  split_and!; try done.
  - by exists sn', mn', b, a.
  - apply Hfr; [eapply lookup_lt_Some, Hs|done].
  - apply Hfr; [eapply lookup_lt_Some, Hm|done].
  - apply (rows_positions _ rows news (combine (map keyf items) items)
                          (length (nodes st))); try done.
    apply combine_map_fst.
  - apply (rows_cover _ rows news (combine (map keyf items) items)
                      (length (nodes st))); try done.
    apply combine_map_fst.
Qed.

Lemma notify_mapper (s m : nat) (sn mn : Node) (st : State) :
  node s st = Some sn -> node m st = Some mn -> observers sn = [m] ->
  stale mn = false -> disposed mn = false -> is_Some (compute mn) ->
  observers mn = [] -> isEffect mn = false ->
  notify s st = upd m (with_stale true) st.
Proof.
  intros Hs Hm Ho Hst Hd Hc Hmo He. unfold notify. rewrite Hs, Ho.
  cbn [mark_levels fold_left mark_one]. rewrite Hm, Hst, Hd, Hmo, He.
  rewrite bool_decide_eq_true_2 by done. cbn.
  by destruct (length (nodes st)).
Qed.

(** Writing another array to the source of a mapper that is up to date. *)
Lemma write_source (f s m : nat) (key : option Fn) (keyf : Val -> Val)
    (items items' : list Val) (b' : nat) (rows : list Row) (outs : list Val)
    (st : State) :
  Mapped mapFn t key keyf s m items rows outs st ->
  js_eq (VArr b' items') (current_value s st) = false ->
  exists st',
    exec user (S f) (write s (VArr b' items')) st = Ok tt st' /\
    Outdated mapFn t key s m items' rows st' /\
    calls st' = calls st /\ length (nodes st') = length (nodes st) /\
    (forall n, n <> s -> n <> m -> node n st' = node n st) /\
    current_value s st' = VArr b' items'.
Proof.
  intros (Ha&Hp&Hf&Hsm&(sn&mn&b&a&Hs&Hm&HS&HM&Hv)&HR&Hsr&Hmr&_) Hne.
  destruct HS as (Sv&Sc&Sd&Ss&Se&So).
  destruct HM as (Mc&Ms&Md&Mcl&Mch&Mo&Me&Msrc).
  set (v := VArr b' items').
  set (st1 := upd s (with_value v) st).
  set (st2 := upd m (with_stale true) st1).
  unfold current_value in Hne. rewrite Hs in Hne. fold v in Hne.
  exists st2. split_and!.
  - unfold exec, write. rewrite run_perform. cbn [do_op].
    rewrite (write_node_plain _ s sn) by done. rewrite Hne. fold st1.
    assert (H1 : node s st1 = Some (with_value v sn))
      by (unfold st1; by rewrite node_upd_eq, Hs).
    assert (H2 : node m st1 = Some mn) by (unfold st1; by rewrite node_upd_ne).
    assert (H3 : is_Some (compute mn)) by (by rewrite Mc).
    rewrite (notify_mapper s m (with_value v sn) mn) by done.
    fold st2. cbn [engine]. apply flush_pass_settled. by intros _.
  - unfold Outdated. split_and!; try done.
    + exists (with_value v sn), (with_stale true mn), b', [m], [s].
      split_and!; try done.
      * unfold st2, st1. rewrite node_upd_ne by done. by rewrite node_upd_eq, Hs.
      * unfold st2, st1. rewrite node_upd_eq, node_upd_ne by done. by rewrite Hm.
      * by right.
    + apply (Rows_frame rows st); try done.
      intros n Hn. unfold st2, st1. rewrite !node_upd_ne; [done|by intros <-..].
  - done.
  - unfold st2, st1. by rewrite !length_upd.
  - intros n H1 H2. unfold st2, st1. by rewrite !node_upd_ne.
  - unfold current_value, st2, st1. rewrite node_upd_ne by done.
    by rewrite node_upd_eq, Hs.
Qed.

(** Writing another array and reading the mapper again. *)
Lemma mapper_update (k s m : nat) (key : option Fn) (keyf : Val -> Val)
    (items items' : list Val) (b' : nat) (rows : list Row) (outs : list Val)
    (st : State) :
  k0 <= k -> pure_key user mc key keyf ->
  Mapped mapFn t key keyf s m items rows outs st ->
  js_eq (VArr b' items') (current_value s st) = false ->
  Forall accepts items' -> distinct_keys (map keyf items') = true ->
  exists news st1 st2 a,
    let rows' := rows_after keyf items' rows news in
    let outs' := map (out_for rows') (map keyf items') in
    exec user (S (S k)) (write s (VArr b' items')) st = Ok tt st1 /\
    exec user (S (S k)) (read m) st1 = Ok (VArr a outs') st2 /\
    Mapped mapFn t key keyf s m items' rows' outs' st2 /\
    news_for keyf items' rows (length (nodes st)) news /\
    called_times mc st2 = called_times mc st + length news /\
    (forall r, In r rows -> has_key (r_key r) (map keyf items') = false ->
               is_disposed (r_child r) st2 = true) /\
    (forall c, c ∈ calls st -> c ∈ calls st2) /\
    current_value s st2 = VArr b' items'.
Proof.
  intros Hk Hkey HM Hne Hacc Hd.
  destruct (write_source (S k) s m key keyf items items' b' rows outs st HM Hne)
    as (st1&E1&HO&C1&L1&_&V1).
  destruct (mapper_read k s m key keyf items' rows st1 Hk Hkey HO Hacc Hd)
    as (news&st2&a&E2&HM2&HN&CT&D&L&V2).
  exists news, st1, st2, a. cbn zeta. split_and!; try done.
  - by rewrite <- L1.
  - rewrite CT. unfold called_times. by rewrite C1.
  - intros c Hc. apply L. by rewrite C1.
  - by rewrite V2.
Qed.

(** A signal that holds an array, and a mapper over it. *)
Definition mapped_signal (b : nat) (items : list Val) (mapFn : Fn)
    (key : option Fn) : Prog (Fn * Fn * Fn) :=
  signal <- createSignal (VArr b items) None ;;
  map <- mapArray (fst signal) mapFn key ;;
  Ret (fst signal, snd signal, map).

Lemma mapper_init (fuel b : nat) (items : list Val) (key : option Fn) (st : State) :
  active st = [] -> pending st = [] -> flushing st = false ->
  t = length (tables st) ->
  let s := length (nodes st) in
  exists st',
    exec user fuel (mapped_signal b items mapFn key) st
    = Ok (FRead s, FWrite s, FRead (S s)) st' /\
    Outdated mapFn t key s (S s) items [] st' /\
    calls st' = calls st /\ length (nodes st') = S (S s) /\
    current_value s st' = VArr b items.
Proof.
  intros Ha Hp Hf Ht s.
  set (f := FMapper false (VFun (FRead s)) (VFun mapFn) key t).
  set (st1 := set_nodes (fun ns => ns ++ [new_node (VArr b items) None None]) st).
  set (st2 := set_tables (fun ts => ts ++ [[]]) st1).
  set (st3 := set_nodes (fun ns => ns ++ [new_node VUndef (Some f) None]) st2).
  assert (L1 : length (nodes st1) = S s).
  { unfold st1; cbn. rewrite length_app. cbn. unfold s. lia. }
  exists st3. split_and!.
  - unfold exec, mapped_signal, createSignal, mapArray, mapArray_with, createMemo,
      createComputation, newTable, perform.
    cbn [bind run].
    unfold mbind at 1. cbn [do_op]. unfold create_node.
    rewrite Ha. fold s st1. cbn [run mret fst snd bind].
    unfold mbind at 1. cbn [do_op]. fold st2.
    change (length (tables st1)) with (length (tables st)). rewrite <- Ht.
    unfold mbind at 1. cbn [do_op]. unfold create_node.
    change (active st2) with (active st). rewrite Ha.
    change (nodes st2) with (nodes st1). rewrite L1. fold f st3. done.
  - unfold Outdated. split_and!; [done|done|done|lia| | | |].
    + exists (new_node (VArr b items) None None), (new_node VUndef (Some f) None),
        b, [], [].
      split_and!; try done.
      * unfold node, st3, st2, st1; cbn. rewrite <- app_assoc.
        rewrite lookup_app_r by (unfold s; lia).
        by replace (s - length (nodes st)) with 0 by (unfold s; lia).
      * unfold node, st3, st2, st1; cbn. rewrite <- app_assoc.
        rewrite lookup_app_r by (unfold s; lia).
        by replace (S s - length (nodes st)) with 1 by (unfold s; lia).
      * by left.
    + unfold Rows. split_and!; try done; [|constructor].
      unfold st3, st2, st1; cbn. rewrite Ht, lookup_app_r by lia.
      by rewrite Nat.sub_diag.
    + apply not_elem_of_nil.
    + apply not_elem_of_nil.
  - done.
  - unfold st3. cbn [nodes set_nodes]. rewrite length_app. cbn [length].
    change (nodes st2) with (nodes st1). rewrite L1. lia.
  - unfold current_value, node, st3, st2, st1; cbn. rewrite <- app_assoc.
    rewrite lookup_app_r by (unfold s; lia).
    by replace (s - length (nodes st)) with 0 by (unfold s; lia).
Qed.
End MapperProof.

(** *** Reading the invariant *)

Lemma position_compat (a b : Val) (ks : list Val) :
  js_eq a b = true -> position a ks = position b ks.
Proof.
  intros E. induction ks as [|y ks IH]; cbn; [done|].
  rewrite IH.
  assert (js_eq a y = js_eq b y) as ->; [|done].
  destruct (js_eq b y) eqn:E'.
  - by apply (js_eq_trans a b y).
  - destruct (js_eq a y) eqn:E''; [|done].
    rewrite <- E'. symmetry. apply (js_eq_trans b a y); [|done].
    by rewrite js_eq_sym.
Qed.

Lemma position_nth (ks : list Val) (i : nat) (k : Val) :
  distinct_keys ks = true -> nth_error ks i = Some k -> position k ks = Some i.
Proof.
  revert i. induction ks as [|y ks IH]; intros [|i]; cbn [nth_error distinct_keys position];
    try done; intros Hd H.
  - injection H as ->. apply andb_true_iff in Hd as [Hd _].
    apply andb_true_iff in Hd as [-> _]. done.
  - apply andb_true_iff in Hd as [Hd Hd3]. apply andb_true_iff in Hd as [Hd1 Hd2].
    apply negb_true_iff in Hd2.
    assert (js_eq k y = false) as ->.
    { rewrite js_eq_sym. apply (proj1 (has_key_false _ _) Hd2).
      by eapply nth_error_In. }
    by rewrite (IH i).
Qed.

Lemma r_index_moved (i : nat) (keys : list Val) (r : Row) :
  r_index (moved i keys r) = r_index r.
Proof. unfold moved. by destruct (position (r_key r) keys). Qed.

Lemma r_child_moved (i : nat) (keys : list Val) (r : Row) :
  r_child (moved i keys r) = r_child r.
Proof. unfold moved. by destruct (position (r_key r) keys). Qed.

Lemma r_item_moved (i : nat) (keys : list Val) (r : Row) :
  r_item (moved i keys r) = r_item r.
Proof. unfold moved. by destruct (position (r_key r) keys). Qed.

(** What the invariant says of the item at position [i]. *)
Lemma Mapped_row (mapFn : Fn) (t : nat) (key : option Fn) (keyf : Val -> Val)
    (s m : nat) (items : list Val) (rows : list Row) (outs : list Val)
    (st : State) (i : nat) (x : Val) :
  Mapped mapFn t key keyf s m items rows outs st ->
  nth_error items i = Some x ->
  exists r,
    find_row (keyf x) rows = Some r /\ In r rows /\ r_pos r = i /\
    nth_error outs i = Some (r_out r) /\
    current_value (r_index r) st = num i /\
    is_disposed (r_child r) st = false /\
    (mapFn, [r_item r; VFun (FRead (r_index r))]) ∈ calls st.
Proof.
  intros (_&_&_&_&_&(_&Hok&_)&_&_&Hd&Ho&Hpos&Hcov) Hx.
  assert (Hk : nth_error (map keyf items) i = Some (keyf x))
    by (by apply map_nth_error).
  rewrite Forall_forall in Hcov, Hpos, Hok.
  pose proof (Hcov _ (nth_error_In _ _ Hk)) as Hh.
  destruct (find_row (keyf x) rows) as [r|] eqn:Ef.
  2:{ apply find_row_None in Ef. congruence. }
  pose proof (find_row_Some _ _ _ Ef) as [Hr Hkr].
  destruct (Hok r Hr) as (H1&H2&H3).
  assert (Hp : r_pos r = i).
  { pose proof (Hpos r Hr) as P. rewrite <- (position_compat _ _ _ Hkr) in P.
    rewrite (position_nth _ i) in P by done. congruence. }
  exists r. split_and!; try done.
  - rewrite Ho. erewrite map_nth_error; [|exact Hk]. unfold out_for. by rewrite Ef.
  - unfold current_value. by rewrite H2, Hp.
  - unfold is_disposed, field_of. by rewrite H1.
Qed.

Lemma Mapped_known (mapFn : Fn) (t : nat) (key : option Fn) (keyf : Val -> Val)
    (s m : nat) (items : list Val) (rows : list Row) (outs : list Val)
    (st : State) (k : Val) :
  Mapped mapFn t key keyf s m items rows outs st ->
  has_key k (map r_key rows) = has_key k (map keyf items).
Proof.
  intros (_&_&_&_&_&_&_&_&Hd&_&Hpos&Hcov).
  rewrite Forall_forall in Hcov, Hpos.
  destruct (has_key k (map keyf items)) eqn:E.
  - apply has_key_true in E as (y&Hy&Ey).
    rewrite (has_key_compat k y) by done. by apply Hcov.
  - destruct (has_key k (map r_key rows)) eqn:E'; [|done].
    apply has_key_true in E' as (y&Hy&Ey). apply in_map_iff in Hy as (r&<-&Hr).
    rewrite (has_key_compat k (r_key r)) in E by done.
    apply position_None in E. rewrite (Hpos r Hr) in E. done.
Qed.

Lemma no_news (n0 i : nat) (kis : list (Val * Val)) (known : list Val)
    (news : list Row) :
  Forall2 (new_row n0) (fresh_keys i kis known) news ->
  Forall (fun k => has_key k known = true) (map fst kis) ->
  news = [].
Proof.
  intros H Hk. rewrite fresh_keys_known in H by done. by inversion H.
Qed.

(** A row whose key is still there is a row afterwards, its nodes as they
    were. *)
Lemma row_survives (keyf : Val -> Val) (items : list Val) (rows news : list Row)
    (r : Row) :
  In r rows -> has_key (r_key r) (map keyf items) = true ->
  In (moved 0 (map keyf items) r) (rows_after keyf items rows news).
Proof.
  intros Hr Hk. unfold rows_after. apply filter_In. split.
  - apply in_app_iff. left. by apply in_map.
  - by rewrite r_key_moved.
Qed.

Lemma Mapped_alive (mapFn : Fn) (t : nat) (key : option Fn) (keyf : Val -> Val)
    (s m : nat) (items : list Val) (rows : list Row) (outs : list Val)
    (st : State) (r : Row) :
  Mapped mapFn t key keyf s m items rows outs st -> In r rows ->
  is_disposed (r_child r) st = false.
Proof.
  intros (_&_&_&_&_&(_&Hok&_)&_) Hr. rewrite Forall_forall in Hok.
  destruct (Hok r Hr) as (H1&_). unfold is_disposed, field_of. by rewrite H1.
Qed.

(** ** The mapper of tests/mapArray.test.ts *)

(** The items of the test: objects with the one data property [id]. *)
Definition is_item (v : Val) : Prop :=
  exists a id, v = VObj a [("id", SData id)].

(** [computed], as [mapFn] captures it. *)
Definition test_env : list Val := [VFun (FUser c_computed [])].

Lemma test_mapFn_plain : plain_mapFn test_code 2 c_mapFn test_env is_item.
Proof.
  intros k item idx st Hk (a&id&->).
  destruct k as [|[|k]]; [lia|lia|].
  eexists _, _. split; [cbn; reflexivity|].
  split_and!; try done.
  - cbn. eexists. rewrite <- app_assoc. reflexivity.
  - unfold called_times, count_calls. cbn [calls bump_addr log_call].
    rewrite !List.filter_app, !length_app. cbn. lia.
Qed.

(** The three items of the test, their array, and the state in which the
    test creates the signal. *)
Definition item_a : Val := VObj 0 [("id", SData (VStr "a"))].
Definition item_b : Val := VObj 1 [("id", SData (VStr "b"))].
Definition item_c : Val := VObj 2 [("id", SData (VStr "c"))].
Definition item_d : Val := VObj 20 [("id", SData (VStr "d"))].

Definition items_abc : list Val := [item_a; item_b; item_c].

Definition state_abc : State :=
  {| nodes := []; active := []; pending := []; flushing := false;
     tables := []; next_addr := 4; calls := [] |}.

Ltac solve_items := repeat constructor; by eexists _, _.

(** The test's mapper after its first read. *)
Lemma test_mapper_mapped :
  exists rows outs a st0 st,
    exec test_code 4 (mapped_signal 3 items_abc (FUser c_mapFn test_env) None)
         state_abc
    = Ok (FRead 0, FWrite 0, FRead 1) st0 /\
    exec test_code 4 (read 1) st0 = Ok (VArr a outs) st /\
    Mapped (FUser c_mapFn test_env) 0 None (fun x => x) 0 1 items_abc rows outs st /\
    current_value 0 st = VArr 3 items_abc /\
    called_times c_mapFn st = 3.
Proof.
  destruct (mapper_init test_code c_mapFn test_env 0 4 3 items_abc None state_abc)
    as (st0&E0&HO&C0&L0&V0); try done.
  destruct (mapper_read test_code 2 c_mapFn test_env is_item test_mapFn_plain
              0 2 0 1 None (fun x => x) items_abc [] st0)
    as (news&st&a&E&HM&HN&CT&_&_&V); try done.
  { unfold items_abc. solve_items. }
  exists (rows_after (fun x => x) items_abc [] news),
    (map (out_for (rows_after (fun x => x) items_abc [] news))
         (map (fun x => x) items_abc)), a, st0, st.
  split_and!; try done.
  - by rewrite V.
  - rewrite CT. unfold called_times. rewrite C0. cbn.
    apply Forall2_length in HN. cbn in HN. by rewrite <- HN.
Qed.

(** ** The claims about [mapArray] *)

(** C1: a mapper that is up to date, a mapping function that stays out of
    the graph, and the source written with a fresh array that holds the
    same items in another order.  The next read of the mapper calls
    [mapFn] not once; the output for an item is the value it was before
    the reorder, whatever its old and new positions, and the index signal
    whose accessor [mapFn] received for that item (the call is in the log)
    held the old position before and holds the new one after. *)
Theorem mapArray_reorder_reuses_entries
    (user : nat -> list Val -> list Val -> Prog Val) (k0 mc : nat)
    (menv : list Val) (accepts : Val -> Prop) (t k s m : nat)
    (key : option Fn) (keyf : Val -> Val) (items items' : list Val) (b' : nat)
    (rows : list Row) (outs : list Val) (st : State) :
  plain_mapFn user k0 mc menv accepts -> k0 <= k ->
  pure_key user mc key keyf ->
  Mapped (FUser mc menv) t key keyf s m items rows outs st ->
  Permutation items items' ->
  js_eq (VArr b' items') (current_value s st) = false ->
  Forall accepts items' -> distinct_keys (map keyf items') = true ->
  exists st1 st2 a outs',
    exec user (S (S k)) (write s (VArr b' items')) st = Ok tt st1 /\
    exec user (S (S k)) (read m) st1 = Ok (VArr a outs') st2 /\
    called_times mc st2 = called_times mc st /\
    length outs' = length items' /\
    forall i j x,
      nth_error items i = Some x -> nth_error items' j = Some x ->
      exists o item0 idx,
        nth_error outs i = Some o /\ nth_error outs' j = Some o /\
        (FUser mc menv, [item0; VFun (FRead idx)]) ∈ calls st /\
        current_value idx st = num i /\ current_value idx st2 = num j.
Proof.
  intros Hplain Hk Hkey HM Hperm Hne Hacc Hd.
  destruct (mapper_update user k0 mc menv accepts Hplain t k s m key keyf
              items items' b' rows outs st Hk Hkey HM Hne Hacc Hd)
    as (news&st1&st2&a&E1&E2&HM2&HN&CT&_&_&_).
  assert (news = []) as ->.
  { apply (no_news _ _ _ _ _ HN). rewrite combine_map_fst.
    rewrite Forall_forall. intros kx Hkx. apply in_map_iff in Hkx as (x&<-&Hx).
    rewrite (Mapped_known _ _ _ _ _ _ _ _ _ _ (keyf x) HM).
    apply has_key_refl.
    - by destruct HM as (_&_&_&_&_&_&_&_&?&_).
    - apply in_map. eapply Permutation_in; [|exact Hx]. by symmetry. }
  cbn zeta in *.
  set (rows' := rows_after keyf items' rows []) in *.
  exists st1, st2, a, (map (out_for rows') (map keyf items')).
  split_and!; try done.
  - rewrite CT. cbn. lia.
  - by rewrite !length_map.
  - intros i j x Hi Hj.
    destruct (Mapped_row _ _ _ _ _ _ _ _ _ _ i x HM Hi)
      as (r&Hf&Hr&Hp&Ho&Hv&_&Hc).
    destruct (Mapped_row _ _ _ _ _ _ _ _ _ _ j x HM2 Hj)
      as (r2&Hf2&_&_&Ho2&Hv2&_).
    assert (r2 = moved 0 (map keyf items') r) as ->.
    { unfold rows', rows_after in Hf2.
      rewrite (find_row_kept _ rows [] Hd (keyf x) r) in Hf2; [congruence| |done].
      apply in_map. by eapply nth_error_In. }
    rewrite r_out_moved in Ho2. rewrite r_index_moved in Hv2.
    by exists (r_out r), (r_item r), (r_index r).
Qed.

Lemma mapArray_reorder_reuses_entries_witness :
  exists rows outs st st1 st2 a outs',
    Mapped (FUser c_mapFn test_env) 0 None (fun x => x) 0 1 items_abc rows outs st /\
    exec test_code 4 (write 0 (VArr 10 [item_b; item_a; item_c])) st = Ok tt st1 /\
    exec test_code 4 (read 1) st1 = Ok (VArr a outs') st2 /\
    called_times c_mapFn st2 = called_times c_mapFn st /\
    length outs' = 3 /\
    nth_error outs' 0 = nth_error outs 1 /\
    nth_error outs' 1 = nth_error outs 0 /\
    nth_error outs' 2 = nth_error outs 2.
Proof.
  destruct test_mapper_mapped as (rows&outs&a0&st0&st&_&_&HM&V&_).
  destruct (mapArray_reorder_reuses_entries test_code 2 c_mapFn test_env is_item
              0 2 0 1 None (fun x => x) items_abc [item_b; item_a; item_c] 10
              rows outs st test_mapFn_plain)
    as (st1&st2&a&outs'&E1&E2&CT&L&H); try done.
  { unfold items_abc. apply perm_swap. }
  { by rewrite V. }
  { solve_items. }
  exists rows, outs, st, st1, st2, a, outs'. split_and!; try done.
  - destruct (H 1 0 item_b) as (o&_&_&O1&O2&_); [done..|]. by rewrite O1, O2.
  - destruct (H 0 1 item_a) as (o&_&_&O1&O2&_); [done..|]. by rewrite O1, O2.
  - destruct (H 2 2 item_c) as (o&_&_&O1&O2&_); [done..|]. by rewrite O1, O2.
Defined.

Lemma fresh_keys_app (l1 l2 : list (Val * Val)) (known : list Val) :
  forall i, fresh_keys i (l1 ++ l2) known
            = fresh_keys i l1 known ++ fresh_keys (i + length l1) l2 known.
Proof.
  induction l1 as [|[k x] l1 IH]; intros i; cbn [app fresh_keys length].
  - by rewrite Nat.add_0_r.
  - rewrite IH, <- app_assoc. do 3 f_equal. lia.
Qed.

Lemma combine_map_app (f : Val -> Val) (l1 l2 : list Val) :
  combine (map f (l1 ++ l2)) (l1 ++ l2)
  = combine (map f l1) l1 ++ combine (map f l2) l2.
Proof. induction l1 as [|x l1 IH]; cbn; [done|]. by rewrite IH. Qed.

Lemma combine_map_length (f : Val -> Val) (l : list Val) :
  length (combine (map f l) l) = length l.
Proof. induction l; cbn; congruence. Qed.

Lemma fresh_keys_nth (kis : list (Val * Val)) (known : list Val) (k x : Val) :
  forall i j, nth_error kis j = Some (k, x) -> has_key k known = false ->
              In (k, x, i + j) (fresh_keys i kis known).
Proof.
  induction kis as [|[k' x'] kis IH]; intros i [|j]; cbn [nth_error fresh_keys];
    try done; intros H Hk.
  - injection H as -> ->. rewrite Hk, Nat.add_0_r. apply in_app_iff. left. by left.
  - apply in_app_iff. right. rewrite Nat.add_succ_r. by apply (IH (S i) j).
Qed.

Lemma combine_map_nth (f : Val -> Val) (l : list Val) (j : nat) (x : Val) :
  nth_error l j = Some x -> nth_error (combine (map f l) l) j = Some (f x, x).
Proof.
  revert j. induction l as [|y l IH]; intros [|j]; cbn; try done.
  - by intros [= ->].
  - apply IH.
Qed.

Lemma Mapped_keys_known (mapFn : Fn) (t : nat) (key : option Fn)
    (keyf : Val -> Val) (s m : nat) (items : list Val) (rows : list Row)
    (outs : list Val) (st : State) (l : list Val) :
  Mapped mapFn t key keyf s m items rows outs st ->
  (forall x, In x l -> In x items) ->
  Forall (fun k => has_key k (map r_key rows) = true) (map keyf l).
Proof.
  intros HM Hl. rewrite Forall_forall. intros kx Hkx.
  apply in_map_iff in Hkx as (x&<-&Hx).
  rewrite (Mapped_known _ _ _ _ _ _ _ _ _ _ (keyf x) HM).
  apply has_key_refl.
  - by destruct HM as (_&_&_&_&_&_&_&_&?&_).
  - apply in_map. by apply Hl.
Qed.

Lemma Mapped_row_key (mapFn : Fn) (t : nat) (key : option Fn)
    (keyf : Val -> Val) (s m : nat) (items : list Val) (rows : list Row)
    (outs : list Val) (st : State) (r : Row) :
  Mapped mapFn t key keyf s m items rows outs st -> In r rows ->
  exists y, In y (map keyf items) /\ js_eq (r_key r) y = true.
Proof.
  intros (_&_&_&_&_&_&_&_&_&_&Hpos&_) Hr. rewrite Forall_forall in Hpos.
  apply has_key_true. destruct (has_key (r_key r) (map keyf items)) eqn:E; [done|].
  apply position_None in E. by rewrite (Hpos r Hr) in E.
Qed.

(** C2: a mapper that is up to date over [items], with a mapping function
    that stays out of the graph.  When the source is written with a fresh
    array that holds one more item [x] at its end, of a new key, the next
    read calls [mapFn] once, with [x] and the accessor of a new index
    signal that holds the last position; the outputs are the ones from
    before, followed by one more, and no child of before is disposed.  When
    the source is written with a fresh array that lacks the item [x], the
    next read calls [mapFn] not once, the child of [x]'s key, alive before,
    is disposed, no other child is, and the outputs are the ones from
    before without the output at the position of [x]. *)
Theorem mapArray_append_and_remove
    (user : nat -> list Val -> list Val -> Prog Val) (k0 mc : nat)
    (menv : list Val) (accepts : Val -> Prop) (t k s m : nat)
    (key : option Fn) (keyf : Val -> Val) (items : list Val)
    (rows : list Row) (outs : list Val) (st : State) :
  plain_mapFn user k0 mc menv accepts -> k0 <= k ->
  pure_key user mc key keyf ->
  Mapped (FUser mc menv) t key keyf s m items rows outs st ->
  (forall (x : Val) (b' : nat),
     js_eq (VArr b' (items ++ [x])) (current_value s st) = false ->
     Forall accepts (items ++ [x]) ->
     distinct_keys (map keyf (items ++ [x])) = true ->
     exists st1 st2 a o idx,
       exec user (S (S k)) (write s (VArr b' (items ++ [x]))) st = Ok tt st1 /\
       exec user (S (S k)) (read m) st1 = Ok (VArr a (outs ++ [o])) st2 /\
       called_times mc st2 = S (called_times mc st) /\
       (FUser mc menv, [x; VFun (FRead idx)]) ∈ calls st2 /\
       length (nodes st) <= idx /\
       current_value idx st2 = num (length items) /\
       (forall r, In r rows -> is_disposed (r_child r) st2 = false)) /\
  (forall (l1 : list Val) (x : Val) (l2 : list Val) (b' : nat),
     items = l1 ++ x :: l2 ->
     js_eq (VArr b' (l1 ++ l2)) (current_value s st) = false ->
     Forall accepts (l1 ++ l2) ->
     exists st1 st2 a o1 o o2 r,
       exec user (S (S k)) (write s (VArr b' (l1 ++ l2))) st = Ok tt st1 /\
       exec user (S (S k)) (read m) st1 = Ok (VArr a (o1 ++ o2)) st2 /\
       outs = o1 ++ o :: o2 /\ length o1 = length l1 /\
       called_times mc st2 = called_times mc st /\
       find_row (keyf x) rows = Some r /\
       is_disposed (r_child r) st = false /\
       is_disposed (r_child r) st2 = true /\
       (forall r', In r' rows -> r' <> r -> is_disposed (r_child r') st2 = false)).
Proof.
  intros Hplain Hk Hkey HM.
  pose proof HM as (_&_&_&_&_&(_&_&_&Hdr)&_&_&Hdk&Ho&_&_).
  split.
  - (* one more item *)
    intros x b' Hne Hacc Hd.
    destruct (mapper_update user k0 mc menv accepts Hplain t k s m key keyf
                items (items ++ [x]) b' rows outs st Hk Hkey HM Hne Hacc Hd)
      as (news&st1&st2&a&E1&E2&HM2&HN&CT&_&_&_).
    cbn zeta in *.
    assert (Hnew : has_key (keyf x) (map keyf items) = false).
    { rewrite map_app in Hd. cbn [map] in Hd.
      apply distinct_keys_mid in Hd as (_&_&Hd). by rewrite app_nil_r in Hd. }
    unfold news_for in HN. rewrite combine_map_app, fresh_keys_app in HN.
    rewrite fresh_keys_known in HN.
    2:{ rewrite combine_map_fst. by apply (Mapped_keys_known _ _ _ _ _ _ _ _ _ _ _ HM). }
    cbn [app combine map fresh_keys] in HN.
    rewrite (Mapped_known _ _ _ _ _ _ _ _ _ _ (keyf x) HM), Hnew in HN.
    rewrite combine_map_length in HN. cbn [app Nat.add] in HN.
    revert Ho. inversion HN as [|y rn l l' (K&I&P&N1&N2) Hl]; subst.
    inversion Hl; subst. intros Ho.
    cbn [fst snd] in K, I, P.
    set (rows' := rows_after keyf (items ++ [x]) rows [rn]) in *.
    assert (Hin : In rn rows').
    { unfold rows', rows_after. apply filter_In. split.
      - apply in_app_iff. right. by left.
      - rewrite K. apply has_key_refl; [done|]. rewrite map_app.
        apply in_app_iff. right. by left. }
    pose proof HM2 as (_&_&_&_&_&(_&Hok2&_)&_).
    rewrite Forall_forall in Hok2. destruct (Hok2 rn Hin) as (_&H2&H3).
    exists st1, st2, a, (out_for rows' (keyf x)), (r_index rn).
    split_and!; try done.
    + rewrite E2. do 2 f_equal. rewrite map_app, map_app. cbn [map]. f_equal.
      rewrite Ho. apply map_ext_in. intros kx Hkx.
      apply (out_for_kept _ rows [rn] Hd).
      * rewrite map_app. apply in_app_iff. by left.
      * pose proof (Mapped_keys_known _ _ _ _ _ _ _ _ _ _ items HM ltac:(done)) as HK.
        rewrite Forall_forall in HK. by apply HK.
    + rewrite CT. cbn. lia.
    + by rewrite <- I.
    + unfold current_value. by rewrite H2, P.
    + intros r Hr. rewrite <- (r_child_moved 0 (map keyf (items ++ [x])) r).
      apply (Mapped_alive _ _ _ _ _ _ _ _ _ _ _ HM2).
      apply row_survives; [done|].
      destruct (Mapped_row_key _ _ _ _ _ _ _ _ _ _ r HM Hr) as (y&Hy&Ey).
      apply has_key_true. exists y. split; [|done].
      rewrite map_app. apply in_app_iff. by left.
  - (* one item less *)
    intros l1 x l2 b' -> Hne Hacc.
    assert (Hd : distinct_keys (map keyf (l1 ++ l2)) = true /\
                 has_key (keyf x) (map keyf (l1 ++ l2)) = false).
    { rewrite map_app in *. cbn [map] in Hdk.
      by apply distinct_keys_mid in Hdk as (?&_&?). }
    destruct Hd as [Hd Hgone].
    destruct (mapper_update user k0 mc menv accepts Hplain t k s m key keyf
                (l1 ++ x :: l2) (l1 ++ l2) b' rows outs st Hk Hkey HM Hne Hacc Hd)
      as (news&st1&st2&a&E1&E2&HM2&HN&CT&D&_&_).
    cbn zeta in *.
    assert (Hsub : forall y, In y (l1 ++ l2) -> In y (l1 ++ x :: l2)).
    { intros y Hy. apply in_app_iff in Hy as [?|?]; apply in_app_iff; [by left|].
      right. by right. }
    assert (news = []) as ->.
    { apply (no_news _ _ _ _ _ HN). rewrite combine_map_fst.
      by apply (Mapped_keys_known _ _ _ _ _ _ _ _ _ _ _ HM). }
    set (rows' := rows_after keyf (l1 ++ l2) rows []) in *.
    assert (Hx : nth_error (l1 ++ x :: l2) (length l1) = Some x).
    { rewrite nth_error_app2 by lia. by rewrite Nat.sub_diag. }
    destruct (Mapped_row _ _ _ _ _ _ _ _ _ _ _ x HM Hx)
      as (r&Hf&Hr&_&_&_&Halive&_).
    pose proof (find_row_Some _ _ _ Hf) as [_ Hkr].
    assert (Hkept : forall kx, In kx (map keyf (l1 ++ l2)) ->
                               out_for rows' kx = out_for rows kx).
    { intros kx Hkx. apply (out_for_kept _ rows [] Hd); [done|].
      apply in_map_iff in Hkx as (y&<-&Hy).
      pose proof (Mapped_keys_known _ _ _ _ _ _ _ _ _ _ _ HM Hsub) as HK.
      rewrite Forall_forall in HK. apply HK. by apply in_map. }
    exists st1, st2, a, (map (out_for rows) (map keyf l1)),
      (out_for rows (keyf x)), (map (out_for rows) (map keyf l2)), r.
    split_and!; try done.
    + rewrite E2. do 2 f_equal. rewrite map_app, map_app.
      f_equal; apply map_ext_in; intros kx Hkx; apply Hkept; rewrite map_app;
        apply in_app_iff; auto.
    + rewrite Ho, map_app, map_app. done.
    + by rewrite !length_map.
    + rewrite CT. cbn. lia.
    + apply D; [done|]. by rewrite <- (has_key_compat (keyf x)).
    + intros r' Hr' Hne'.
      rewrite <- (r_child_moved 0 (map keyf (l1 ++ l2)) r').
      apply (Mapped_alive _ _ _ _ _ _ _ _ _ _ _ HM2).
      apply row_survives; [done|].
      destruct (Mapped_row_key _ _ _ _ _ _ _ _ _ _ r' HM Hr') as (y&Hy&Ey).
      apply has_key_true. exists y. split; [|done].
      rewrite map_app in *. cbn [map] in Hy.
      apply in_app_iff in Hy as [Hy|[<-|Hy]]; apply in_app_iff; auto.
      destruct Hne'. apply (rows_same_key rows); try done.
      by apply (js_eq_trans _ (keyf x)).
Qed.

Lemma mapArray_append_and_remove_witness :
  exists rows outs st,
    Mapped (FUser c_mapFn test_env) 0 None (fun x => x) 0 1 items_abc rows outs st /\
    (exists st1 st2 a o idx,
       exec test_code 4 (write 0 (VArr 10 (items_abc ++ [item_d]))) st = Ok tt st1 /\
       exec test_code 4 (read 1) st1 = Ok (VArr a (outs ++ [o])) st2 /\
       called_times c_mapFn st2 = S (called_times c_mapFn st) /\
       (FUser c_mapFn test_env, [item_d; VFun (FRead idx)]) ∈ calls st2) /\
    (exists st1 st2 a o1 o o2 r,
       exec test_code 4 (write 0 (VArr 11 [item_b; item_c])) st = Ok tt st1 /\
       exec test_code 4 (read 1) st1 = Ok (VArr a (o1 ++ o2)) st2 /\
       outs = o1 ++ o :: o2 /\ length o1 = 0 /\
       called_times c_mapFn st2 = called_times c_mapFn st /\
       find_row item_a rows = Some r /\
       is_disposed (r_child r) st2 = true).
Proof.
  destruct test_mapper_mapped as (rows&outs&a0&st0&st&_&_&HM&V&_).
  destruct (mapArray_append_and_remove test_code 2 c_mapFn test_env is_item
              0 2 0 1 None (fun x => x) items_abc rows outs st test_mapFn_plain)
    as [H1 H2]; try done.
  exists rows, outs, st. split_and!; [done| |].
  - destruct (H1 item_d 10) as (st1&st2&a&o&idx&E1&E2&CT&C&_).
    + by rewrite V.
    + unfold items_abc. cbn [app]. solve_items.
    + done.
    + by exists st1, st2, a, o, idx.
  - destruct (H2 [] item_a [item_b; item_c] 11)
      as (st1&st2&a&o1&o&o2&r&E1&E2&O&L&CT&F&_&D&_).
    + done.
    + by rewrite V.
    + cbn [app]. solve_items.
    + by exists st1, st2, a, o1, o, o2, r.
Defined.

(** C7: a mapper that is up to date, and the source written with a fresh
    array that is empty.  The next read of the mapper returns an empty
    array and calls [mapFn] not once, and the child computation of every
    row of the table, alive before, is disposed. *)
Theorem mapArray_empty_disposes_all
    (user : nat -> list Val -> list Val -> Prog Val) (k0 mc : nat)
    (menv : list Val) (accepts : Val -> Prop) (t k s m : nat)
    (key : option Fn) (keyf : Val -> Val) (items : list Val) (b' : nat)
    (rows : list Row) (outs : list Val) (st : State) :
  plain_mapFn user k0 mc menv accepts -> k0 <= k ->
  pure_key user mc key keyf ->
  Mapped (FUser mc menv) t key keyf s m items rows outs st ->
  js_eq (VArr b' []) (current_value s st) = false ->
  exists st1 st2 a,
    exec user (S (S k)) (write s (VArr b' [])) st = Ok tt st1 /\
    exec user (S (S k)) (read m) st1 = Ok (VArr a []) st2 /\
    called_times mc st2 = called_times mc st /\
    (forall i x, nth_error items i = Some x ->
       exists r, find_row (keyf x) rows = Some r /\ In r rows) /\
    (forall r, In r rows ->
       is_disposed (r_child r) st = false /\ is_disposed (r_child r) st2 = true).
Proof.
  intros Hplain Hk Hkey HM Hne.
  destruct (mapper_update user k0 mc menv accepts Hplain t k s m key keyf
              items [] b' rows outs st Hk Hkey HM Hne)
    as (news&st1&st2&a&E1&E2&HM2&HN&CT&D&_&_); [constructor|done|].
  cbn zeta in *. inversion HN; subst.
  exists st1, st2, a. split_and!; try done.
  - rewrite CT. cbn. lia.
  - intros i x Hx.
    destruct (Mapped_row _ _ _ _ _ _ _ _ _ _ _ x HM Hx) as (r&Hf&Hr&_).
    by exists r.
  - intros r Hr. split.
    + by apply (Mapped_alive _ _ _ _ _ _ _ _ _ _ _ HM).
    + by apply D.
Qed.

Lemma mapArray_empty_disposes_all_witness :
  exists rows outs st st1 st2 a,
    Mapped (FUser c_mapFn test_env) 0 None (fun x => x) 0 1 items_abc rows outs st /\
    length outs = 3 /\
    exec test_code 4 (write 0 (VArr 12 [])) st = Ok tt st1 /\
    exec test_code 4 (read 1) st1 = Ok (VArr a []) st2 /\
    called_times c_mapFn st2 = called_times c_mapFn st /\
    (forall r, In r rows -> is_disposed (r_child r) st2 = true).
Proof.
  destruct test_mapper_mapped as (rows&outs&a0&st0&st&_&_&HM&V&_).
  destruct (mapArray_empty_disposes_all test_code 2 c_mapFn test_env is_item
              0 2 0 1 None (fun x => x) items_abc 12 rows outs st test_mapFn_plain)
    as (st1&st2&a&E1&E2&CT&_&D); try done.
  { by rewrite V. }
  exists rows, outs, st, st1, st2, a. split_and!; try done.
  - destruct HM as (_&_&_&_&_&_&_&_&_&->&_). by rewrite !length_map.
  - intros r Hr. by apply D.
Defined.

(** C3, as the test has it: [mapFn] receives the item itself.  Reading a
    mapper that is to be recomputed calls [mapFn], for every item of the
    source whose key the table does not hold, with the item as the first
    argument and, as the second, the accessor of a new index signal that
    holds the item's position. *)
Theorem mapArray_passes_item_and_index_accessor
    (user : nat -> list Val -> list Val -> Prog Val) (k0 mc : nat)
    (menv : list Val) (accepts : Val -> Prop) (t k s m : nat)
    (key : option Fn) (keyf : Val -> Val) (items : list Val)
    (rows : list Row) (st : State) :
  plain_mapFn user k0 mc menv accepts -> k0 <= k ->
  pure_key user mc key keyf ->
  Outdated (FUser mc menv) t key s m items rows st ->
  Forall accepts items -> distinct_keys (map keyf items) = true ->
  exists a outs st',
    exec user (S (S k)) (read m) st = Ok (VArr a outs) st' /\
    length outs = length items /\
    forall j x,
      nth_error items j = Some x -> find_row (keyf x) rows = None ->
      exists idx,
        length (nodes st) <= idx /\
        (FUser mc menv, [x; VFun (FRead idx)]) ∈ calls st' /\
        current_value idx st' = num j.
Proof.
  intros Hplain Hk Hkey HO Hacc Hd.
  destruct (mapper_read user k0 mc menv accepts Hplain t k s m key keyf
              items rows st Hk Hkey HO Hacc Hd)
    as (news&st'&a&E&HM&HN&_).
  cbn zeta in *. set (rows' := rows_after keyf items rows news) in *.
  exists a, (map (out_for rows') (map keyf items)), st'.
  split_and!; [done|by rewrite !length_map|].
  intros j x Hx Hf. apply find_row_None in Hf.
  pose proof (fresh_keys_nth _ _ _ _ 0 j (combine_map_nth keyf items j x Hx) Hf) as Hin.
  destruct (new_rows_cover _ _ _ HN _ Hin) as (r&Hr&(K&I&P&N1&_)).
  cbn [fst snd] in K, I, P.
  assert (Hin' : In r rows').
  { unfold rows', rows_after. apply filter_In. split.
    - apply in_app_iff. by right.
    - rewrite K. apply has_key_refl; [done|]. apply in_map.
      by eapply nth_error_In. }
  destruct HM as (_&_&_&_&_&(_&Hok&_)&_). rewrite Forall_forall in Hok.
  destruct (Hok r Hin') as (_&H2&H3).
  exists (r_index r). split_and!; [done|by rewrite <- I|].
  unfold current_value. by rewrite H2, P.
Qed.

Lemma mapArray_passes_item_and_index_accessor_witness :
  exists st0 a outs st idx,
    exec test_code 4 (mapped_signal 3 items_abc (FUser c_mapFn test_env) None)
         state_abc
    = Ok (FRead 0, FWrite 0, FRead 1) st0 /\
    exec test_code 4 (read 1) st0 = Ok (VArr a outs) st /\
    length outs = 3 /\
    (FUser c_mapFn test_env, [item_b; VFun (FRead idx)]) ∈ calls st /\
    current_value idx st = num 1.
Proof.
  destruct (mapper_init test_code c_mapFn test_env 0 4 3 items_abc None state_abc)
    as (st0&E0&HO&_); try done.
  destruct (mapArray_passes_item_and_index_accessor test_code 2 c_mapFn test_env
              is_item 0 2 0 1 None (fun x => x) items_abc [] st0 test_mapFn_plain)
    as (a&outs&st&E&L&H); try done.
  { unfold items_abc. solve_items. }
  destruct (H 1 item_b) as (idx&_&C&V); [done..|].
  by exists st0, a, outs, st, idx.
Defined.

(** C3, in the words of the specification: were the item handed to [mapFn]
    through an accessor, the test's [value.id] would read a property of a
    function, and its first expectation, [expect(a.id).toBe('a')], would
    fail; with the item handed over as it is, the test passes. *)
Lemma accessor_argument_fails_the_test :
  fails_with AssertionError (keyed_map_test mapArray_by_accessor) = true /\
  passes (keyed_map_test mapArray) = true.
Proof. split; vm_compute; reflexivity. Qed.

(** ** A write flushes the effects it made stale *)


















(** *** Marking reaches the effects behind memos *)






























(** ** Memos: [createMemo] *)

(** Running a computation that has neither cleanups nor owned
    computations is one execution. *)
Lemma recompute_leaf (rec : Engine) (n : nat) (nd : Node) (st : State) :
  node n st = Some nd -> cleanups nd = [] -> children nd = [] ->
  recompute rec n st = execute rec n st.
Proof.
  intros Hn Hc Hch. unfold recompute, mbind at 1. unfold run_cleanups.
  rewrite Hn, Hc. cbn [rev call_all mret].
  rewrite (upd_same n (with_cleanups []) st).
  2:{ intros x. rewrite Hn. intros [= <-]. destruct nd; cbn in *. by subst. }
  unfold mbind at 1. unfold dispose_children. rewrite Hn, Hch.
  cbn [dispose_all mret].
  rewrite (upd_same n (with_children []) st); [done|].
  intros x. rewrite Hn. intros [= <-]. destruct nd; cbn in *. by subst.
Qed.

(** Calling the accessor of a node that is up to date, outside any
    computation: the value, and nothing but the call is recorded. *)
Lemma call_read_fresh (user : nat -> list Val -> list Val -> Prog Val)
    (fuel n : nat) (nd : Node) (st : State) :
  node n st = Some nd -> disposed nd = false -> stale nd = false ->
  active st = [] ->
  exec user (S fuel) (call (VFun (FRead n)) []) st
  = Ok (value nd) (log_call (FRead n) [] st).
Proof.
  intros Hn Hd Hs Ha. unfold exec, call. rewrite run_perform.
  cbn [do_op engine step e_call]. unfold call_fn. cbn [fn_body].
  unfold read. rewrite run_perform. cbn [do_op].
  rewrite (read_node_fresh _ n nd); try done.
  - unfold track. cbn [active log_call]. by rewrite Ha.
  - cbn. rewrite Ha. apply not_elem_of_nil.
Qed.

(** X1: [createMemo] creates one node and returns its accessor without
    calling [compute]: the memo is lazy.  For a [compute] that is a pure
    function of the client, created outside any computation: the first
    call of the accessor calls [compute] once and returns its result, and
    the second call returns the same result without calling it again. *)
Theorem createMemo_is_lazy_and_caches
    (user : nat -> list Val -> list Val -> Prog Val) (c : nat) (env : list Val)
    (g : list Val -> Val) (options : option Options) (fuel : nat) (st : State) :
  (forall args, user c env args = Ret (g args)) ->
  active st = [] ->
  let m := length (nodes st) in
  let f := FUser c env in
  exists st1 st2 st3,
    exec user fuel (createMemo f options) st = Ok (FRead m) st1 /\
    calls st1 = calls st /\ runs_of m st1 = 0 /\
    compute_of m st1 = Some f /\
    current_value m st1
    = match options with Some o => opt_initial o | None => VUndef end /\
    exec user (S (S fuel)) (call (VFun (FRead m)) []) st1 = Ok (g []) st2 /\
    calls st2 = calls st ++ [(FRead m, []); (f, [])] /\
    runs_of m st2 = 1 /\
    exec user (S (S fuel)) (call (VFun (FRead m)) []) st2 = Ok (g []) st3 /\
    calls st3 = calls st2 ++ [(FRead m, [])] /\
    runs_of m st3 = 1.
Proof.
  intros Hg Ha m f.
  set (init := match options with Some o => opt_initial o | None => VUndef end).
  set (mn := new_node init (Some f) options).
  set (st1 := set_nodes (fun ns => ns ++ [mn]) st).
  set (s1 := log_call (FRead m) [] st1).
  set (se := log_call f [] (set_active [m] (upd m with_run s1))).
  set (st2 := leave m (g []) [] se).
  assert (Hm1 : node m st1 = Some mn).
  { unfold node, st1; cbn. rewrite lookup_app_r by (unfold m; lia).
    by replace (m - length (nodes st)) with 0 by (unfold m; lia). }
  assert (Hm2 : node m st2
                = Some (with_stale false (with_value (g []) (with_run mn)))).
  { unfold st2. rewrite node_leave. unfold se.
    change (node m (log_call ?f ?a (set_active ?x ?s))) with (node m s).
    rewrite node_upd_eq. change (node m s1) with (node m st1). by rewrite Hm1. }
  exists st1, st2, (log_call (FRead m) [] st2).
  split_and!; try done.
  - unfold exec, createMemo, createComputation, perform. cbn [bind run].
    unfold mbind. cbn [do_op]. unfold create_node. rewrite Ha. done.
  - unfold runs_of, field_of. by rewrite Hm1.
  - unfold compute_of, field_of. by rewrite Hm1.
  - unfold current_value. by rewrite Hm1.
  - unfold exec, call. rewrite run_perform. cbn [do_op engine step e_call].
    unfold call_fn. cbn [fn_body]. unfold read. rewrite run_perform. cbn [do_op].
    fold s1. unfold read_node. change (node m s1) with (node m st1). rewrite Hm1.
    cbn [mn new_node disposed]. unfold mbind at 1. unfold update_node.
    change (node m s1) with (node m st1). rewrite Hm1.
    change (active s1) with (active st). rewrite Ha.
    rewrite bool_decide_eq_false_2 by apply not_elem_of_nil.
    cbn [mn new_node stale]. rewrite bool_decide_eq_true_2 by eauto.
    rewrite (recompute_leaf _ m mn) by done.
    unfold execute. rewrite (enter_unsourced m mn) by done.
    change (active s1) with (active st). rewrite Ha.
    change (node m (set_active ?x ?s)) with (node m s).
    rewrite node_upd_eq. change (node m s1) with (node m st1). rewrite Hm1.
    change ((with_run <$> Some mn) ≫= compute) with (Some f).
    cbn [step e_call]. unfold call_fn. cbn [fn_body f]. rewrite Hg. cbn [run mret].
    fold f se st2. unfold current_value. rewrite Hm2.
    cbn [value with_stale with_value]. done.
  - unfold st2, se, s1; cbn. by rewrite <- app_assoc.
  - unfold runs_of, field_of. by rewrite Hm2.
  - by rewrite (call_read_fresh user (S fuel) m _ st2 Hm2).
  - unfold runs_of, field_of.
    change (node m (log_call ?f ?a st2)) with (node m st2). by rewrite Hm2.
Qed.

Lemma createMemo_is_lazy_and_caches_witness :
  exists st1 st2 st3,
    exec demo_code 0 (createMemo (FUser 2 []) None) empty_state = Ok (FRead 0) st1 /\
    calls st1 = [] /\
    exec demo_code 2 (call (VFun (FRead 0)) []) st1 = Ok (VNum 7) st2 /\
    calls st2 = [(FRead 0, []); (FUser 2 [], [])] /\
    exec demo_code 2 (call (VFun (FRead 0)) []) st2 = Ok (VNum 7) st3 /\
    calls st3 = [(FRead 0, []); (FUser 2 [], []); (FRead 0, [])].
Proof.
  destruct (createMemo_is_lazy_and_caches demo_code 2 [] (fun _ => VNum 7) None 0
              empty_state)
    as (st1&st2&st3&E1&C1&_&_&_&E2&C2&_&E3&C3&_); [done..|].
  exists st1, st2, st3. split_and!; try done. by rewrite C3, C2.
Defined.

(** *** A memo over a signal *)

(** The memo [m] computes the value of the signal [s] by calling its
    accessor: [createMemo($s)].  [vs] is the value of the signal, [vm] the
    value the memo holds, [stl] says whether the memo is to be
    recomputed. *)
Definition Following (s m : nat) (vs vm : Val) (stl : bool) (st : State) : Prop :=
  active st = [] /\ pending st = [] /\ flushing st = false /\ s <> m /\
  exists sn mn,
    node s st = Some sn /\ node m st = Some mn /\
    value sn = vs /\ compute sn = None /\ disposed sn = false /\
    stale sn = false /\ equals sn = None /\
    compute mn = Some (FRead s) /\ stale mn = stl /\ disposed mn = false /\
    cleanups mn = [] /\ children mn = [] /\ observers mn = [] /\
    isEffect mn = false /\ value mn = vm /\
    ((sources mn = [s] /\ observers sn = [m]) \/
     (stl = true /\ sources mn = [] /\ observers sn = [])).

(** Reading a memo that is to be recomputed. *)
Lemma read_stale_memo (user : nat -> list Val -> list Val -> Prog Val)
    (fuel s m : nat) (vs vm : Val) (st : State) :
  Following s m vs vm true st ->
  exists st',
    exec user (S (S fuel)) (call (VFun (FRead m)) []) st = Ok vs st' /\
    Following s m vs vs false st' /\
    runs_of m st' = S (runs_of m st) /\
    calls st' = calls st ++ [(FRead m, []); (FRead s, [])].
Proof.
  intros (Ha&Hp&Hf&Hsm&sn&mn&Hs&Hm&Sv&Sc&Sd&Ss&Se&Mc&Ms&Md&Mcl&Mch&Mo&Me&Mv&Hl).
  set (s0 := log_call (FRead m) [] st).
  set (ste := enter m s0).
  destruct (enter_mapper s m sn mn s0 Hs Hm Hsm) as (E1&E2&E3&EA&EP&EF&ET&EC&EL).
  { destruct Hl as [[-> ->]|(_&->&->)]; auto. }
  fold ste in E1, E2, E3, EA, EP, EF, ET, EC, EL.
  set (s1 := log_call (FRead s) [] ste).
  set (s2 := track s s1).
  set (st' := leave m vs [] s2).
  assert (A1 : active s1 = [m]).
  { change (active s1) with (active ste). rewrite EA.
    change (active s0) with (active st). by rewrite Ha. }
  assert (Hs2 : node s s2 = Some (with_observers [m] (with_observers [] sn))).
  { unfold s2, track. rewrite A1. rewrite node_upd_ne by done. rewrite node_upd_eq.
    change (node s s1) with (node s ste). rewrite E1. cbn. by rewrite set_add_nil. }
  assert (Hm2 : node m s2 = Some (with_sources [s] (with_run (with_sources [] mn)))).
  { unfold s2, track. rewrite A1. rewrite node_upd_eq. rewrite node_upd_ne by done.
    change (node m s1) with (node m ste). rewrite E2. cbn. by rewrite set_add_nil. }
  assert (Hm' : node m st'
                = Some (with_stale false (with_value vs
                          (with_sources [s] (with_run (with_sources [] mn)))))).
  { unfold st'. by rewrite node_leave, Hm2. }
  destruct (track_frame s s1) as (TA&TP&TF&_&_&TC&_). fold s2 in TA, TP, TF, TC.
  exists st'. split_and!.
  - unfold exec, call. rewrite run_perform. cbn [do_op engine step e_call].
    unfold call_fn. cbn [fn_body]. unfold read. rewrite run_perform. cbn [do_op].
    fold s0. unfold read_node. change (node m s0) with (node m st).
    rewrite Hm, Md. unfold mbind at 1.
    unfold update_node. change (node m s0) with (node m st).
    rewrite Hm. change (active s0) with (active st). rewrite Ha.
    rewrite bool_decide_eq_false_2 by apply not_elem_of_nil. rewrite Ms.
    rewrite (recompute_leaf _ m mn) by done.
    unfold execute. fold ste. rewrite E2.
    change (Some (with_run (with_sources [] mn)) ≫= compute) with (compute mn).
    rewrite Mc. cbn [step e_call]. unfold call_fn. cbn [fn_body].
    unfold read. rewrite run_perform. cbn [do_op]. fold s1.
    rewrite (read_node_fresh _ s (with_observers [] sn)); try done.
    2:{ rewrite A1. intros Hin. by apply list_elem_of_singleton in Hin. }
    fold s2. cbn [value with_observers]. rewrite Sv.
    change (active s0) with (active st). rewrite Ha. fold st'.
    unfold current_value. rewrite Hm'. cbn [value with_stale with_value].
    done.
  - unfold Following. split_and!; try done.
    + change (pending st') with (pending s2). rewrite TP.
      change (pending s1) with (pending ste). by rewrite EP.
    + change (flushing st') with (flushing s2). rewrite TF.
      change (flushing s1) with (flushing ste). by rewrite EF.
    + exists (with_observers [m] (with_observers [] sn)),
        (with_stale false (with_value vs
           (with_sources [s] (with_run (with_sources [] mn))))).
      split_and!; try done.
      * unfold st', leave. rewrite node_upd_ne by done.
        change (node s (set_active ?x s2)) with (node s s2). exact Hs2.
      * by left.
  - unfold runs_of, field_of. rewrite Hm', Hm. done.
  - change (calls st') with (calls s2). rewrite TC.
    change (calls s1) with (calls ste ++ [(FRead s, [])]). rewrite EC.
    unfold s0; cbn. by rewrite <- app_assoc.
Qed.

(** Reading a memo that is up to date. *)
Lemma read_fresh_memo (user : nat -> list Val -> list Val -> Prog Val)
    (fuel s m : nat) (vs vm : Val) (st : State) :
  Following s m vs vm false st ->
  exists st',
    exec user (S fuel) (call (VFun (FRead m)) []) st = Ok vm st' /\
    Following s m vs vm false st' /\
    runs_of m st' = runs_of m st /\
    calls st' = calls st ++ [(FRead m, [])].
Proof.
  intros HF.
  pose proof HF as (Ha&Hp&Hf&Hsm&sn&mn&Hs&Hm&Sv&Sc&Sd&Ss&Se&Mc&Ms&Md&Mcl&Mch&Mo&Me&Mv&Hl).
  exists (log_call (FRead m) [] st). split_and!; try done.
  rewrite (call_read_fresh user fuel m mn) by done. by rewrite Mv.
Qed.

(** Writing the signal: the memo is marked, not run. *)
Lemma write_followed (user : nat -> list Val -> list Val -> Prog Val)
    (fuel s m : nat) (vs vm v : Val) (st : State) :
  Following s m vs vm false st -> isFunction v = false ->
  exists st',
    exec user (S (S fuel)) (call (VFun (FWrite s)) [v]) st = Ok VUndef st' /\
    (if js_eq v vs then Following s m vs vm false st'
     else Following s m v vm true st') /\
    runs_of m st' = runs_of m st /\
    calls st' = calls st ++ [(FWrite s, [v])].
Proof.
  intros (Ha&Hp&Hf&Hsm&sn&mn&Hs&Hm&Sv&Sc&Sd&Ss&Se&Mc&Ms&Md&Mcl&Mch&Mo&Me&Mv&Hl) Hv.
  destruct Hl as [[Msrc So]|[? _]]; [|done].
  set (s0 := log_call (FWrite s) [v] st).
  set (s1 := upd s (with_value v) s0).
  set (s2 := upd m (with_stale true) s1).
  exists (if js_eq v vs then s0 else s2).
  assert (E : exec user (S (S fuel)) (call (VFun (FWrite s)) [v]) st
              = Ok VUndef (if js_eq v vs then s0 else s2)).
  { unfold exec, call. rewrite run_perform. cbn [do_op engine step e_call].
    unfold call_fn. cbn [fn_body hd]. rewrite run_bind. unfold mbind.
    unfold write. rewrite run_perform. cbn [do_op]. fold s0.
    rewrite (write_node_plain _ s sn) by done. rewrite Sv.
    destruct (js_eq v vs); [done|]. fold s1.
    assert (H1 : node s s1 = Some (with_value v sn))
      by (unfold s1; by rewrite node_upd_eq; change (node s s0) with (node s st); rewrite Hs).
    assert (H2 : node m s1 = Some mn) by (unfold s1; by rewrite node_upd_ne).
    assert (H3 : is_Some (compute mn)) by (by rewrite Mc).
    rewrite (notify_mapper s m (with_value v sn) mn) by done. fold s2.
    rewrite flush_pass_settled; [done|]. by intros _. }
  split_and!; [exact E| | |].
  - destruct (js_eq v vs).
    + unfold Following. split_and!; try done. exists sn, mn. split_and!; try done.
      by left.
    + unfold Following. split_and!; try done.
      exists (with_value v sn), (with_stale true mn). split_and!; try done.
      * unfold s2, s1. rewrite node_upd_ne by done. rewrite node_upd_eq.
        change (node s s0) with (node s st). by rewrite Hs.
      * unfold s2, s1. rewrite node_upd_eq, node_upd_ne by done.
        change (node m s0) with (node m st). by rewrite Hm.
      * by left.
  - destruct (js_eq v vs); [done|]. unfold runs_of, field_of, s2, s1.
    rewrite node_upd_eq, node_upd_ne by done.
    change (node m s0) with (node m st). by rewrite Hm.
  - by destruct (js_eq v vs).
Qed.

(** A signal and a memo over its accessor, as a client creates them. *)
Definition memo_of_signal (v0 : Val) : Prog (Fn * Fn * Fn) :=
  signal <- createSignal v0 None ;;
  memo <- createMemo (fst signal) None ;;
  Ret (fst signal, snd signal, memo).

Lemma memo_of_signal_spec (user : nat -> list Val -> list Val -> Prog Val)
    (fuel : nat) (v0 : Val) (st : State) :
  active st = [] -> pending st = [] -> flushing st = false ->
  let s := length (nodes st) in
  exists st',
    exec user fuel (memo_of_signal v0) st = Ok (FRead s, FWrite s, FRead (S s)) st' /\
    Following s (S s) v0 VUndef true st' /\
    calls st' = calls st /\ runs_of (S s) st' = 0.
Proof.
  intros Ha Hp Hf s.
  set (sn := new_node v0 None None).
  set (mn := new_node VUndef (Some (FRead s)) None).
  set (st1 := set_nodes (fun ns => ns ++ [sn]) st).
  set (st2 := set_nodes (fun ns => ns ++ [mn]) st1).
  assert (L1 : length (nodes st1) = S s).
  { unfold st1; cbn. rewrite length_app. cbn. unfold s. lia. }
  assert (Hs : node s st2 = Some sn).
  { unfold node, st2, st1; cbn. rewrite <- app_assoc.
    rewrite lookup_app_r by (unfold s; lia).
    by replace (s - length (nodes st)) with 0 by (unfold s; lia). }
  assert (Hm : node (S s) st2 = Some mn).
  { unfold node, st2, st1; cbn. rewrite <- app_assoc.
    rewrite lookup_app_r by (unfold s; lia).
    by replace (S s - length (nodes st)) with 1 by (unfold s; lia). }
  exists st2. split_and!; try done.
  - unfold exec, memo_of_signal, createSignal, createMemo, createComputation, perform.
    cbn [bind run]. unfold mbind at 1. cbn [do_op]. unfold create_node.
    rewrite Ha. fold s sn st1. cbn [run mret fst snd bind].
    unfold mbind at 1. cbn [do_op]. unfold create_node.
    change (active st1) with (active st). rewrite Ha. rewrite L1. done.
  - unfold Following. split_and!; [done|done|done|lia|].
    exists sn, mn. split_and!; try done. by right.
  - unfold runs_of, field_of. by rewrite Hm.
Qed.

(** X2: a memo over the accessor of a signal, both up to date, outside any
    computation.  Writing a different value to the signal does not run the
    memo: it runs, once, when it is read next, and returns the new value;
    one more read returns it again without a run. *)
Theorem memo_recomputes_on_read_after_write
    (user : nat -> list Val -> list Val -> Prog Val) (fuel s m : nat)
    (vs vm v : Val) (st : State) :
  Following s m vs vm false st ->
  isFunction v = false -> js_eq v vs = false ->
  exists st1 st2 st3,
    exec user (S (S fuel)) (call (VFun (FWrite s)) [v]) st = Ok VUndef st1 /\
    runs_of m st1 = runs_of m st /\ is_stale m st1 = true /\
    exec user (S (S fuel)) (call (VFun (FRead m)) []) st1 = Ok v st2 /\
    runs_of m st2 = S (runs_of m st) /\
    exec user (S (S fuel)) (call (VFun (FRead m)) []) st2 = Ok v st3 /\
    runs_of m st3 = S (runs_of m st) /\
    calls st3 = calls st ++ [(FWrite s, [v]); (FRead m, []); (FRead s, []);
                             (FRead m, [])].
Proof.
  intros HF Hv Hne.
  destruct (write_followed user fuel s m vs vm v st HF Hv) as (st1&E1&F1&R1&C1).
  rewrite Hne in F1.
  destruct (read_stale_memo user fuel s m v vm st1 F1) as (st2&E2&F2&R2&C2).
  destruct (read_fresh_memo user (S fuel) s m v v st2 F2) as (st3&E3&F3&R3&C3).
  exists st1, st2, st3. split_and!; try done.
  - destruct F1 as (_&_&_&_&sn&mn&_&Hm&_&_&_&_&_&_&Ms&_).
    unfold is_stale, field_of. by rewrite Hm.
  - by rewrite R2, R1.
  - by rewrite R3, R2, R1.
  - rewrite C3, C2, C1. by rewrite <- !app_assoc.
Qed.

Lemma memo_recomputes_on_read_after_write_witness :
  exists st0 st st1 st2 st3,
    exec demo_code 2 (memo_of_signal (VNum 1)) empty_state
    = Ok (FRead 0, FWrite 0, FRead 1) st0 /\
    exec demo_code 2 (call (VFun (FRead 1)) []) st0 = Ok (VNum 1) st /\
    exec demo_code 2 (call (VFun (FWrite 0)) [VNum 2]) st = Ok VUndef st1 /\
    runs_of 1 st1 = 1 /\
    exec demo_code 2 (call (VFun (FRead 1)) []) st1 = Ok (VNum 2) st2 /\
    runs_of 1 st2 = 2 /\
    exec demo_code 2 (call (VFun (FRead 1)) []) st2 = Ok (VNum 2) st3 /\
    runs_of 1 st3 = 2.
Proof.
  destruct (memo_of_signal_spec demo_code 2 (VNum 1) empty_state)
    as (st0&E0&F0&_&R0); [done..|].
  destruct (read_stale_memo demo_code 0 0 1 (VNum 1) VUndef st0 F0)
    as (st&E&F&R&_).
  destruct (memo_recomputes_on_read_after_write demo_code 0 0 1 (VNum 1) (VNum 1)
              (VNum 2) st F)
    as (st1&st2&st3&E1&R1&_&E2&R2&E3&R3&_); [done..|].
  cbn in R0. rewrite R0 in R.
  exists st0, st, st1, st2, st3. split_and!; try done.
  - by rewrite R1.
  - by rewrite R2, R.
  - by rewrite R3, R.
Defined.

(** ** Effects over a signal *)

(** The effect [e] calls the accessor of the signal [s]:
    [createEffect($s)], and has run since the last write. *)
Definition Watching (s e : nat) (vs : Val) (st : State) : Prop :=
  active st = [] /\ pending st = [] /\ flushing st = false /\ s <> e /\
  exists sn en,
    node s st = Some sn /\ node e st = Some en /\
    value sn = vs /\ compute sn = None /\ disposed sn = false /\
    stale sn = false /\ equals sn = None /\ observers sn = [e] /\
    compute en = Some (FRunEffect (FRead s)) /\ stale en = false /\
    disposed en = false /\ cleanups en = [] /\ children en = [] /\
    observers en = [] /\ isEffect en = true /\ sources en = [s].

Lemma notify_effect (s e : nat) (sn en : Node) (st : State) :
  node s st = Some sn -> node e st = Some en -> observers sn = [e] ->
  stale en = false -> disposed en = false -> is_Some (compute en) ->
  observers en = [] -> isEffect en = true ->
  notify s st = set_pending (pending st ++ [e]) (upd e (with_stale true) st).
Proof.
  intros Hs He Ho Hst Hd Hc Heo Hef. unfold notify. rewrite Hs, Ho.
  cbn [mark_levels fold_left mark_one]. rewrite He, Hst, Hd, Heo, Hef.
  rewrite bool_decide_eq_true_2 by done. cbn.
  by destruct (length (nodes st)).
Qed.

(** One execution of an effect over the accessor of [s]. *)
Lemma execute_watcher (user : nat -> list Val -> list Val -> Prog Val)
    (fuel s e : nat) (sn en : Node) (st : State) :
  node s st = Some sn -> node e st = Some en -> s <> e ->
  active st = [] ->
  disposed sn = false -> stale sn = false -> isFunction (value sn) = false ->
  compute en = Some (FRunEffect (FRead s)) ->
  (sources en = [] /\ observers sn = []) \/
  (sources en = [s] /\ observers sn = [e]) ->
  let st' := leave e VNull []
               (track s (log_call (FRead s) []
                  (log_call (FRunEffect (FRead s)) [] (enter e st)))) in
  execute (engine user (S (S fuel))) e st = Ok tt st' /\
  node s st' = Some (with_observers [e] (with_observers [] sn)) /\
  node e st' = Some (with_stale false (with_value VNull
                       (with_sources [s] (with_run (with_sources [] en))))) /\
  active st' = [] /\ pending st' = pending st /\ flushing st' = flushing st /\
  calls st' = calls st ++ [(FRunEffect (FRead s), []); (FRead s, [])].
Proof.
  intros Hs He Hse Ha Sd Ss Sf Ec Hl.
  set (ste := enter e st).
  destruct (enter_mapper s e sn en st Hs He Hse Hl)
    as (E1&E2&E3&EA&EP&EF&ET&EC&EL).
  fold ste in E1, E2, E3, EA, EP, EF, ET, EC, EL.
  set (s1 := log_call (FRead s) [] (log_call (FRunEffect (FRead s)) [] ste)).
  set (s2 := track s s1).
  assert (A1 : active s1 = [e]).
  { change (active s1) with (active ste). by rewrite EA, Ha. }
  assert (Hs2 : node s s2 = Some (with_observers [e] (with_observers [] sn))).
  { unfold s2, track. rewrite A1. rewrite node_upd_ne by done. rewrite node_upd_eq.
    change (node s s1) with (node s ste). rewrite E1. cbn. by rewrite set_add_nil. }
  assert (He2 : node e s2 = Some (with_sources [s] (with_run (with_sources [] en)))).
  { unfold s2, track. rewrite A1. rewrite node_upd_eq. rewrite node_upd_ne by done.
    change (node e s1) with (node e ste). rewrite E2. cbn. by rewrite set_add_nil. }
  destruct (track_frame s s1) as (TA&TP&TF&_&_&TC&_). fold s2 in TA, TP, TF, TC.
  cbn zeta. fold ste s1 s2.
  split_and!.
  - unfold execute. fold ste. rewrite E2.
    change (Some (with_run (with_sources [] en)) ≫= compute) with (compute en).
    rewrite Ec. cbn [engine step e_call]. unfold call_fn. cbn [fn_body].
    unfold runEffect, call. rewrite run_bind. unfold mbind at 1.
    rewrite (run_perform (step user (engine user fuel))). cbn [do_op step e_call].
    unfold call_fn. cbn [fn_body].
    unfold read. rewrite run_perform. cbn [do_op]. fold s1.
    rewrite (read_node_fresh _ s (with_observers [] sn)); try done.
    2:{ rewrite A1. intros Hin. by apply list_elem_of_singleton in Hin. }
    fold s2. cbn [value with_observers]. rewrite Sf. cbn [bind run mret].
    by rewrite Ha.
  - unfold leave. rewrite node_upd_ne by done.
    change (node s (set_active ?x s2)) with (node s s2). exact Hs2.
  - by rewrite node_leave, He2.
  - done.
  - change (pending (leave e VNull [] s2)) with (pending s2). rewrite TP.
    change (pending s1) with (pending ste). by rewrite EP.
  - change (flushing (leave e VNull [] s2)) with (flushing s2). rewrite TF.
    change (flushing s1) with (flushing ste). by rewrite EF.
  - change (calls (leave e VNull [] s2)) with (calls s2). rewrite TC.
    unfold s1. cbn [calls log_call]. rewrite EC. by rewrite <- app_assoc.
Qed.

(** One run of the effect, taken from the queue by the flush pass. *)
Lemma rerun_watcher (user : nat -> list Val -> list Val -> Prog Val)
    (fuel s e : nat) (sn en : Node) (st : State) :
  node s st = Some sn -> node e st = Some en -> s <> e ->
  active st = [] ->
  disposed sn = false -> stale sn = false -> isFunction (value sn) = false ->
  observers sn = [e] ->
  compute en = Some (FRunEffect (FRead s)) -> stale en = true ->
  cleanups en = [] -> children en = [] -> sources en = [s] ->
  let st' := leave e VNull []
               (track s (log_call (FRead s) []
                  (log_call (FRunEffect (FRead s)) [] (enter e st)))) in
  update_node (engine user (S (S fuel))) e st = Ok tt st' /\
  node s st' = Some (with_observers [e] (with_observers [] sn)) /\
  node e st' = Some (with_stale false (with_value VNull
                       (with_sources [s] (with_run (with_sources [] en))))) /\
  active st' = [] /\ pending st' = pending st /\ flushing st' = flushing st /\
  calls st' = calls st ++ [(FRunEffect (FRead s), []); (FRead s, [])].
Proof.
  intros Hs He Hse Ha Sd Ss Sf So Ec Es Ecl Ech Esrc.
  destruct (execute_watcher user fuel s e sn en st) as (Ex&H); try done; [by right|].
  cbn zeta. split; [|exact H].
  unfold update_node. rewrite He, Ha.
  rewrite bool_decide_eq_false_2 by apply not_elem_of_nil. rewrite Es.
  by rewrite (recompute_leaf _ e en).
Qed.

(** X3: an effect over the accessor of a signal, outside any computation
    and with nothing else observing.  A write of a value that is strictly
    equal to the current one calls nothing; a write of another value runs
    the effect once, inside the call of [write], and the effect observes
    the signal as before. *)
Theorem effect_reruns_once_per_change
    (user : nat -> list Val -> list Val -> Prog Val) (fuel s e : nat)
    (vs v : Val) (st : State) :
  Watching s e vs st -> isFunction v = false ->
  exists st',
    exec user (S (S (S (S fuel)))) (call (VFun (FWrite s)) [v]) st = Ok VUndef st' /\
    Watching s e (if js_eq v vs then vs else v) st' /\
    runs_of e st' = (if js_eq v vs then runs_of e st else S (runs_of e st)) /\
    calls st' = calls st ++ (FWrite s, [v])
                  :: (if js_eq v vs then []
                      else [(FRunEffect (FRead s), []); (FRead s, [])]).
Proof.
  intros HW Hv.
  pose proof HW as (Ha&Hp&Hf&Hse&sn&en&Hs&He&Sv&Sc&Sd&Ss&Se&So&Ec&Es&Ed&Ecl&Ech&Eo&Ef&Esrc).
  set (s0 := log_call (FWrite s) [v] st).
  assert (Hstart : exec user (S (S (S (S fuel)))) (call (VFun (FWrite s)) [v]) st
                   = match write_node (engine user (S (S (S fuel)))) s v s0 with
                     | Ok _ st' => Ok VUndef st'
                     | Throw err st' => Throw err st'
                     | OutOfFuel => OutOfFuel
                     end).
  { unfold exec, call. rewrite run_perform. cbn [do_op engine step e_call].
    unfold call_fn. cbn [fn_body hd]. rewrite run_bind. unfold mbind.
    unfold write. rewrite (run_perform (step user (step user (step user (engine user fuel))))).
    cbn [do_op]. fold s0. by destruct (write_node _ _ _ _). }
  rewrite Hstart. rewrite (write_node_plain _ s sn) by done. rewrite Sv.
  destruct (js_eq v vs) eqn:Ev.
  { exists s0. by split_and!. }
  set (s1 := upd s (with_value v) s0).
  assert (H1 : node s s1 = Some (with_value v sn)).
  { unfold s1. rewrite node_upd_eq. change (node s s0) with (node s st). by rewrite Hs. }
  assert (H2 : node e s1 = Some en) by (unfold s1; by rewrite node_upd_ne).
  assert (H3 : is_Some (compute en)) by (by rewrite Ec).
  rewrite (notify_effect s e (with_value v sn) en s1) by done.
  change (pending s1) with (pending st). rewrite Hp. cbn [app].
  set (sN := set_pending [e] (upd e (with_stale true) s1)).
  set (sa := set_pending [] (set_flushing true sN)).
  assert (Hsa : node s sa = Some (with_value v sn)).
  { unfold sa, sN. change (node s (set_pending ?p (set_flushing ?b (set_pending ?q ?x))))
      with (node s x). by rewrite node_upd_ne. }
  assert (Hea : node e sa = Some (with_stale true en)).
  { unfold sa, sN. change (node e (set_pending ?p (set_flushing ?b (set_pending ?q ?x))))
      with (node e x). by rewrite node_upd_eq, H2. }
  destruct (rerun_watcher user fuel s e (with_value v sn) (with_stale true en) sa)
    as (Eu&Hs'&He'&A'&P'&F'&C'); try done.
  set (sb := leave e VNull []
               (track s (log_call (FRead s) []
                  (log_call (FRunEffect (FRead s)) [] (enter e sa))))) in *.
  exists (set_flushing false sb). split_and!.
  - unfold flush_pass. change (flushing sN) with (flushing st). rewrite Hf.
    cbn [engine step e_flush]. unfold flush_loop at 1.
    change (pending (set_flushing true sN)) with [e]. cbn iota zeta. fold sa.
    rewrite Hea. cbn [disposed with_stale]. rewrite Ed.
    change (step user (step user (engine user fuel))) with (engine user (S (S fuel))).
    rewrite Eu. cbn [engine step e_flush]. unfold flush_loop. rewrite P'. done.
  - unfold Watching. split_and!; try done.
    exists (with_observers [e] (with_observers [] (with_value v sn))),
      (with_stale false (with_value VNull
         (with_sources [s] (with_run (with_sources [] (with_stale true en)))))).
    split_and!; done.
  - unfold runs_of, field_of.
    change (node e (set_flushing false sb)) with (node e sb). by rewrite He', He.
  - change (calls (set_flushing false sb)) with (calls sb). rewrite C'.
    unfold sa, sN, s1, s0; cbn. by rewrite <- app_assoc.
Qed.

(** The signal of the second test's kind, and the effect over it. *)
Definition watched_state : State :=
  match exec demo_code 3
          (signal <- createSignal (VNum 1) None ;;
           createEffect false (fst signal) None)
          empty_state with
  | Ok _ st => st
  | _ => empty_state
  end.

Lemma watched_state_watching : Watching 0 1 (VNum 1) watched_state.
Proof.
  unfold Watching. split_and!; try done.
  eexists _, _. split_and!; try (vm_compute; reflexivity).
Qed.

Lemma effect_reruns_once_per_change_witness :
  runs_of 1 watched_state = 1 /\
  (exists st', exec demo_code 4 (call (VFun (FWrite 0)) [VNum 2]) watched_state
               = Ok VUndef st' /\ runs_of 1 st' = 2) /\
  (exists st', exec demo_code 4 (call (VFun (FWrite 0)) [VNum 1]) watched_state
               = Ok VUndef st' /\ runs_of 1 st' = 1).
Proof.
  split; [done|]. split.
  - destruct (effect_reruns_once_per_change demo_code 0 0 1 (VNum 1) (VNum 2)
                watched_state watched_state_watching)
      as (st'&E&_&R&_); [done|].
    exists st'. split; [exact E|]. by rewrite R.
  - destruct (effect_reruns_once_per_change demo_code 0 0 1 (VNum 1) (VNum 1)
                watched_state watched_state_watching)
      as (st'&E&_&R&_); [done|].
    exists st'. split; [exact E|]. by rewrite R.
Defined.

(** X4: the stop handle of an effect over a signal, in either build,
    disposes the effect and takes it off the signal's observers; a write to
    the signal after that changes the value and calls nothing: the effect
    does not run again. *)
Theorem stopped_effect_does_not_rerun (DEV : bool)
    (user : nat -> list Val -> list Val -> Prog Val) (fuel s e : nat)
    (vs v : Val) (st : State) :
  Watching s e vs st -> isFunction v = false ->
  exists st1 st2,
    exec user (S (S fuel)) (call (VFun (stop_handle DEV e)) []) st = Ok VUndef st1 /\
    is_disposed e st1 = true /\ observers_of s st1 = [] /\
    exec user (S (S fuel)) (call (VFun (FWrite s)) [v]) st1 = Ok VUndef st2 /\
    current_value s st2 = (if js_eq v vs then vs else v) /\
    runs_of e st2 = runs_of e st /\
    calls st2 = calls st ++ [(stop_handle DEV e, []); (FWrite s, [v])].
Proof.
  intros (Ha&Hp&Hf&Hse&sn&en&Hs&He&Sv&Sc&Sd&Ss&Se&So&Ec&Es&Ed&Ecl&Ech&Eo&Ef&Esrc) Hv.
  set (s0 := log_call (stop_handle DEV e) [] st).
  set (d1 := detach_sources e s0).
  set (d2 := detach_observers e d1).
  set (st1 := set_pending (set_remove e (pending s0)) (upd e (with_disposed true) d2)).
  assert (D1s : node s d1 = Some (with_observers [] sn)).
  { unfold d1, detach_sources. change (node e s0) with (node e st). rewrite He, Esrc.
    cbn [fold_left]. rewrite node_upd_ne by done. rewrite node_upd_eq.
    change (node s s0) with (node s st). rewrite Hs. cbn.
    by rewrite So, set_remove_single. }
  assert (D1e : node e d1 = Some (with_sources [] en)).
  { unfold d1, detach_sources. change (node e s0) with (node e st). rewrite He, Esrc.
    cbn [fold_left]. rewrite node_upd_eq, node_upd_ne by done.
    change (node e s0) with (node e st). by rewrite He. }
  assert (D2s : node s d2 = Some (with_observers [] sn)).
  { unfold d2, detach_observers. rewrite D1e. cbn [observers with_sources].
    rewrite Eo. cbn [fold_left]. by rewrite node_upd_ne. }
  assert (D2e : node e d2 = Some (with_observers [] (with_sources [] en))).
  { unfold d2, detach_observers. rewrite D1e. cbn [observers with_sources].
    rewrite Eo. cbn [fold_left]. by rewrite node_upd_eq, D1e. }
  destruct (detach_sources_frame e s0) as (A1&P1&F1&_&_&C1&_). fold d1 in A1, P1, F1, C1.
  destruct (detach_observers_frame e d1) as (A2&P2&F2&_&_&C2&_). fold d2 in A2, P2, F2, C2.
  assert (H1s : node s st1 = Some (with_observers [] sn)).
  { unfold st1. change (node s (set_pending ?p ?x)) with (node s x).
    by rewrite node_upd_ne. }
  assert (H1e : node e st1
                = Some (with_disposed true (with_observers [] (with_sources [] en)))).
  { unfold st1. change (node e (set_pending ?p ?x)) with (node e x).
    by rewrite node_upd_eq, D2e. }
  assert (P1' : pending st1 = []).
  { unfold st1. cbn [pending set_pending].
    change (pending s0) with (pending st). by rewrite Hp. }
  assert (E1 : exec user (S (S fuel)) (call (VFun (stop_handle DEV e)) []) st
               = Ok VUndef st1).
  { unfold exec, call. rewrite run_perform. cbn [do_op engine step e_call].
    unfold call_fn. fold s0.
    assert (fn_body user (stop_handle DEV e) [] = (dispose e true ;;; Ret VUndef)) as ->
      by (by destruct DEV).
    rewrite run_bind. unfold mbind. unfold dispose.
    rewrite (run_perform (step user (engine user fuel))). cbn [do_op].
    unfold dispose_op. change (node e s0) with (node e st). rewrite He, Ed.
    unfold dispose_node, mbind at 1. unfold run_cleanups.
    change (node e s0) with (node e st). rewrite He, Ecl. cbn [rev call_all mret].
    rewrite (upd_same e (with_cleanups []) s0).
    2:{ intros x. change (node e s0) with (node e st). rewrite He. intros [= <-].
        destruct en; cbn in *. by subst. }
    cbn [mbind modify]. unfold mbind. cbn [modify]. unfold retire. fold d1 d2 st1.
    unfold dispose_children. rewrite H1e.
    cbn [children with_disposed with_observers with_sources]. rewrite Ech.
    cbn [dispose_all mret]. rewrite (upd_same e (with_children []) st1); [done|].
    intros x. rewrite H1e. intros [= <-]. destruct en; cbn in *. by subst. }
  set (w0 := log_call (FWrite s) [v] st1).
  set (st2 := if js_eq v vs then w0 else upd s (with_value v) w0).
  assert (E2 : exec user (S (S fuel)) (call (VFun (FWrite s)) [v]) st1
               = Ok VUndef st2).
  { unfold exec, call. rewrite run_perform. cbn [do_op engine step e_call].
    unfold call_fn. cbn [fn_body hd]. rewrite run_bind. unfold mbind. unfold write.
    rewrite (run_perform (step user (engine user fuel))). cbn [do_op]. fold w0.
    rewrite (write_node_plain _ s (with_observers [] sn)) by done.
    cbn [value with_observers]. rewrite Sv. unfold st2.
    destruct (js_eq v vs); [done|].
    rewrite notify_unobserved.
    - rewrite flush_pass_settled; [done|]. intros _. exact P1'.
    - unfold observers_of, field_of. rewrite node_upd_eq.
      change (node s w0) with (node s st1). by rewrite H1s. }
  exists st1, st2. split_and!; try done.
  - unfold is_disposed, field_of. by rewrite H1e.
  - unfold observers_of, field_of. by rewrite H1s.
  - unfold current_value, st2. destruct (js_eq v vs).
    + change (node s w0) with (node s st1). by rewrite H1s.
    + rewrite node_upd_eq. change (node s w0) with (node s st1). by rewrite H1s.
  - unfold runs_of, field_of, st2. destruct (js_eq v vs).
    + change (node e w0) with (node e st1). by rewrite H1e, He.
    + rewrite node_upd_ne by done. change (node e w0) with (node e st1).
      by rewrite H1e, He.
  - assert (calls st2 = calls w0) as -> by (unfold st2; by destruct (js_eq v vs)).
    unfold w0, st1. cbn [calls log_call set_pending upd set_nodes].
    rewrite C2, C1. unfold s0; cbn. by rewrite <- app_assoc.
Qed.

Lemma stopped_effect_does_not_rerun_witness :
  exists st1 st2,
    exec demo_code 2 (call (VFun (FDispose 1 true)) []) watched_state
    = Ok VUndef st1 /\
    is_disposed 1 st1 = true /\
    exec demo_code 2 (call (VFun (FWrite 0)) [VNum 2]) st1 = Ok VUndef st2 /\
    current_value 0 st2 = VNum 2 /\ runs_of 1 st2 = 1.
Proof.
  destruct (stopped_effect_does_not_rerun false demo_code 0 0 1 (VNum 1) (VNum 2)
              watched_state watched_state_watching)
    as (st1&st2&E1&D&_&E2&V&R&_); [done|].
  by exists st1, st2.
Defined.

(** ** What no operation changes *)

(** A field that none of the updates of a node touches. *)
Definition fixed {A : Type} (p : Node -> A) : Prop :=
  (forall v nd, p (with_value v nd) = p nd) /\
  (forall b nd, p (with_stale b nd) = p nd) /\
  (forall l nd, p (with_sources l nd) = p nd) /\
  (forall l nd, p (with_observers l nd) = p nd) /\
  (forall b nd, p (with_disposed b nd) = p nd) /\
  (forall l nd, p (with_cleanups l nd) = p nd) /\
  (forall b nd, p (with_isEffect b nd) = p nd) /\
  (forall l nd, p (with_children l nd) = p nd) /\
  (forall nd, p (with_run nd) = p nd).

Definition kept {A : Type} (p : Node -> A) (st st' : State) : Prop :=
  forall m, is_Some (node m st) -> p <$> node m st' = p <$> node m st.

Lemma kept_respected {A : Type} (p : Node -> A) :
  fixed p ->
  respected (fun a b => base a b /\ kept p a b) (fun a b => base a b /\ kept p a b).
Proof.
  intros (Pv&Pst&Pso&Pob&Pd&Pcl&Pe&Pch&Pr).
  assert (Ht : forall a b c, base a b /\ kept p a b ->
                 base b c /\ kept p b c -> base a c /\ kept p a c).
  { intros a b c [B1 H1] [B2 H2]. split; [by eapply base_trans|].
    intros m Hm. rewrite H2, H1; [done|done|]. by eapply is_Some_node_base. }
  assert (Hk : forall st st', (forall m, p <$> node m st' = p <$> node m st) ->
                              kept p st st').
  { intros st st' H m _. apply H. }
  constructor.
  - intros st. split; [apply base_refl|by intros m _].
  - exact Ht.
  - intros owned initial compute options st n st' H. split; [by eapply base_create|].
    revert H.
    destruct (create_node_spec owned initial compute options st)
      as (s&E&_&_&_&_&_&_&_&K&_).
    rewrite E. intros [= _ <-] m Hm. apply K; [done|].
    by apply lookup_lt_is_Some.
  - intros. split; [by apply base_upd|]. apply Hk. intros m. by apply upd_keeps.
  - intros c st st' H. split; [by eapply base_on_dispose|].
    apply Hk. revert H. unfold on_dispose.
    destruct (active st); intros [= <-] m; [done|]. by apply upd_keeps.
  - intros. split; [apply base_track|]. apply Hk. intros m. by apply track_keeps.
  - intros. split; [by apply base_upd|]. apply Hk. intros m. by apply upd_keeps.
  - intros n st st' H _ _. eapply Ht; [|exact H].
    split; [by apply base_upd|]. apply Hk. intros m. by apply upd_keeps.
  - intros. split; [apply base_retire|]. apply Hk. intros m. unfold retire.
    change (node m (set_pending _ ?s)) with (node m s).
    rewrite upd_keeps by done.
    rewrite detach_observers_keeps by done. by apply detach_sources_keeps.
  - intros n v st st2 _ [B H] _. split; [by apply base_enter_leave|].
    intros m Hm. unfold leave.
    change (node m (upd n ?f (set_active ?a st2))) with (node m (upd n f st2)).
    rewrite upd_keeps by (intros; by rewrite Pst, Pv). rewrite H.
    + by apply enter_keeps.
    + destruct Hm as [x Hx].
      pose proof (enter_keeps p n st Pso Pob Pr m) as K.
      rewrite Hx in K. destruct (node m (enter n st)); [eauto|done].
  - intros. split; [apply base_assign|]. apply Hk. intros m.
    rewrite (marks_keeps p _ _ (notify_marks n _)) by done.
    by apply upd_keeps.
  - intros st st' Hf [B H] _. split; [|done].
    destruct B as (B1&B2&B3&B4). unfold base; cbn in *. by split_and!.
  - intros. split; [apply base_refl|by intros m _].
  - intros e rest st st2 st3 _ H1 H2. eapply Ht; [|exact H2].
    destruct H1 as [B H]. split; [|done].
    destruct B as (B1&B2&B3&B4). unfold base; cbn in *. by split_and!.
  - intros. split; [by apply base_of_keeps|by apply Hk].
  - intros. split; [by apply base_of_keeps|by apply Hk].
  - intros. split; [by apply base_of_keeps|by apply Hk].
Qed.

Definition label_of : nat -> State -> option string := field_of label None.
Definition equals_of : nat -> State -> option Fn := field_of equals None.

Lemma fixed_label : fixed label.
Proof. unfold fixed. by split_and!. Qed.

Lemma fixed_equals : fixed equals.
Proof. unfold fixed. by split_and!. Qed.

(** X5: the node of an effect carries a name in the development build
    only, [options.id] or, by default, "effect"; in the production build
    the options are dropped.  No custom equality reaches the node in
    either build.  This holds when [createEffect] returns, whatever the
    effect did in its first run. *)
Theorem createEffect_names_node_in_dev_only (DEV : bool)
    (user : nat -> list Val -> list Val -> Prog Val) (effect : Fn)
    (options : option Options) (fuel : nat) (st : State) (stop : Fn) (st' : State) :
  stack_ok st ->
  exec user fuel (createEffect DEV effect options) st = Ok stop st' ->
  let n := length (nodes st) in
  label_of n st'
  = (if DEV then Some (default "effect" (options ≫= opt_id)) else None) /\
  equals_of n st' = None.
Proof.
  intros Hok E n.
  destruct (effect_created_spec DEV effect options st Hok) as (H0&A0&_&Hn).
  fold n in H0, Hn.
  rewrite (createEffect_unfold DEV user fuel effect options st Hok) in E.
  fold n in E.
  destruct (execute _ _ _) as [[] s| |] eqn:Ex; [|done|done].
  injection E as _ <-.
  assert (Hn' : n ∉ active (effect_created DEV effect options st)) by (by rewrite A0).
  pose proof (engine_good user _ _ (kept_respected label fixed_label) fuel) as G1.
  pose proof (engine_good user _ _ (kept_respected equals fixed_equals) fuel) as G2.
  destruct (execute_good _ _ (kept_respected label fixed_label) _ G1 n _ _ Hn' Ex)
    as [[_ K1] _].
  destruct (execute_good _ _ (kept_respected equals fixed_equals) _ G2 n _ _ Hn' Ex)
    as [[_ K2] _].
  unfold label_of, equals_of, field_of.
  rewrite (track_keeps label n s ltac:(done) ltac:(done) n).
  rewrite (track_keeps equals n s ltac:(done) ltac:(done) n).
  rewrite K1, K2 by (rewrite H0; eauto). rewrite H0. cbn.
  unfold effect_options. by destruct DEV.
Qed.

Lemma createEffect_names_node_in_dev_only_witness :
  (exists stop st',
     exec demo_code 2
       (createEffect true (FUser 2 [])
          (Some {| opt_id := Some "log"; opt_initial := VUndef;
                   opt_equals := Some (FUser 1 []) |}))
       empty_state = Ok stop st' /\
     label_of 0 st' = Some "log" /\ equals_of 0 st' = None) /\
  (exists stop st',
     exec demo_code 2 (createEffect true (FUser 2 []) None) empty_state
     = Ok stop st' /\
     label_of 0 st' = Some "effect") /\
  (exists stop st',
     exec demo_code 2
       (createEffect false (FUser 2 [])
          (Some {| opt_id := Some "log"; opt_initial := VUndef;
                   opt_equals := None |}))
       empty_state = Ok stop st' /\
     label_of 0 st' = None).
Proof.
  split_and!.
  - assert (E : exists stop st',
              exec demo_code 2
                (createEffect true (FUser 2 [])
                   (Some {| opt_id := Some "log"; opt_initial := VUndef;
                            opt_equals := Some (FUser 1 []) |}))
                empty_state = Ok stop st')
      by (eexists _, _; vm_compute; reflexivity).
    destruct E as (stop&st'&E).
    destruct (createEffect_names_node_in_dev_only true demo_code _ _ _ _ _ _
                stack_ok_empty E) as [L Q].
    by exists stop, st'.
  - assert (E : exists stop st',
              exec demo_code 2 (createEffect true (FUser 2 []) None) empty_state
              = Ok stop st')
      by (eexists _, _; vm_compute; reflexivity).
    destruct E as (stop&st'&E).
    destruct (createEffect_names_node_in_dev_only true demo_code _ _ _ _ _ _
                stack_ok_empty E) as [L Q].
    by exists stop, st'.
  - assert (E : exists stop st',
              exec demo_code 2
                (createEffect false (FUser 2 [])
                   (Some {| opt_id := Some "log"; opt_initial := VUndef;
                            opt_equals := None |}))
                empty_state = Ok stop st')
      by (eexists _, _; vm_compute; reflexivity).
    destruct E as (stop&st'&E).
    destruct (createEffect_names_node_in_dev_only false demo_code _ _ _ _ _ _
                stack_ok_empty E) as [L Q].
    by exists stop, st'.
Defined.

(** A signal and an effect over its accessor, as a client creates them. *)
Definition effect_of_signal (DEV : bool) (v0 : Val) (options : option Options)
  : Prog (Fn * Fn * Fn) :=
  signal <- createSignal v0 None ;;
  stop <- createEffect DEV (fst signal) options ;;
  Ret (fst signal, snd signal, stop).

(** X6: [createEffect] over the accessor of a signal that was just
    created, outside any computation: when it returns, the effect has run
    once and has read the signal, its node holds [null] and is up to date,
    and it is the signal's only observer: a later write will find it. *)
Theorem createEffect_subscribes_to_signal (DEV : bool)
    (user : nat -> list Val -> list Val -> Prog Val) (fuel : nat) (v0 : Val)
    (options : option Options) (st : State) :
  active st = [] -> pending st = [] -> flushing st = false ->
  isFunction v0 = false ->
  let s := length (nodes st) in
  let e := S s in
  exists st',
    exec user (S (S fuel)) (effect_of_signal DEV v0 options) st
    = Ok (FRead s, FWrite s, stop_handle DEV e) st' /\
    Watching s e v0 st' /\
    runs_of e st' = 1 /\
    current_value e st' = VNull /\
    calls st' = calls st ++ [(FRunEffect (FRead s), []); (FRead s, [])].
Proof.
  intros Ha Hp Hf Hv s e.
  set (sn := new_node v0 None None).
  set (st1 := set_nodes (fun ns => ns ++ [sn]) st).
  assert (L1 : length (nodes st1) = e).
  { unfold st1; cbn. rewrite length_app. cbn. unfold e, s. lia. }
  assert (Hok : stack_ok st1).
  { intros x. change (active st1) with (active st). rewrite Ha.
    intros Hx. by apply elem_of_nil in Hx. }
  destruct (effect_created_spec DEV (FRead s) options st1 Hok) as (H0&A0&C0&_).
  rewrite L1 in H0.
  set (st0 := effect_created DEV (FRead s) options st1) in *.
  assert (Hs0 : node s st0 = Some sn).
  { unfold st0, effect_created.
    destruct (create_node_spec true VNull (Some (FRunEffect (FRead s)))
                (effect_options DEV options) st1) as (x&E&_&_&_&_&_&_&_&_&K&_).
    rewrite E. rewrite node_upd_ne by (rewrite L1; unfold e; lia).
    rewrite K.
    - unfold node, st1; cbn. rewrite lookup_app_r by (unfold s; lia).
      by replace (s - length (nodes st)) with 0 by (unfold s; lia).
    - rewrite L1. unfold e. lia.
    - right. change (active st1) with (active st). by rewrite Ha. }
  assert (P0 : pending st0 = [] /\ flushing st0 = false).
  { unfold st0, effect_created.
    destruct (create_node_spec true VNull (Some (FRunEffect (FRead s)))
                (effect_options DEV options) st1) as (x&E&_&_&P&F&_).
    rewrite E. cbn. by rewrite P, F. }
  destruct P0 as [P0 F0].
  destruct (execute_watcher user fuel s e sn (effect_node DEV (FRead s) options) st0)
    as (Ex&Hs'&He'&A'&P'&F'&C'); try done.
  { by rewrite A0. }
  { by left. }
  set (st' := leave e VNull []
                (track s (log_call (FRead s) []
                   (log_call (FRunEffect (FRead s)) [] (enter e st0))))) in *.
  exists st'. split_and!.
  - unfold exec, effect_of_signal, createSignal, createComputation.
    rewrite run_bind. unfold mbind at 1. rewrite run_bind. unfold mbind at 1.
    rewrite run_perform. cbn [do_op]. unfold create_node. rewrite Ha.
    fold s sn st1. cbn [run mret fst snd].
    rewrite run_bind. unfold mbind at 1.
    pose proof (createEffect_unfold DEV user (S (S fuel)) (FRead s) options st1 Hok)
      as U. unfold exec in U. rewrite U. rewrite L1. fold st0. rewrite Ex.
    cbn [run mret]. done.
  - unfold Watching.
    split; [done|]. split; [by rewrite P', P0|]. split; [by rewrite F', F0|].
    split; [unfold e; lia|].
    exists (with_observers [e] (with_observers [] sn)),
      (with_stale false (with_value VNull
         (with_sources [s] (with_run (with_sources [] (effect_node DEV (FRead s) options)))))).
    split_and!; done.
  - unfold runs_of, field_of. by rewrite He'.
  - unfold current_value. by rewrite He'.
  - by rewrite C', C0.
Qed.

Lemma createEffect_subscribes_to_signal_witness :
  exists st',
    exec demo_code 2 (effect_of_signal true (VNum 1) None) empty_state
    = Ok (FRead 0, FWrite 0, FStopEffect 1) st' /\
    Watching 0 1 (VNum 1) st' /\ runs_of 1 st' = 1 /\
    current_value 1 st' = VNull /\ observers_of 0 st' = [1].
Proof.
  destruct (createEffect_subscribes_to_signal true demo_code 0 (VNum 1) None
              empty_state)
    as (st'&E&W&R&V&_); [done..|].
  exists st'. split_and!; try done.
  destruct W as (_&_&_&_&sn&en&Hs&_&_&_&_&_&_&So&_).
  change (length (nodes empty_state)) with 0 in Hs.
  unfold observers_of, field_of. by rewrite Hs.
Defined.
